(* ===================================================================== *)
(*  open_webui/retrieval/utils.py : the retrieval fusion engine           *)
(*                                                                       *)
(*  A shallow embedding of                                               *)
(*    - merge_and_sort_query_results   (cross-collection result merger)  *)
(*    - query_collection               (plain fan-out)                   *)
(*    - query_collection_with_hybrid_search (hybrid fan-out)             *)
(*    - RerankCompressor.compress_documents (threshold, sort, top_n)     *)
(*  and the properties of them that the specification states.            *)
(* ===================================================================== *)

From Stdlib Require Import ZArith QArith Lqa String Ascii List Lia.
From Stdlib Require Import Permutation Sorted.
From stdpp Require Import gmap strings list fin_maps.

Local Close Scope Q_scope.
Local Open Scope Z_scope.

(* --------------------------------------------------------------------- *)
(*  hashlib.md5(b).hexdigest(), after RFC 1321                           *)
(* --------------------------------------------------------------------- *)

(* A Python str is kept as the bytes of its UTF-8 encoding, so that
   [document.encode()] is the identity on the model. *)

Module MD5.

Definition w32 (x : Z) : Z := x mod 2 ^ 32.

Definition not32 (x : Z) : Z := Z.lxor x 4294967295.

Definition rotl (x c : Z) : Z :=
  w32 (Z.lor (Z.shiftl x c) (Z.shiftr x (32 - c))).

(* K[i] = floor(2^32 * abs(sin(i + 1))) *)
Definition K : list Z :=
  [ 3614090360; 3905402710; 606105819; 3250441966;
    4118548399; 1200080426; 2821735955; 4249261313;
    1770035416; 2336552879; 4294925233; 2304563134;
    1804603682; 4254626195; 2792965006; 1236535329;
    4129170786; 3225465664; 643717713; 3921069994;
    3593408605; 38016083; 3634488961; 3889429448;
    568446438; 3275163606; 4107603335; 1163531501;
    2850285829; 4243563512; 1735328473; 2368359562;
    4294588738; 2272392833; 1839030562; 4259657740;
    2763975236; 1272893353; 4139469664; 3200236656;
    681279174; 3936430074; 3572445317; 76029189;
    3654602809; 3873151461; 530742520; 3299628645;
    4096336452; 1126891415; 2878612391; 4237533241;
    1700485571; 2399980690; 4293915773; 2240044497;
    1873313359; 4264355552; 2734768916; 1309151649;
    4149444226; 3174756917; 718787259; 3951481745 ].

(* per-round left rotations *)
Definition R : list Z :=
  [ 7; 12; 17; 22; 7; 12; 17; 22; 7; 12; 17; 22; 7; 12; 17; 22;
    5; 9; 14; 20; 5; 9; 14; 20; 5; 9; 14; 20; 5; 9; 14; 20;
    4; 11; 16; 23; 4; 11; 16; 23; 4; 11; 16; 23; 4; 11; 16; 23;
    6; 10; 15; 21; 6; 10; 15; 21; 6; 10; 15; 21; 6; 10; 15; 21 ].

Definition bytes_of_string (s : string) : list Z :=
  List.map (fun a => Z.of_N (N_of_ascii a)) (list_ascii_of_string s).

(* [n] as [count] little-endian bytes *)
Fixpoint le_bytes (count : nat) (n : Z) : list Z :=
  match count with
  | O => []
  | S c => (n mod 256) :: le_bytes c (n / 256)
  end.

Definition pad (msg : list Z) : list Z :=
  let len := Z.of_nat (length msg) in
  msg ++ [128] ++ List.repeat 0 (Z.to_nat ((55 - len) mod 64))
      ++ le_bytes 8 ((8 * len) mod 2 ^ 64).

Fixpoint words (fuel : nat) (bs : list Z) : list Z :=
  match fuel, bs with
  | S f, b0 :: b1 :: b2 :: b3 :: rest =>
      (b0 + 256 * (b1 + 256 * (b2 + 256 * b3))) :: words f rest
  | _, _ => []
  end.

Definition state : Type := Z * Z * Z * Z.

Definition init : state := (1732584193, 4023233417, 2562383102, 271733878).

Definition step (M : list Z) (st : state) (i : nat) : state :=
  let '(A, B, C, D) := st in
  let '(F, g) :=
    if Nat.ltb i 16 then
      (Z.lor (Z.land B C) (Z.land (not32 B) D), i)
    else if Nat.ltb i 32 then
      (Z.lor (Z.land D B) (Z.land (not32 D) C), Nat.modulo (5 * i + 1) 16)
    else if Nat.ltb i 48 then
      (Z.lxor (Z.lxor B C) D, Nat.modulo (3 * i + 5) 16)
    else
      (Z.lxor C (Z.lor B (not32 D)), Nat.modulo (7 * i) 16) in
  let F' := w32 (F + A + List.nth i K 0 + List.nth g M 0) in
  (D, w32 (B + rotl F' (List.nth i R 0)), B, C).

Definition block (st : state) (M : list Z) : state :=
  let '(A, B, C, D) := List.fold_left (step M) (List.seq 0 64) st in
  let '(a0, b0, c0, d0) := st in
  (w32 (a0 + A), w32 (b0 + B), w32 (c0 + C), w32 (d0 + D)).

Fixpoint blocks (fuel : nat) (st : state) (ws : list Z) : state :=
  match fuel, ws with
  | S f, _ :: _ => blocks f (block st (List.firstn 16 ws)) (List.skipn 16 ws)
  | _, _ => st
  end.

Definition digest (s : string) : list Z :=
  let bs := pad (bytes_of_string s) in
  let ws := words (length bs) bs in
  let '(A, B, C, D) := blocks (length ws) init ws in
  le_bytes 4 A ++ le_bytes 4 B ++ le_bytes 4 C ++ le_bytes 4 D.

Definition hex_digit (n : Z) : ascii :=
  List.nth (Z.to_nat n)
    (list_ascii_of_string "0123456789abcdef") "0"%char.

Fixpoint hex (bs : list Z) : string :=
  match bs with
  | [] => EmptyString
  | b :: rest => String (hex_digit (b / 16)) (String (hex_digit (b mod 16)) (hex rest))
  end.

Definition hexdigest (s : string) : string := hex (digest s).

End MD5.

Arguments MD5.hexdigest : simpl never.

(* --------------------------------------------------------------------- *)
(*  Data model                                                           *)
(* --------------------------------------------------------------------- *)

(* Values stored in a metadata dict. *)
Inductive pyval : Type :=
  | VNone
  | VStr (s : string)
  | VInt (z : Z)
  | VFloat (q : Q).

(* A metadata dict: string keys to scalar values. *)
Abbreviation dict := (gmap string pyval).

(* An element of a "documents" row: a str, or something that is not a str
   (for which [isinstance(doc, str)] is False). *)
Inductive document : Type :=
  | DStr (s : string)
  | DNone.

(* Scores and distances are Python floats.  Only their order matters here;
   a finite float is the rational number it denotes, and [<], [>=] on finite
   floats are the order of these rationals.  NaN, which every comparison
   rejects, is outside this model. *)
Abbreviation score := Q.

Definition Qltb (x y : Q) : bool := negb (Qle_bool y x).

(* A result set, the dict
     {"distances": [ds], "documents": [docs], "metadatas": [ms]}.
   Every reader takes index 0 of each entry and nothing else, and every
   writer builds a one-element outer list; the record holds row 0. *)
Record query_result : Type := QueryResult {
  distances : list score;
  documents : list document;
  metadatas : list dict
}.

(* One tuple of [combined]: (distance, document, metadata). *)
Abbreviation entry := (score * document * dict)%type.

Definition distance_of (e : entry) : score := e.1.1.
Definition document_of (e : entry) : document := e.1.2.
Definition metadata_of (e : entry) : dict := e.2.

(* zip(distances, documents, metadatas): stops at the shortest. *)
Fixpoint zip3 {A B C : Type} (xs : list A) (ys : list B) (zs : list C)
  : list (A * B * C) :=
  match xs, ys, zs with
  | x :: xs', y :: ys', z :: zs' => (x, y, z) :: zip3 xs' ys' zs'
  | _, _, _ => []
  end.

(* --------------------------------------------------------------------- *)
(*  Built-ins: list.sort(key=..., reverse=...), del l[k:], l[:n]          *)
(* --------------------------------------------------------------------- *)

Section Sorting.
Context {A : Type} (key : A -> score).

(* Insertion of [x] into a sorted prefix, to the right of every element
   that is not greater: the step of CPython's binary insertion sort, which
   compares with [<] only. *)
Fixpoint insert_right (x : A) (l : list A) : list A :=
  match l with
  | [] => [x]
  | y :: l' =>
      if Qltb (key x) (key y) then x :: y :: l' else y :: insert_right x l'
  end.

(* The stable ascending sort.  list.sort is stable, and on keys that are
   totally ordered every stable sort returns the same list; it is computed
   here by insertion from left to right. *)
Definition stable_sort (l : list A) : list A :=
  fold_left (fun acc x => insert_right x acc) l [].

(* list.sort(key=key, reverse=reverse): with reverse the list is reversed,
   sorted ascending and reversed again, which keeps equal keys in their
   original order. *)
Definition list_sort (reverse : bool) (l : list A) : list A :=
  if reverse then List.rev (stable_sort (List.rev l)) else stable_sort l.
End Sorting.

(* The start index of the slice [i:] or the stop index of [:i] in a list of
   length [len]: negative indices count from the end, and both are clamped. *)
Definition slice_index (i : Z) (len : nat) : nat :=
  if i <? 0 then Z.to_nat (Z.max 0 (Z.of_nat len + i))
  else Z.to_nat (Z.min i (Z.of_nat len)).

(* del l[k:] *)
Definition del_from {A : Type} (k : Z) (l : list A) : list A :=
  take (slice_index k (length l)) l.

(* l[:n] *)
Definition slice_to {A : Type} (n : Z) (l : list A) : list A :=
  take (slice_index n (length l)) l.

(* --------------------------------------------------------------------- *)
(*  merge_and_sort_query_results                                         *)
(* --------------------------------------------------------------------- *)

(* all(isinstance(doc, str) for doc in documents), with the strings. *)
Fixpoint all_str (docs : list document) : option (list string) :=
  match docs with
  | [] => Some []
  | DStr s :: rest => cons s <$> all_str rest
  | DNone :: _ => None
  end.

(* The loop state: (seen_hashes, combined). *)
Abbreviation merge_state := (gmap string bool * list entry)%type.

(* The body shared by both loops, for a document that is a str. *)
Definition visit (st : merge_state) (distance : score) (text : string)
    (meta : dict) : merge_state :=
  let doc_hash := MD5.hexdigest text in
  match st.1 !! doc_hash with
  | None => (<[doc_hash := true]> st.1, st.2 ++ [(distance, DStr text, meta)])
  | Some _ => st
  end.

Definition visit_str (st : merge_state) (t : score * string * dict)
  : merge_state :=
  visit st t.1.1 t.1.2 t.2.

(* The fallback loop tests isinstance(document, str) per tuple. *)
Definition visit_any (st : merge_state) (e : entry) : merge_state :=
  match document_of e with
  | DStr text => visit st (distance_of e) text (metadata_of e)
  | DNone => st
  end.

Definition merge_data (st : merge_state) (data : query_result) : merge_state :=
  match all_str (documents data) with
  | Some texts =>
      fold_left visit_str (zip3 (distances data) texts (metadatas data)) st
  | None =>
      fold_left visit_any
        (zip3 (distances data) (documents data) (metadatas data)) st
  end.

(* [combined] when the loop over query_results ends. *)
Definition merge_combined (query_results : list query_result) : list entry :=
  (fold_left merge_data query_results (∅, [])).2.

(* The three columns of [combined], as zip with the star operator gives. *)
Definition unzip3 (combined : list entry) : query_result :=
  {| distances := List.map distance_of combined;
     documents := List.map document_of combined;
     metadatas := List.map metadata_of combined |}.

Definition empty_result : query_result :=
  {| distances := []; documents := []; metadatas := [] |}.

(* estimated_capacity is used by the call of reserve only, which a list does
   not have: the first three statements leave [combined] empty. *)
Definition merge_and_sort_query_results
    (query_results : list query_result) (k : Z) (reverse : bool)
  : query_result :=
  match merge_combined query_results with
  | [] => empty_result
  | combined =>
      let combined := list_sort distance_of reverse combined in
      let combined := del_from k combined in
      match combined with
      | [] => empty_result
      | _ => unzip3 combined
      end
  end.

(* The tuples of the result, zipped back. *)
Definition result_rows (r : query_result) : list entry :=
  zip3 (distances r) (documents r) (metadatas r).


(* --------------------------------------------------------------------- *)
(*  RerankCompressor.compress_documents                                  *)
(* --------------------------------------------------------------------- *)

(* A langchain Document.  Its metadata is a dict object that the compressor
   updates in place, so the dicts live in a heap and a Document holds the
   address of its dict: two Documents may hold the same address. *)
Record Document : Type := mkDocument {
  page_content : string;
  metadata : nat
}.

Abbreviation heap := (list dict).

Definition heap_get (h : heap) (r : nat) : dict := default ∅ (h !! r).

(* metadata[key] = v, on the dict at address [r] *)
Definition setitem (h : heap) (r : nat) (key : string) (v : pyval) : heap :=
  <[r := <[key := v]> (heap_get h r)]> h.

(* Document(page_content=c, metadata=m): the pydantic model validates its
   fields, and validating a dict builds a new dict with the same items.  The
   new Document owns a fresh address. *)
Definition new_Document (h : heap) (c : string) (m : nat) : heap * Document :=
  (h ++ [heap_get h m], {| page_content := c; metadata := length h |}).

(* d.metadata.get("score") *)
Definition get_score (h : heap) (d : Document) : option pyval :=
  heap_get h (metadata d) !! "score"%string.

Record RerankCompressor {E : Type} : Type := mkRerankCompressor {
  embedding_function : E;
  top_n : Z;
  (* reranking_function.predict, None when no re-ranking model is set *)
  reranking_function : option (list (string * string) -> list score);
  r_score : score
}.
Arguments RerankCompressor : clear implicits.

(* bool(x) of a float *)
Definition float_truthy (x : score) : bool := negb (Qeq_bool x 0).

Section Compress.
Context {E : Type}.

(* util.cos_sim(embedding_function(query), embedding_function(texts))[0],
   as a list: the scores of the fallback scorer. *)
Variable cos_sim_row : E -> string -> list string -> list score.

(* scores.tolist() *)
Definition rerank_scores (self : RerankCompressor E)
    (documents : list Document) (query : string) : list score :=
  match reranking_function self with
  | Some predict =>
      predict (List.map (fun doc => (query, page_content doc)) documents)
  | None =>
      cos_sim_row (embedding_function self) query
        (List.map page_content documents)
  end.

(* docs_with_scores, after the threshold *)
Definition thresholded (self : RerankCompressor E)
    (documents : list Document) (query : string)
  : list (Document * score) :=
  let docs_with_scores := zip documents (rerank_scores self documents query) in
  if float_truthy (r_score self) then
    List.filter (fun ds => Qle_bool (r_score self) ds.2) docs_with_scores
  else docs_with_scores.

(* result[: self.top_n] *)
Definition ranked (self : RerankCompressor E)
    (documents : list Document) (query : string)
  : list (Document * score) :=
  let result := list_sort snd true (thresholded self documents query) in
  slice_to (top_n self) result.

(* The body of the final loop. *)
Definition emit (st : heap * list Document) (p : Document * score)
  : heap * list Document :=
  let m := metadata p.1 in
  let h := setitem st.1 m "score" (VFloat p.2) in
  let hd := new_Document h (page_content p.1) m in
  (hd.1, st.2 ++ [hd.2]).

(* The heap after the call, and final_results. *)
Definition compress_documents (self : RerankCompressor E) (h : heap)
    (documents : list Document) (query : string) : heap * list Document :=
  fold_left emit (ranked self documents query) (h, []).
End Compress.

(* --------------------------------------------------------------------- *)
(*  The fan-out over collections and queries                             *)
(* --------------------------------------------------------------------- *)

Inductive exn : Type :=
  | Exception (msg : string)
  | KeyError (key : string).

(* What a call does: return a value or raise. *)
Inductive outcome (A : Type) : Type :=
  | Returned (a : A)
  | Raised (e : exn).
Arguments Returned {A} a.
Arguments Raised {A} e.

Definition bind {A B : Type} (c : outcome A) (f : A -> outcome B) : outcome B :=
  match c with
  | Returned a => f a
  | Raised e => Raised e
  end.

Notation "'do' x <- c ; k" := (bind c (fun x => k))
  (at level 10, x name, c at level 100, k at level 200).

(* The collaborators behind the module globals VECTOR_DB and
   VECTOR_DB_CLIENT, and the retrieval pipeline that
   query_doc_with_hybrid_search runs (BM25 and vector retrievers, ensemble,
   compressor): each call returns or raises. *)
Record backend {V S F G : Type} : Type := mkBackend {
  VECTOR_DB : string;
  (* VECTOR_DB_CLIENT.search(collection_name, vectors=[v], limit) *)
  client_search : string -> V -> Z -> outcome (option query_result);
  (* VECTOR_DB_CLIENT.get(collection_name) *)
  client_get : string -> outcome (option S);
  (* the try body of query_doc_with_hybrid_search *)
  hybrid_pipeline :
    string -> S -> string -> F -> Z -> G -> Z -> score -> outcome query_result
}.
Arguments backend : clear implicits.

Definition hybrid_failed_message : string :=
  "Hybrid search failed for all collections. Using Non-hybrid search as fallback.".

Definition unavailable_message (collection_name : string) : string :=
  "Collection data for " +:+ collection_name +:+ " is unavailable.".

(* bool(s) of a str *)
Definition str_truthy (s : string) : bool :=
  match s with
  | EmptyString => false
  | _ => true
  end.

(* bool(l) of a list *)
Definition list_truthy {A : Type} (l : list A) : bool :=
  match l with
  | [] => false
  | _ => true
  end.

Section FanOut.
Context {V S F G : Type}.
Variable env : backend V S F G.

(* try: return search(...)  except Exception as e: log; raise e *)
Definition query_doc (collection_name : string) (query_embedding : V)
    (k : Z) : outcome (option query_result) :=
  match client_search env collection_name query_embedding k with
  | Returned result => Returned result
  | Raised e => Raised e
  end.

Definition query_doc_with_hybrid_search (collection_name : string)
    (collection_data : S) (query : string) (embedding_function : F) (k : Z)
    (reranking_function : G) (k_reranker : Z) (r : score)
  : outcome query_result :=
  match hybrid_pipeline env collection_name collection_data query
          embedding_function k reranking_function k_reranker r with
  | Returned result => Returned result
  | Raised e => Raised e
  end.

(* The choice of polarity at the end of both fan-outs. *)
Definition merge_for_backend (results : list query_result) (k : Z)
  : query_result :=
  if String.eqb (VECTOR_DB env) "chroma"
  then merge_and_sort_query_results results k false
  else merge_and_sort_query_results results k true.

(* ---- query_collection ---- *)

(* The inner loop, for one query embedding. *)
Definition query_collection_names (query_embedding : V) (k : Z)
    (results : list query_result) (collection_names : list string)
  : list query_result :=
  fold_left
    (fun results collection_name =>
       if str_truthy collection_name then
         match query_doc collection_name query_embedding k with
         | Returned (Some result) => results ++ [result]
         | Returned None => results
         | Raised _ => results
         end
       else results)
    collection_names results.

(* The outer loop: the embedding call is outside the try. *)
Fixpoint query_collection_queries (collection_names : list string)
    (embedding_function : string -> outcome V) (k : Z)
    (results : list query_result) (queries : list string)
  : outcome (list query_result) :=
  match queries with
  | [] => Returned results
  | query :: rest =>
      do query_embedding <- embedding_function query;
      query_collection_queries collection_names embedding_function k
        (query_collection_names query_embedding k results collection_names)
        rest
  end.

Definition query_collection (collection_names queries : list string)
    (embedding_function : string -> outcome V) (k : Z)
  : outcome query_result :=
  do results <- query_collection_queries collection_names
                  embedding_function k [] queries;
  Returned (merge_for_backend results k).

(* ---- query_collection_with_hybrid_search ---- *)

(* future_results: one future per collection name, kept as the outcome it
   will deliver. *)
Definition submit_gets (collection_names : list string)
  : gmap string (outcome (option S)) :=
  fold_left
    (fun futures collection_name =>
       <[collection_name := client_get env collection_name]> futures)
    collection_names ∅.

(* collection_data: the snapshot of each collection, None when the fetch
   raised. *)
Definition fetch_collection_data (collection_names : list string)
  : gmap string (option S) :=
  (fun future => match future with
                 | Returned data => data
                 | Raised _ => None
                 end) <$> submit_gets collection_names.

(* process_query returns the pair (result, error). *)
Definition process_query (collection_data : gmap string (option S))
    (embedding_function : F) (k : Z) (reranking_function : G)
    (k_reranker : Z) (r : score) (collection_name query : string)
  : option query_result * option exn :=
  match collection_data !! collection_name with
  | None => (None, Some (KeyError collection_name))
  | Some None =>
      (None, Some (Exception (unavailable_message collection_name)))
  | Some (Some data) =>
      match query_doc_with_hybrid_search collection_name data query
              embedding_function k reranking_function k_reranker r with
      | Returned result => (Some result, None)
      | Raised e => (None, Some e)
      end
  end.

(* [(collection_name, query) for collection_name in collection_names
                             for query in queries] *)
Definition tasks (collection_names queries : list string)
  : list (string * string) :=
  flat_map (fun collection_name => List.map (pair collection_name) queries)
    collection_names.

(* The loop over task_results, on the state (results, error). *)
Definition collect (st : list query_result * bool)
    (task_result : option query_result * option exn)
  : list query_result * bool :=
  match task_result.2 with
  | Some _ => (st.1, true)
  | None =>
      match task_result.1 with
      | Some result => (st.1 ++ [result], st.2)
      | None => st
      end
  end.

Definition query_collection_with_hybrid_search
    (collection_names queries : list string) (embedding_function : F)
    (k : Z) (reranking_function : G) (k_reranker : Z) (r : score)
  : outcome query_result :=
  let collection_data := fetch_collection_data collection_names in
  let task_results :=
    List.map
      (fun t => process_query collection_data embedding_function k
                  reranking_function k_reranker r t.1 t.2)
      (tasks collection_names queries) in
  let '(results, error) := fold_left collect task_results ([], false) in
  if error && negb (list_truthy results) then
    Raised (Exception hybrid_failed_message)
  else Returned (merge_for_backend results k).
End FanOut.

(* --------------------------------------------------------------------- *)
(*  The specification's vocabulary                                       *)
(* --------------------------------------------------------------------- *)

(* All (distance, document, metadata) tuples of the task result sets, in
   first-seen order. *)
Definition flattened (query_results : list query_result) : list entry :=
  flat_map result_rows query_results.

(* The content hash of a passage text; nothing for a non-text document. *)
Definition content_hash (e : entry) : option string :=
  match document_of e with
  | DStr text => Some (MD5.hexdigest text)
  | DNone => None
  end.

(* The passage text of a tuple. *)
Definition passage_text (e : entry) : option string :=
  match document_of e with
  | DStr text => Some text
  | DNone => None
  end.

(* Deduplication by content hash: the first occurrence wins, later ones
   are dropped. *)
Fixpoint first_seen (seen : list string) (l : list entry) : list entry :=
  match l with
  | [] => []
  | e :: rest =>
      match content_hash e with
      | Some h =>
          if bool_decide (h ∈ seen) then first_seen seen rest
          else e :: first_seen (h :: seen) rest
      | None => first_seen seen rest
      end
  end.

(* The dict seen_hashes holds exactly the hashes of the list [seen]. *)
Definition agree (seen_hashes : gmap string bool) (seen : list string) : Prop :=
  forall h : string, is_Some (seen_hashes !! h) <-> h ∈ seen.

(* The distinct content hashes, and the distinct passage texts, across all
   input task result sets. *)
Definition unique_hashes (query_results : list query_result) : list string :=
  remove_dups (omap content_hash (flattened query_results)).

Definition unique_texts (query_results : list query_result) : list string :=
  remove_dups (omap passage_text (flattened query_results)).

(* No two distinct passage texts of the inputs have the same MD5 digest. *)
Definition collision_free (query_results : list query_result) : Prop :=
  forall s t : string,
    s ∈ omap passage_text (flattened query_results) ->
    t ∈ omap passage_text (flattened query_results) ->
    MD5.hexdigest s = MD5.hexdigest t -> s = t.

(* score[i] >= score[i+1] under sort_descending, score[i] <= score[i+1]
   otherwise. *)
Definition in_order (sort_descending : bool) (x y : score) : Prop :=
  if sort_descending then (y <= x)%Q else (x <= y)%Q.

Definition adjacent_in_order {A : Type} (key : A -> score)
    (sort_descending : bool) (l : list A) : Prop :=
  forall (i : nat) (a b : A),
    l !! i = Some a -> l !! S i = Some b ->
    in_order sort_descending (key a) (key b).

(* The candidates of [l] whose score equals [s], in the order of [l]. *)
Definition with_score {A : Type} (key : A -> score) (s : score) (l : list A)
  : list A :=
  List.filter (fun a => Qeq_bool (key a) s) l.

(* [sorted] is the stable sort of [l] by score: the same candidates,
   adjacent pairs in order, ties in the order they have in [l]. *)
Definition stable_sort_of {A : Type} (key : A -> score)
    (sort_descending : bool) (l sorted : list A) : Prop :=
  Permutation l sorted
  /\ adjacent_in_order key sort_descending sorted
  /\ forall s : score, with_score key s sorted = with_score key s l.

Section FanOutSpec.
Context {V S F G : Type}.
Variable env : backend V S F G.

(* The snapshot of a collection, when its fetch returned one. *)
Definition snapshot_of (collection_name : string) : option S :=
  match client_get env collection_name with
  | Returned data => data
  | Raised _ => None
  end.

Definition snapshot_available (collection_name : string) : bool :=
  match snapshot_of collection_name with
  | Some _ => true
  | None => false
  end.

(* The result set of a hybrid task that succeeds; nothing when the task
   fails, at the fetch of its collection or in the retrieval. *)
Definition task_result (embedding_function : F) (k : Z)
    (reranking_function : G) (k_reranker : Z) (r : score)
    (task : string * string) : option query_result :=
  match snapshot_of task.1 with
  | Some data =>
      match hybrid_pipeline env task.1 data task.2 embedding_function k
              reranking_function k_reranker r with
      | Returned result => Some result
      | Raised _ => None
      end
  | None => None
  end.

Definition task_failed (embedding_function : F) (k : Z)
    (reranking_function : G) (k_reranker : Z) (r : score)
    (task : string * string) : bool :=
  match task_result embedding_function k reranking_function k_reranker r
          task with
  | Some _ => false
  | None => true
  end.

(* The result set of a dense search task that succeeds. *)
Definition search_result (query_embedding : V) (k : Z)
    (collection_name : string) : option query_result :=
  if str_truthy collection_name then
    match client_search env collection_name query_embedding k with
    | Returned (Some result) => Some result
    | Returned None => None
    | Raised _ => None
    end
  else None.

(* The result sets of the dense search tasks that succeed, query-major. *)
Definition search_results (collection_names queries : list string)
    (embedding_function : string -> outcome V) (k : Z)
  : list query_result :=
  flat_map
    (fun query =>
       match embedding_function query with
       | Returned query_embedding =>
           omap (search_result query_embedding k) collection_names
       | Raised _ => []
       end)
    queries.
End FanOutSpec.

(* --------------------------------------------------------------------- *)
(*  merge_get_results, get_doc, get_all_items_from_collections           *)
(* --------------------------------------------------------------------- *)

(* The dict of a GetResult,
     {"ids": [ids], "documents": [docs], "metadatas": [ms]},
   by its rows at index 0. *)
Module Get.
Record result : Type := mk {
  ids : list string;
  documents : list document;
  metadatas : list dict
}.
End Get.

(* The loop state: (combined_documents, combined_metadatas, combined_ids). *)
Definition extend_get
    (st : list document * list dict * list string) (data : Get.result)
  : list document * list dict * list string :=
  (st.1.1 ++ Get.documents data,
   st.1.2 ++ Get.metadatas data,
   st.2 ++ Get.ids data).

Definition merge_get_results (get_results : list Get.result) : Get.result :=
  let st := fold_left extend_get get_results ([], [], []) in
  {| Get.documents := st.1.1;
     Get.metadatas := st.1.2;
     Get.ids := st.2 |}.

Section GetAll.
Context {V F G : Type}.
Variable env : backend V Get.result F G.

(* try: return get(...)  except Exception as e: log; raise e *)
Definition get_doc (collection_name : string) : outcome (option Get.result) :=
  match client_get env collection_name with
  | Returned result => Returned result
  | Raised e => Raised e
  end.

Definition get_all_items_from_collections (collection_names : list string)
  : Get.result :=
  let results :=
    fold_left
      (fun results collection_name =>
         if str_truthy collection_name then
           match get_doc collection_name with
           | Returned (Some result) => results ++ [result]
           | Returned None => results
           | Raised _ => results
           end
         else results)
      collection_names [] in
  merge_get_results results.

(* The snapshot of a collection that the loop keeps. *)
Definition kept_snapshot (collection_name : string) : option Get.result :=
  if str_truthy collection_name then snapshot_of env collection_name
  else None.
End GetAll.

(* --------------------------------------------------------------------- *)
(*  The embedding functions                                              *)
(* --------------------------------------------------------------------- *)

(* Exceptions of the interpreter, next to those of the collaborators. *)
Inductive error : Type :=
  | ValueError (msg : string)
  | TypeError
  | IndexError
  | AttributeError
  | ValidationError
  | OtherError (e : exn).

Inductive attempt (A : Type) : Type :=
  | Done (a : A)
  | Failed (e : error).
Arguments Done {A} a.
Arguments Failed {A} e.

Record UserModel : Type := mkUser {
  user_name : string;
  user_id : string;
  user_email : string;
  user_role : string
}.

(* What requests.post is given. *)
Record request : Type := mkRequest {
  req_url : string;
  req_headers : list (string * string);
  req_input : list string;
  req_model : string
}.

Definition base_headers (key : string) : list (string * string) :=
  [ ("Content-Type", "application/json");
    ("Authorization", "Bearer " +:+ key) ]%string.

Definition user_headers (user : UserModel) : list (string * string) :=
  [ ("X-OpenWebUI-User-Name", user_name user);
    ("X-OpenWebUI-User-Id", user_id user);
    ("X-OpenWebUI-User-Email", user_email user);
    ("X-OpenWebUI-User-Role", user_role user) ]%string.

(* The argument of an embedding function: a str or a list of str. *)
Inductive query_arg : Type :=
  | QStr (s : string)
  | QList (l : list string).

(* What an embedding function returns: None, one embedding, or a list. *)
Inductive embedding_result (E : Type) : Type :=
  | RNone
  | ROne (e : E)
  | RMany (l : list E).
Arguments RNone {E}.
Arguments ROne {E} e.
Arguments RMany {E} l.

(* l[a:b] *)
Definition slice {A : Type} (l : list A) (a b : Z) : list A :=
  let start := slice_index a (length l) in
  let stop := slice_index b (length l) in
  take (stop - start) (drop start l).

(* list(range(0, stop, step)), for stop >= 0 *)
Definition range_from_zero (stop step : Z) : attempt (list Z) :=
  if step =? 0 then Failed (ValueError "range() arg 3 must not be zero")
  else if step <? 0 then Done []
  else Done (List.map (fun j => Z.of_nat j * step)
               (seq 0 (Z.to_nat ((stop + step - 1) / step)))).

Section Embeddings.
Context {E : Type}.

(* The constant of open_webui.env. *)
Variable ENABLE_FORWARD_USER_INFO_HEADERS : bool.

(* requests.post, r.raise_for_status(), r.json() and the reading of the
   embeddings out of the decoded answer: the call raises, or the answer has
   no embeddings field (None), or it has the embeddings. *)
Variable post : request -> outcome (option (list E)).

(* Every exception inside the try makes the function return None; raising
   the str "Something went wrong :/" is one of them. *)
Definition generate_openai_batch_embeddings (model : string)
    (texts : list string) (url key : string) (user : option UserModel)
  : option (list E) :=
  let headers :=
    base_headers key
    ++ match ENABLE_FORWARD_USER_INFO_HEADERS, user with
       | true, Some u => user_headers u
       | _, _ => []
       end in
  match post {| req_url := url +:+ "/embeddings";
                req_headers := headers;
                req_input := texts;
                req_model := model |} with
  | Returned (Some embeddings) => Some embeddings
  | Returned None => None
  | Raised _ => None
  end.

(* Here the user headers are built whenever forwarding is enabled: without
   a user, user.name raises inside the try, before the request. *)
Definition generate_ollama_batch_embeddings (model : string)
    (texts : list string) (url key : string) (user : option UserModel)
  : option (list E) :=
  let extra :=
    if ENABLE_FORWARD_USER_INFO_HEADERS then
      match user with
      | Some u => Some (user_headers u)
      | None => None
      end
    else Some [] in
  match extra with
  | None => None
  | Some more =>
      match post {| req_url := url +:+ "/api/embed";
                    req_headers := base_headers key ++ more;
                    req_input := texts;
                    req_model := model |} with
      | Returned (Some embeddings) => Some embeddings
      | Returned None => None
      | Raised _ => None
      end
  end.

(* generate_embeddings with a list as text: what the batch function
   returns; None for another engine. *)
Definition generate_embeddings_list (engine model : string)
    (text : list string) (url key : string) (user : option UserModel)
  : option (list E) :=
  if String.eqb engine "ollama" then
    generate_ollama_batch_embeddings model text url key user
  else if String.eqb engine "openai" then
    generate_openai_batch_embeddings model text url key user
  else None.

(* embeddings[0] *)
Definition first_embedding (embeddings : option (list E)) : attempt E :=
  match embeddings with
  | None => Failed TypeError
  | Some [] => Failed IndexError
  | Some (e :: _) => Done e
  end.

(* generate_embeddings with a str as text. *)
Definition generate_embeddings_str (engine model : string) (text : string)
    (url key : string) (user : option UserModel) : attempt (option E) :=
  if String.eqb engine "ollama" then
    match first_embedding
            (generate_ollama_batch_embeddings model [text] url key user) with
    | Done e => Done (Some e)
    | Failed err => Failed err
    end
  else if String.eqb engine "openai" then
    match first_embedding
            (generate_openai_batch_embeddings model [text] url key user) with
    | Done e => Done (Some e)
    | Failed err => Failed err
    end
  else Done None.

Definition generate_embeddings (engine model : string) (text : query_arg)
    (url key : string) (user : option UserModel)
  : attempt (embedding_result E) :=
  match text with
  | QStr s =>
      match generate_embeddings_str engine model s url key user with
      | Done (Some e) => Done (ROne e)
      | Done None => Done RNone
      | Failed err => Failed err
      end
  | QList l =>
      match generate_embeddings_list engine model l url key user with
      | Some embeddings => Done (RMany embeddings)
      | None => Done RNone
      end
  end.

(* The loop of generate_multiple over a list: embeddings.extend(None)
   raises TypeError. *)
Definition extend_batch (engine model url key : string)
    (user : option UserModel) (embedding_batch_size : Z)
    (query : list string) (st : attempt (list E)) (i : Z)
  : attempt (list E) :=
  match st with
  | Failed err => Failed err
  | Done embeddings =>
      match generate_embeddings_list engine model
              (slice query i (i + embedding_batch_size)) url key user with
      | Some batch => Done (embeddings ++ batch)
      | None => Failed TypeError
      end
  end.

Definition generate_multiple (engine model url key : string)
    (embedding_batch_size : Z) (query : query_arg) (user : option UserModel)
  : attempt (embedding_result E) :=
  match query with
  | QList l =>
      match range_from_zero (Z.of_nat (length l)) embedding_batch_size with
      | Failed err => Failed err
      | Done indices =>
          match fold_left
                  (extend_batch engine model url key user
                     embedding_batch_size l)
                  indices (Done []) with
          | Done embeddings => Done (RMany embeddings)
          | Failed err => Failed err
          end
      end
  | QStr _ => generate_embeddings engine model query url key user
  end.

(* embedding_function.encode(query).tolist() is the local model [encode]. *)
Definition get_embedding_function (embedding_engine embedding_model : string)
    (encode : query_arg -> attempt (embedding_result E))
    (url key : string) (embedding_batch_size : Z)
  : attempt (query_arg -> option UserModel -> attempt (embedding_result E)) :=
  if String.eqb embedding_engine "" then
    Done (fun query user => encode query)
  else if String.eqb embedding_engine "ollama"
          || String.eqb embedding_engine "openai" then
    Done (generate_multiple embedding_engine embedding_model url key
            embedding_batch_size)
  else
    Failed (ValueError ("Unknown embedding engine: " +:+ embedding_engine)).
End Embeddings.

(* The batches that the loop of generate_multiple sends, in order. *)
Definition batches {A : Type} (embedding_batch_size : Z) (query : list A)
  : list (list A) :=
  match range_from_zero (Z.of_nat (length query)) embedding_batch_size with
  | Done indices =>
      List.map (fun i => slice query i (i + embedding_batch_size)) indices
  | Failed _ => []
  end.

(* --------------------------------------------------------------------- *)
(*  get_model_path                                                       *)
(* --------------------------------------------------------------------- *)

(* model.count(c), for a one-character c *)
Fixpoint count_char (c : ascii) (s : string) : nat :=
  match s with
  | EmptyString => 0
  | String a rest =>
      if Ascii.eqb a c then S (count_char c rest) else count_char c rest
  end.

(* c in model, for a one-character c *)
Definition has_char (c : ascii) (s : string) : bool :=
  negb (Nat.eqb (count_char c s) 0).

Definition slash : ascii := "/"%char.
Definition backslash : ascii := "\"%char.

Section ModelPath.
(* The constant of open_webui.env and os.getenv("SENTENCE_TRANSFORMERS_HOME"). *)
Variable OFFLINE_MODE : bool.
Variable SENTENCE_TRANSFORMERS_HOME : option string.
(* os.path.exists *)
Variable path_exists : string -> bool.
(* snapshot_download(cache_dir=..., local_files_only=..., repo_id=...) *)
Variable snapshot_download : option string -> bool -> string -> outcome string.

Definition get_model_path (model : string) (update_model : bool) : string :=
  let cache_dir := SENTENCE_TRANSFORMERS_HOME in
  let local_files_only := negb update_model in
  let local_files_only := if OFFLINE_MODE then true else local_files_only in
  if path_exists model
     || ((has_char backslash model || Nat.ltb 1 (count_char slash model))
         && local_files_only)
  then model
  else
    let model :=
      if negb (has_char slash model)
      then ("sentence-transformers" +:+ "/" +:+ model)%string
      else model in
    match snapshot_download cache_dir local_files_only model with
    | Returned model_repo_path => model_repo_path
    | Raised _ => model
    end.
End ModelPath.

(* --------------------------------------------------------------------- *)
(*  VectorSearchRetriever and the dict of query_doc_with_hybrid_search   *)
(* --------------------------------------------------------------------- *)

(* A SearchResult, by its rows at index 0. *)
Module Search.
Record result : Type := mk {
  ids : list string;
  distances : list score;
  documents : list document;
  metadatas : list dict
}.
End Search.

(* Document(page_content=c, metadata=d) for a dict that is not in the heap:
   the new Document owns a copy of it. *)
Definition alloc_Document (h : heap) (c : string) (d : dict)
  : heap * Document :=
  (h ++ [d], {| page_content := c; metadata := length h |}).

Record VectorSearchRetriever {V : Type} : Type := mkVectorSearchRetriever {
  collection_name : string;
  retriever_embedding : string -> outcome V;
  top_k : Z
}.
Arguments VectorSearchRetriever : clear implicits.

Section Retriever.
Context {V : Type}.

(* VECTOR_DB_CLIENT.search(collection_name, vectors=[v], limit) *)
Variable search : string -> V -> Z -> outcome (option Search.result).

(* The body of the loop over range(len(ids)): the two subscripts, in the
   order of the keyword arguments, then the validation of page_content. *)
Definition append_document (result : Search.result)
    (st : attempt (heap * list Document)) (idx : nat)
  : attempt (heap * list Document) :=
  match st with
  | Failed err => Failed err
  | Done (h, results) =>
      match Search.metadatas result !! idx with
      | None => Failed IndexError
      | Some meta =>
          match Search.documents result !! idx with
          | None => Failed IndexError
          | Some DNone => Failed ValidationError
          | Some (DStr text) =>
              let hd := alloc_Document h text meta in
              Done (hd.1, results ++ [hd.2])
          end
      end
  end.

Definition get_relevant_documents (self : VectorSearchRetriever V) (h : heap)
    (query : string) : attempt (heap * list Document) :=
  match retriever_embedding self query with
  | Raised e => Failed (OtherError e)
  | Returned v =>
      match search (collection_name self) v (top_k self) with
      | Raised e => Failed (OtherError e)
      | Returned None => Failed AttributeError
      | Returned (Some result) =>
          fold_left (append_document result)
            (seq 0 (length (Search.ids result))) (Done (h, []))
      end
  end.
End Retriever.

(* The dict that query_doc_with_hybrid_search builds from the Documents
   that the compression retriever returned:
     {"distances": [[d.metadata.get("score") ...]],
      "documents": [[d.page_content ...]],
      "metadatas": [[d.metadata ...]]}. *)
Record hybrid_dict : Type := mkHybridDict {
  hybrid_distances : list (option pyval);
  hybrid_documents : list string;
  hybrid_metadatas : list dict
}.

Definition hybrid_result (h : heap) (collection_data : list Document)
  : hybrid_dict :=
  {| hybrid_distances := List.map (get_score h) collection_data;
     hybrid_documents := List.map page_content collection_data;
     hybrid_metadatas :=
       List.map (fun d => heap_get h (metadata d)) collection_data |}.

(* A result set of floats and texts, as such a dict. *)
Definition hybrid_of_query_result (r : query_result) : hybrid_dict :=
  {| hybrid_distances := List.map (fun s => Some (VFloat s)) (distances r);
     hybrid_documents :=
       omap (fun doc => match doc with
                        | DStr text => Some text
                        | DNone => None
                        end) (documents r);
     hybrid_metadatas := metadatas r |}.

(* --------------------------------------------------------------------- *)
(*  get_sources_from_files: the context of a file whose collections are  *)
(*  queried (the two try blocks after the set difference)                *)
(* --------------------------------------------------------------------- *)

(* What [context] can hold there. *)
Inductive context : Type :=
  | CtxText (content : string)
  | CtxItems (items : Get.result)
  | CtxResult (result : query_result).

Section RetrieveContext.
Context {V G : Type}.
(* The same embedding function goes to both fan-outs. *)
Variable env : backend V Get.result (string -> outcome V) G.

(* [file_type] is file.get("type") when it is a str, [file_content] is
   file["content"] when the key is there; [collection_names] is the set of
   the collections of the file that were not extracted before, in the order
   in which it is iterated.  None is the context that stays None, also when
   an exception was caught and logged. *)
Definition retrieve_context (file_type file_content : option string)
    (collection_names queries : list string)
    (embedding_function : string -> outcome V) (k : Z)
    (reranking_function : G) (k_reranker : Z) (r : score)
    (hybrid_search full_context : bool) : option context :=
  if full_context then
    Some (CtxItems (get_all_items_from_collections env collection_names))
  else if match file_type with
          | Some t => String.eqb t "text"
          | None => false
          end
  then
    match file_content with
    | Some content => Some (CtxText content)
    | None => None
    end
  else
    let context :=
      if hybrid_search then
        match query_collection_with_hybrid_search env collection_names
                queries embedding_function k reranking_function
                k_reranker r with
        | Returned result => Some result
        | Raised _ => None
        end
      else None in
    match negb hybrid_search, context with
    | false, Some result => Some (CtxResult result)
    | _, _ =>
        match query_collection env collection_names queries
                embedding_function k with
        | Returned result => Some (CtxResult result)
        | Raised _ => None
        end
    end.
End RetrieveContext.

(* --------------------------------------------------------------------- *)
(*  Sample inputs                                                        *)
(* --------------------------------------------------------------------- *)

(* One task result set in which the text "alpha" comes twice. *)
Definition sample_result : query_result :=
  {| distances := [3 # 10; 1 # 10; 2 # 10]%Q;
     documents := [DStr "alpha"; DStr "beta"; DStr "alpha"];
     metadatas := [ {[ "source" := VStr "a.txt" ]};
                    {[ "source" := VStr "b.txt" ]};
                    {[ "source" := VStr "c.txt" ]} ] |}.

(* Two different passage texts with the same MD5 digest. *)
Definition colliding_result : query_result :=
  {| distances := [1 # 10; 2 # 10]%Q;
     documents :=
       [DStr "TEXTCOLLBYfGiJUETHQ4hAcKSMd5zYpgqf1YRDhkmxHkhPWptrkoyz28wnI9V0aHeAuaKnak";
        DStr "TEXTCOLLBYfGiJUETHQ4hEcKSMd5zYpgqf1YRDhkmxHkhPWptrkoyz28wnI9V0aHeAuaKnak"];
     metadatas := [∅; ∅] |}.

(* A compressor whose re-ranking model scores three passages 0.9, 0.4 and
   0.6, in the order given. *)
Definition sample_compressor (top : Z) (r : score) : RerankCompressor unit :=
  {| embedding_function := tt;
     top_n := top;
     reranking_function := Some (fun _ => [9 # 10; 4 # 10; 6 # 10]%Q);
     r_score := r |}.

Definition no_cos_sim (_ : unit) (_ : string) (_ : list string) : list score :=
  [].

(* Three Documents, each with its own metadata dict. *)
Definition sample_heap : heap :=
  [ {[ "source" := VStr "a.txt" ]}; {[ "source" := VStr "b.txt" ]}; ∅ ].

Definition sample_documents : list Document :=
  [ mkDocument "first" 0; mkDocument "second" 1; mkDocument "third" 2 ].

(* The same Document object given three times. *)
Definition aliased_documents : list Document :=
  [ mkDocument "first" 0; mkDocument "first" 0; mkDocument "first" 0 ].

(* A backend with one searchable collection, "docs"; the snapshot of
   "broken" cannot be fetched, and every retrieval on another collection
   raises. *)
Definition sample_backend : backend unit unit unit unit :=
  {| VECTOR_DB := "chroma";
     client_search := fun collection_name _ _ =>
       if String.eqb collection_name "docs"
       then Returned (Some sample_result)
       else Raised (Exception "collection not found");
     client_get := fun collection_name =>
       if String.eqb collection_name "broken"
       then Raised (Exception "fetch failed")
       else Returned (Some tt);
     hybrid_pipeline := fun collection_name _ _ _ _ _ _ _ =>
       if String.eqb collection_name "docs"
       then Returned sample_result
       else Raised (Exception "retriever failed") |}.

Definition sample_embedding (query : string) : outcome unit := Returned tt.

(* Two candidates with the same score 0.7. *)
Definition tied_result : query_result :=
  {| distances := [7 # 10; 7 # 10]%Q;
     documents := [DStr "first"; DStr "second"];
     metadatas := [∅; ∅] |}.

(* A result set without a complete tuple. *)
Definition ragged_result : query_result :=
  {| distances := [];
     documents := [DStr "alone"];
     metadatas := [] |}.

(* The tuples of [sample_result], split over two result sets, with a
   document that is not a str between them. *)
Definition split_results : list query_result :=
  [ {| distances := [3 # 10; 5 # 10]%Q;
       documents := [DStr "alpha"; DNone];
       metadatas := [ {[ "source" := VStr "a.txt" ]}; ∅ ] |};
    {| distances := [1 # 10; 2 # 10]%Q;
       documents := [DStr "beta"; DStr "alpha"];
       metadatas := [ {[ "source" := VStr "b.txt" ]};
                      {[ "source" := VStr "c.txt" ]} ] |} ].

(* An embedding function that fails on the query "bad". *)
Definition failing_embedding (query : string) : outcome unit :=
  if String.eqb query "bad" then Raised (Exception "embedding failed")
  else Returned tt.

(* A backend whose collections "docs" and "notes" can be listed. *)
Definition listing_backend : backend unit Get.result unit unit :=
  {| VECTOR_DB := "chroma";
     client_search := fun _ _ _ => Returned None;
     client_get := fun collection_name =>
       if String.eqb collection_name "docs" then
         Returned (Some {| Get.ids := ["d1"; "d2"];
                           Get.documents := [DStr "alpha"; DStr "beta"];
                           Get.metadatas := [∅; ∅] |})
       else if String.eqb collection_name "notes" then
         Returned (Some {| Get.ids := ["n1"];
                           Get.documents := [DStr "alpha"];
                           Get.metadatas := [∅] |})
       else if String.eqb collection_name "void" then Returned None
       else Raised (Exception "collection not found");
     hybrid_pipeline := fun _ _ _ _ _ _ _ _ =>
       Raised (Exception "not used") |}.

(* A service that embeds every text by its length. *)
Definition length_service (req : request) : outcome (option (list nat)) :=
  Returned (Some (List.map String.length (req_input req))).

(* A service that is down. *)
Definition dead_service (req : request) : outcome (option (list nat)) :=
  Raised (Exception "connection refused").

Definition no_local_model (query : query_arg)
  : attempt (embedding_result nat) :=
  Done RNone.

(* A model hub that knows one repository. *)
Definition sample_hub (cache_dir : option string) (local_files_only : bool)
    (repo_id : string) : outcome string :=
  if String.eqb repo_id "sentence-transformers/all-MiniLM-L6-v2"
  then Returned "/cache/all-MiniLM-L6-v2"
  else Raised (Exception "repository not found").

Definition no_path (path : string) : bool := false.

(* A search that returns two hits for every query. *)
Definition sample_search (collection_name : string) (v : unit) (limit : Z)
  : outcome (option Search.result) :=
  Returned (Some {| Search.ids := ["id1"; "id2"];
                    Search.distances := [1 # 10; 2 # 10]%Q;
                    Search.documents := [DStr "alpha"; DStr "beta"];
                    Search.metadatas :=
                      [ {[ "source" := VStr "a.txt" ]}; ∅ ] |}).

Definition sample_retriever : VectorSearchRetriever unit :=
  {| collection_name := "docs";
     retriever_embedding := fun _ => Returned tt;
     top_k := 2 |}.

(* A backend on which the hybrid retrieval always raises and the dense
   search of "docs" works. *)
Definition fallback_backend
  : backend unit Get.result (string -> outcome unit) unit :=
  {| VECTOR_DB := "chroma";
     client_search := fun collection_name _ _ =>
       if String.eqb collection_name "docs"
       then Returned (Some sample_result)
       else Raised (Exception "collection not found");
     client_get := fun collection_name =>
       Returned (Some {| Get.ids := []; Get.documents := [];
                         Get.metadatas := [] |});
     hybrid_pipeline := fun _ _ _ _ _ _ _ _ =>
       Raised (Exception "retriever failed") |}.

(* --------------------------------------------------------------------- *)
(*  Further vocabulary                                                   *)
(* --------------------------------------------------------------------- *)

(* isinstance(document, str), on a tuple *)
Definition is_text (e : entry) : bool :=
  match document_of e with
  | DStr _ => true
  | DNone => false
  end.


(* The polarity that both fan-outs pass to the merger. *)
Definition backend_reverse {V S F G : Type} (env : backend V S F G) : bool :=
  negb (String.eqb (VECTOR_DB env) "chroma").

Section EmbeddingLoop.
Context {E : Type}.
Variable forward : bool.
Variable post : request -> outcome (option (list E)).

(* One pass of the loop, on the batch instead of its index. *)
Definition send_batch (engine model url key : string)
    (user : option UserModel) (st : attempt (list E)) (chunk : list string)
  : attempt (list E) :=
  match st with
  | Failed err => Failed err
  | Done embeddings =>
      match generate_embeddings_list forward post engine model chunk url key
              user with
      | Some batch => Done (embeddings ++ batch)
      | None => Failed TypeError
      end
  end.
End EmbeddingLoop.

(* The result set of the ranked candidates of the compressor: their scores,
   their texts, and their metadata with the score. *)
Definition ranked_result {E : Type}
    (cos_sim_row : E -> string -> list string -> list score)
    (self : RerankCompressor E) (h : heap) (documents : list Document)
    (query : string) : query_result :=
  {| distances := List.map snd (ranked cos_sim_row self documents query);
     documents :=
       List.map (fun p => DStr (page_content p.1))
         (ranked cos_sim_row self documents query);
     metadatas :=
       List.map
         (fun p => <["score"%string := VFloat p.2]>
                     (heap_get h (metadata p.1)))
         (ranked cos_sim_row self documents query) |}.
(* --------------------------------------------------------------------- *)
(*  The digest on known inputs                                           *)
(* --------------------------------------------------------------------- *)

Example md5_empty : MD5.hexdigest "" = "d41d8cd98f00b204e9800998ecf8427e"%string.
Proof. vm_compute. reflexivity. Qed.

Example md5_abc : MD5.hexdigest "abc" = "900150983cd24fb0d6963f7d28e17f72"%string.
Proof. vm_compute. reflexivity. Qed.

Example md5_md : MD5.hexdigest "message digest" = "f96b697d7cb7938d525a2f31aaf161d0"%string.
Proof. vm_compute. reflexivity. Qed.

Example md5_x56 :
  MD5.hexdigest "xxxxxxxxxxxxxxxxxxxxxxxxxxxxxxxxxxxxxxxxxxxxxxxxxxxxxxxx"
  = "668a72d5ba17f08e62dabcafad6db14b"%string.
Proof. vm_compute. reflexivity. Qed.

Example md5_collide :
  MD5.hexdigest "TEXTCOLLBYfGiJUETHQ4hAcKSMd5zYpgqf1YRDhkmxHkhPWptrkoyz28wnI9V0aHeAuaKnak"
  = MD5.hexdigest "TEXTCOLLBYfGiJUETHQ4hEcKSMd5zYpgqf1YRDhkmxHkhPWptrkoyz28wnI9V0aHeAuaKnak".
Proof. vm_compute. reflexivity. Qed.


(* --------------------------------------------------------------------- *)
(*  list.sort is a stable sort, in both polarities                       *)
(* --------------------------------------------------------------------- *)

Lemma Qltb_true (x y : Q) : Qltb x y = true <-> (x < y)%Q.
Proof.
  unfold Qltb. rewrite negb_true_iff. split.
  - intros H. apply Qnot_le_lt. intros Hle.
    apply Qle_bool_iff in Hle. congruence.
  - intros H. destruct (Qle_bool y x) eqn:E; [|reflexivity].
    apply Qle_bool_iff in E. exfalso. exact (Qlt_not_le _ _ H E).
Qed.

Lemma Qltb_false (x y : Q) : Qltb x y = false <-> (y <= x)%Q.
Proof.
  unfold Qltb. rewrite negb_false_iff. apply Qle_bool_iff.
Qed.

Lemma StronglySorted_snoc {A : Type} (R : A -> A -> Prop) (l : list A) (a : A) :
  StronglySorted R l -> Forall (fun z => R z a) l ->
  StronglySorted R (l ++ [a]).
Proof.
  induction 1 as [|y l Hl IH Hy]; intros Hall; simpl.
  - repeat constructor.
  - apply Forall_cons_1 in Hall as [Hya Hall].
    constructor; [auto|].
    apply Forall_app. split; [exact Hy|]. repeat constructor. exact Hya.
Qed.

Lemma StronglySorted_rev {A : Type} (R : A -> A -> Prop) (l : list A) :
  StronglySorted R l -> StronglySorted (fun a b => R b a) (List.rev l).
Proof.
  induction 1 as [|y l Hl IH Hy]; simpl.
  - constructor.
  - apply StronglySorted_snoc; [exact IH|].
    rewrite List.Forall_forall in *. intros z Hz. apply Hy.
    now apply in_rev.
Qed.

Lemma StronglySorted_adjacent {A : Type} (R : A -> A -> Prop) (l : list A) :
  StronglySorted R l ->
  forall (i : nat) (a b : A), l !! i = Some a -> l !! S i = Some b -> R a b.
Proof.
  induction 1 as [|y l Hl IH Hy]; intros i a b Ha Hb.
  - discriminate.
  - destruct i as [|i]; simpl in *.
    + injection Ha as <-. rewrite List.Forall_forall in Hy. apply Hy.
      apply list_elem_of_In. eapply list_elem_of_lookup_2. exact Hb.
    + eapply IH; eassumption.
Qed.

Section SortingFacts.
Context {A : Type} (key : A -> score).

Let le_key (a b : A) : Prop := (key a <= key b)%Q.

Lemma insert_right_perm (x : A) (l : list A) :
  Permutation (x :: l) (insert_right key x l).
Proof.
  induction l as [|y l IH]; simpl; [reflexivity|].
  destruct (Qltb (key x) (key y)); [reflexivity|].
  rewrite perm_swap. now apply perm_skip.
Qed.

Lemma insert_right_sorted (x : A) (l : list A) :
  StronglySorted le_key l -> StronglySorted le_key (insert_right key x l).
Proof.
  induction 1 as [|y l Hl IH Hy]; simpl.
  - repeat constructor.
  - destruct (Qltb (key x) (key y)) eqn:E.
    + apply Qltb_true in E.
      constructor; [constructor; assumption|].
      constructor; [apply Qlt_le_weak, E|].
      rewrite List.Forall_forall in *. intros z Hz.
      unfold le_key in *. specialize (Hy z Hz).
      apply Qlt_le_weak in E. eapply Qle_trans; eassumption.
    + apply Qltb_false in E.
      constructor; [exact IH|].
      eapply Permutation_Forall; [apply insert_right_perm|].
      constructor; assumption.
Qed.

Lemma fold_insert_right_perm (l acc : list A) :
  Permutation (acc ++ l)
    (fold_left (fun acc x => insert_right key x acc) l acc).
Proof.
  revert acc. induction l as [|x l IH]; intros acc; simpl.
  - now rewrite app_nil_r.
  - rewrite <- IH. rewrite <- insert_right_perm.
    simpl. symmetry. apply Permutation_middle.
Qed.

Lemma fold_insert_right_sorted (l acc : list A) :
  StronglySorted le_key acc ->
  StronglySorted le_key
    (fold_left (fun acc x => insert_right key x acc) l acc).
Proof.
  revert acc. induction l as [|x l IH]; intros acc Hacc; simpl.
  - exact Hacc.
  - apply IH. now apply insert_right_sorted.
Qed.

Lemma with_score_app (s : score) (l1 l2 : list A) :
  with_score key s (l1 ++ l2) = with_score key s l1 ++ with_score key s l2.
Proof. apply List.filter_app. Qed.

(* Nothing above a strictly greater head has the score of [x]. *)
Lemma with_score_above (x : A) (l : list A) :
  Forall (fun z => (key x < key z)%Q) l -> with_score key (key x) l = [].
Proof.
  induction 1 as [|z l Hz _ IH]; simpl; [reflexivity|].
  destruct (Qeq_bool (key z) (key x)) eqn:E; [|exact IH].
  apply Qeq_bool_iff in E. rewrite E in Hz.
  exfalso. exact (Qlt_irrefl _ Hz).
Qed.

Lemma with_score_same (s t : score) (l : list A) :
  (s == t)%Q -> with_score key s l = with_score key t l.
Proof.
  intros Hst. apply List.filter_ext. intros a.
  destruct (Qeq_bool (key a) s) eqn:E1, (Qeq_bool (key a) t) eqn:E2;
    try reflexivity.
  - apply Qeq_bool_iff in E1.
    assert (E3 : Qeq_bool (key a) t = true)
      by (apply Qeq_bool_iff; rewrite E1; exact Hst).
    congruence.
  - apply Qeq_bool_iff in E2.
    assert (E3 : Qeq_bool (key a) s = true)
      by (apply Qeq_bool_iff; rewrite E2; symmetry; exact Hst).
    congruence.
Qed.

Lemma with_score_insert_right (s : score) (x : A) (l : list A) :
  StronglySorted le_key l ->
  with_score key s (insert_right key x l)
  = with_score key s l ++ with_score key s [x].
Proof.
  induction 1 as [|y l Hl IH Hy]; [reflexivity|].
  cbn [insert_right].
  destruct (Qltb (key x) (key y)) eqn:E.
  - apply Qltb_true in E.
    change (x :: y :: l) with ([x] ++ (y :: l)).
    rewrite with_score_app.
    destruct (Qeq_bool (key x) s) eqn:Exs.
    + assert (Hnone : with_score key s (y :: l) = []).
      { rewrite (with_score_same s (key x))
          by (symmetry; apply Qeq_bool_iff; exact Exs).
        apply with_score_above. constructor; [exact E|].
        rewrite List.Forall_forall in *. intros z Hz.
        specialize (Hy z Hz). unfold le_key in Hy.
        eapply Qlt_le_trans; eassumption. }
      rewrite Hnone. now rewrite app_nil_r.
    + assert (Hx : with_score key s [x] = [])
        by (unfold with_score; simpl; now rewrite Exs).
      rewrite Hx. now rewrite app_nil_r.
  - change (y :: insert_right key x l) with ([y] ++ insert_right key x l).
    change (y :: l) with ([y] ++ l).
    rewrite !with_score_app, IH. now rewrite app_assoc.
Qed.

Lemma with_score_fold_insert_right (s : score) (l acc : list A) :
  StronglySorted le_key acc ->
  with_score key s (fold_left (fun acc x => insert_right key x acc) l acc)
  = with_score key s acc ++ with_score key s l.
Proof.
  revert acc. induction l as [|x l IH]; intros acc Hacc; cbn [fold_left].
  - now rewrite app_nil_r.
  - rewrite IH by now apply insert_right_sorted.
    rewrite with_score_insert_right by exact Hacc.
    change (x :: l) with ([x] ++ l). rewrite with_score_app.
    now rewrite app_assoc.
Qed.

Lemma stable_sort_perm (l : list A) : Permutation l (stable_sort key l).
Proof. apply (fold_insert_right_perm l []). Qed.

Lemma stable_sort_sorted (l : list A) :
  StronglySorted le_key (stable_sort key l).
Proof. apply fold_insert_right_sorted. constructor. Qed.

Lemma with_score_stable_sort (s : score) (l : list A) :
  with_score key s (stable_sort key l) = with_score key s l.
Proof. apply (with_score_fold_insert_right s l []). constructor. Qed.

Lemma list_sort_perm (reverse : bool) (l : list A) :
  Permutation l (list_sort key reverse l).
Proof.
  destruct reverse; simpl.
  - rewrite <- Permutation_rev. rewrite <- stable_sort_perm.
    apply Permutation_rev.
  - apply stable_sort_perm.
Qed.

Lemma list_sort_adjacent (reverse : bool) (l : list A) :
  adjacent_in_order key reverse (list_sort key reverse l).
Proof.
  intros i a b Ha Hb. destruct reverse; simpl in *.
  - exact (StronglySorted_adjacent _ _
             (StronglySorted_rev _ _ (stable_sort_sorted (List.rev l)))
             i a b Ha Hb).
  - exact (StronglySorted_adjacent _ _ (stable_sort_sorted l) i a b Ha Hb).
Qed.

Lemma with_score_list_sort (reverse : bool) (s : score) (l : list A) :
  with_score key s (list_sort key reverse l) = with_score key s l.
Proof.
  destruct reverse; simpl.
  - unfold with_score. rewrite List.filter_rev.
    fold (with_score key s (stable_sort key (List.rev l))).
    rewrite with_score_stable_sort. unfold with_score.
    rewrite List.filter_rev. apply rev_involutive.
  - apply with_score_stable_sort.
Qed.

(* list.sort computes the stable sort of the specification. *)
Lemma list_sort_stable (reverse : bool) (l : list A) :
  stable_sort_of key reverse l (list_sort key reverse l).
Proof.
  split; [apply list_sort_perm|].
  split; [apply list_sort_adjacent|].
  intros s. apply with_score_list_sort.
Qed.

Lemma list_sort_nil (reverse : bool) : list_sort key reverse [] = [].
Proof. now destruct reverse. Qed.

Lemma list_sort_length (reverse : bool) (l : list A) :
  length (list_sort key reverse l) = length l.
Proof. symmetry. apply Permutation_length, list_sort_perm. Qed.
End SortingFacts.

(* --------------------------------------------------------------------- *)
(*  Slices                                                               *)
(* --------------------------------------------------------------------- *)

Lemma slice_index_nonneg (k : Z) (len : nat) :
  0 <= k -> slice_index k len = Nat.min (Z.to_nat k) len.
Proof.
  intros Hk. unfold slice_index.
  destruct (Z.ltb_spec k 0); lia.
Qed.

Lemma slice_index_le (k : Z) (len : nat) : (slice_index k len <= len)%nat.
Proof.
  unfold slice_index. destruct (Z.ltb_spec k 0); lia.
Qed.

Lemma del_from_nonneg {A : Type} (k : Z) (l : list A) :
  0 <= k -> del_from k l = take (Z.to_nat k) l.
Proof.
  intros Hk. unfold del_from. rewrite slice_index_nonneg by exact Hk.
  destruct (Nat.le_ge_cases (Z.to_nat k) (length l)) as [Hle|Hge].
  - now rewrite Nat.min_l.
  - rewrite Nat.min_r by exact Hge.
    now rewrite !firstn_all2 by lia.
Qed.

Lemma del_from_length {A : Type} (k : Z) (l : list A) :
  0 <= k -> Z.of_nat (length (del_from k l)) = Z.min k (Z.of_nat (length l)).
Proof.
  intros Hk. rewrite del_from_nonneg by exact Hk.
  rewrite length_take. lia.
Qed.

Lemma del_from_all {A : Type} (k : Z) (l : list A) :
  Z.of_nat (length l) <= k -> del_from k l = l.
Proof.
  intros Hk. rewrite del_from_nonneg by lia.
  apply firstn_all2. lia.
Qed.

Lemma del_from_nil {A : Type} (k : Z) : del_from k (@nil A) = [].
Proof. unfold del_from. now rewrite take_nil. Qed.

Lemma take_adjacent {A : Type} (key : A -> score) (r : bool) (n : nat)
    (l : list A) :
  adjacent_in_order key r l -> adjacent_in_order key r (take n l).
Proof.
  intros Hl i a b Ha Hb.
  apply lookup_take_Some in Ha as [Ha _].
  apply lookup_take_Some in Hb as [Hb _].
  exact (Hl i a b Ha Hb).
Qed.

Lemma with_score_take_prefix {A : Type} (key : A -> score) (s : score)
    (n : nat) (l : list A) :
  with_score key s (take n l) `prefix_of` with_score key s l.
Proof.
  exists (with_score key s (drop n l)).
  rewrite <- with_score_app. now rewrite take_drop.
Qed.

(* --------------------------------------------------------------------- *)
(*  The loop of the merger computes the first-seen deduplication         *)
(* --------------------------------------------------------------------- *)

Lemma first_seen_ext (seen1 seen2 : list string) (l : list entry) :
  (forall h, h ∈ seen1 <-> h ∈ seen2) ->
  first_seen seen1 l = first_seen seen2 l.
Proof.
  revert seen1 seen2. induction l as [|e l IH]; intros seen1 seen2 H; simpl.
  - reflexivity.
  - destruct (content_hash e) as [h|]; [|now apply IH].
    rewrite (bool_decide_ext _ _ (H h)).
    destruct (bool_decide (h ∈ seen2)); [now apply IH|].
    f_equal. apply IH. intros h'. rewrite !elem_of_cons, H. reflexivity.
Qed.

Lemma first_seen_elem (seen : list string) (l : list entry) (e : entry) :
  e ∈ first_seen seen l ->
  exists h, content_hash e = Some h /\ (h ∉ seen) /\ e ∈ l.
Proof.
  revert seen. induction l as [|a l IH]; intros seen He; simpl in He.
  - now apply elem_of_nil in He.
  - destruct (content_hash a) as [h|] eqn:Ea.
    + case_bool_decide as Hin.
      * destruct (IH _ He) as (h' & ? & ? & ?).
        exists h'. repeat split; auto. now right.
      * apply elem_of_cons in He as [->|He].
        -- exists h. repeat split; auto. now left.
        -- destruct (IH _ He) as (h' & ? & Hn & ?).
           exists h'. repeat split; auto.
           ++ intros Hs. apply Hn. now right.
           ++ now right.
    + destruct (IH _ He) as (h' & ? & ? & ?).
      exists h'. repeat split; auto. now right.
Qed.

Lemma first_seen_hash_fresh (seen : list string) (l : list entry) (h : string) :
  h ∈ omap content_hash (first_seen seen l) -> (h ∉ seen) /\ h ∈ omap content_hash l.
Proof.
  intros Hh. apply list_elem_of_omap in Hh as (e & He & Hhash).
  destruct (first_seen_elem _ _ _ He) as (h' & Hh' & Hn & Hl).
  assert (h' = h) as -> by congruence.
  split; [exact Hn|]. apply list_elem_of_omap. eauto.
Qed.

Lemma first_seen_hashes_NoDup (seen : list string) (l : list entry) :
  NoDup (omap content_hash (first_seen seen l)).
Proof.
  revert seen. induction l as [|a l IH]; intros seen; simpl.
  - constructor.
  - destruct (content_hash a) as [h|] eqn:Ea; [|apply IH].
    case_bool_decide as Hin; [apply IH|].
    simpl. rewrite Ea. apply NoDup_cons. split; [|apply IH].
    intros Hh. apply first_seen_hash_fresh in Hh as [Hn _].
    apply Hn. now left.
Qed.

Lemma first_seen_hashes_length (seen : list string) (l : list entry) :
  length (omap content_hash (first_seen seen l)) = length (first_seen seen l).
Proof.
  revert seen. induction l as [|a l IH]; intros seen; simpl.
  - reflexivity.
  - destruct (content_hash a) as [h|] eqn:Ea; [|apply IH].
    case_bool_decide as Hin; [apply IH|].
    simpl. rewrite Ea. simpl. now rewrite IH.
Qed.

Lemma first_seen_covers (seen : list string) (l : list entry) (h : string) :
  h ∈ omap content_hash l ->
  h ∈ seen \/ h ∈ omap content_hash (first_seen seen l).
Proof.
  revert seen. induction l as [|a l IH]; intros seen Hh; simpl in *.
  - now apply elem_of_nil in Hh.
  - destruct (content_hash a) as [h0|] eqn:Ea.
    + apply elem_of_cons in Hh as [->|Hh].
      * case_bool_decide as Hin; [now left|].
        right. simpl. rewrite Ea. now left.
      * case_bool_decide as Hin; [now apply IH|].
        destruct (IH (h0 :: seen) Hh) as [Hs|Hs].
        -- apply elem_of_cons in Hs as [->|Hs]; [|now left].
           right. simpl. rewrite Ea. now left.
        -- right. simpl. rewrite Ea. now right.
    + now apply IH.
Qed.

Lemma first_seen_all_seen (seen : list string) (l : list entry) :
  (forall h, h ∈ omap content_hash l -> h ∈ seen) -> first_seen seen l = [].
Proof.
  induction l as [|a l IH]; intros H; simpl in *; [reflexivity|].
  destruct (content_hash a) as [h|] eqn:Ea.
  - rewrite bool_decide_eq_true_2 by (apply H; now left).
    apply IH. intros h' Hh'. apply H. now right.
  - now apply IH.
Qed.

Lemma first_seen_app (seen : list string) (l1 l2 : list entry) :
  first_seen seen (l1 ++ l2)
  = first_seen seen l1
    ++ first_seen (omap content_hash (first_seen seen l1) ++ seen) l2.
Proof.
  revert seen. induction l1 as [|a l1 IH]; intros seen; simpl.
  - reflexivity.
  - destruct (content_hash a) as [h|] eqn:Ea; [|apply IH].
    case_bool_decide as Hin; [apply IH|].
    simpl. rewrite Ea. f_equal. rewrite IH. f_equal.
    apply first_seen_ext. intros h'.
    rewrite !elem_of_app, !elem_of_cons. tauto.
Qed.

(* Merging the same candidates twice adds nothing. *)
Lemma first_seen_twice (l : list entry) :
  first_seen [] (l ++ l) = first_seen [] l.
Proof.
  rewrite first_seen_app.
  rewrite (first_seen_all_seen
             (omap content_hash (first_seen [] l) ++ []) l);
    [now rewrite app_nil_r|].
  intros h Hh. rewrite app_nil_r.
  destruct (first_seen_covers [] l h Hh) as [Hs|Hs]; [|exact Hs].
  now apply elem_of_nil in Hs.
Qed.

(* Every kept tuple is the first one of the input with its content hash. *)
Lemma first_seen_first (seen : list string) (l : list entry) (e : entry) :
  e ∈ first_seen seen l ->
  exists i : nat,
    l !! i = Some e
    /\ forall (j : nat) (e' : entry),
         (j < i)%nat -> l !! j = Some e' -> content_hash e' <> content_hash e.
Proof.
  revert seen. induction l as [|a l IH]; intros seen He; simpl in He.
  - now apply elem_of_nil in He.
  - assert (Hstep : forall seen', e ∈ first_seen seen' l ->
              content_hash a <> content_hash e ->
              exists i, (a :: l) !! i = Some e
                /\ forall j e', (j < i)%nat -> (a :: l) !! j = Some e' ->
                     content_hash e' <> content_hash e).
    { intros seen' He' Hne. destruct (IH _ He') as (i & Hi & Hfirst).
      exists (S i). split; [exact Hi|].
      intros [|j] e' Hj He''; simpl in He''.
      - injection He'' as <-. exact Hne.
      - apply (Hfirst j); [lia|exact He'']. }
    destruct (content_hash a) as [h|] eqn:Ea.
    + case_bool_decide as Hin.
      * apply (Hstep _ He).
        destruct (first_seen_elem _ _ _ He) as (h' & -> & Hn & _).
        intros [= ->]. contradiction.
      * apply elem_of_cons in He as [->|He].
        -- exists 0%nat. split; [reflexivity|]. intros j e' Hj. lia.
        -- apply (Hstep _ He).
           destruct (first_seen_elem _ _ _ He) as (h' & -> & Hn & _).
           intros [= ->]. apply Hn. now left.
    + apply (Hstep _ He).
      destruct (first_seen_elem _ _ _ He) as (h' & -> & _ & _).
      discriminate.
Qed.

(* The first tuple with a fresh content hash is kept. *)
Lemma first_seen_keeps (seen : list string) (l : list entry) (i : nat)
    (e : entry) (h : string) :
  l !! i = Some e -> content_hash e = Some h -> h ∉ seen ->
  (forall (j : nat) (e' : entry),
     (j < i)%nat -> l !! j = Some e' -> content_hash e' <> Some h) ->
  e ∈ first_seen seen l.
Proof.
  revert seen i. induction l as [|a l IH]; intros seen i Hi Hh Hn Hfirst.
  - discriminate.
  - destruct i as [|i]; simpl in *.
    + injection Hi as ->. rewrite Hh.
      rewrite bool_decide_eq_false_2 by exact Hn. now left.
    + assert (Ha : content_hash a <> Some h)
        by (apply (Hfirst 0%nat); [lia|reflexivity]).
      assert (Hrest : forall j e', (j < i)%nat -> l !! j = Some e' ->
                content_hash e' <> Some h).
      { intros j e' Hj He'. apply (Hfirst (S j)); [lia|exact He']. }
      destruct (content_hash a) as [h0|] eqn:Ea.
      * case_bool_decide as Hin.
        -- eapply IH; eauto.
        -- right. eapply IH; eauto.
           intros Hs. apply elem_of_cons in Hs as [->|Hs]; [|contradiction].
           now apply Ha.
      * eapply IH; eauto.
Qed.

Lemma first_seen_count (l : list entry) :
  length (first_seen [] l) = length (remove_dups (omap content_hash l)).
Proof.
  rewrite <- first_seen_hashes_length.
  apply Permutation_length, NoDup_Permutation.
  - apply first_seen_hashes_NoDup.
  - apply NoDup_remove_dups.
  - intros h. rewrite elem_of_remove_dups. split.
    + intros Hh. now apply first_seen_hash_fresh in Hh as [_ ?].
    + intros Hh. destruct (first_seen_covers [] l h Hh) as [Hs|Hs];
        [now apply elem_of_nil in Hs | exact Hs].
Qed.

(* ---- the loops ---- *)

Lemma visit_any_step (e : entry) (st : merge_state) (seen : list string) :
  agree st.1 seen ->
  (visit_any st e).2 = st.2 ++ first_seen seen [e]
  /\ agree (visit_any st e).1
       (omap content_hash (first_seen seen [e]) ++ seen).
Proof.
  intros Hag. destruct e as [[d doc] m].
  destruct doc as [text|];
    cbn [visit_any content_hash first_seen document_of distance_of
         metadata_of fst snd omap list_omap];
    [|now rewrite app_nil_r].
  unfold visit.
  destruct (st.1 !! MD5.hexdigest text) as [b|] eqn:Elook.
  - rewrite bool_decide_eq_true_2 by (apply Hag; rewrite Elook; eauto).
    now rewrite app_nil_r.
  - assert (Hn : MD5.hexdigest text ∉ seen).
    { intros Hin. apply Hag in Hin as [b Hb]. congruence. }
    rewrite bool_decide_eq_false_2 by exact Hn.
    split; [reflexivity|].
    intros h. cbn. rewrite elem_of_cons.
    destruct (decide (MD5.hexdigest text = h)) as [<-|Hne].
    + rewrite lookup_insert_eq. split; eauto.
    + rewrite lookup_insert_ne by exact Hne. rewrite (Hag h).
      split; [now right|]. intros [->|?]; [contradiction|assumption].
Qed.

Lemma visit_any_fold (l : list entry) (st : merge_state) (seen : list string) :
  agree st.1 seen ->
  (fold_left visit_any l st).2 = st.2 ++ first_seen seen l
  /\ agree (fold_left visit_any l st).1
       (omap content_hash (first_seen seen l) ++ seen).
Proof.
  revert st seen. induction l as [|e l IH]; intros st seen Hag.
  - simpl. rewrite app_nil_r. split; [reflexivity|exact Hag].
  - destruct (visit_any_step e st seen Hag) as [H1 H2].
    destruct (IH _ _ H2) as [IH1 IH2].
    change (e :: l) with ([e] ++ l). rewrite first_seen_app.
    cbn [fold_left app]. split.
    + rewrite IH1, H1. now rewrite <- app_assoc.
    + intros h. rewrite (IH2 h).
      rewrite omap_app, !elem_of_app. tauto.
Qed.

Lemma visit_str_fold (ds : list score) (docs : list document)
    (ms : list dict) (texts : list string) (st : merge_state) :
  all_str docs = Some texts ->
  fold_left visit_str (zip3 ds texts ms) st
  = fold_left visit_any (zip3 ds docs ms) st.
Proof.
  revert ds ms texts st.
  induction docs as [|doc docs IH]; intros ds ms texts st Hall; simpl in Hall.
  - injection Hall as <-. destruct ds; reflexivity.
  - destruct doc as [text|]; [|discriminate].
    destruct (all_str docs) as [texts'|] eqn:E; [|discriminate].
    injection Hall as <-.
    destruct ds as [|d ds]; [reflexivity|].
    destruct ms as [|m ms]; [reflexivity|].
    simpl. apply IH. reflexivity.
Qed.

Lemma merge_data_rows (st : merge_state) (data : query_result) :
  merge_data st data = fold_left visit_any (result_rows data) st.
Proof.
  unfold merge_data, result_rows.
  destruct (all_str (documents data)) as [texts|] eqn:E; [|reflexivity].
  now apply visit_str_fold.
Qed.

Lemma merge_fold (query_results : list query_result) (st : merge_state) :
  fold_left merge_data query_results st
  = fold_left visit_any (flattened query_results) st.
Proof.
  revert st. induction query_results as [|data rest IH]; intros st; simpl.
  - reflexivity.
  - unfold flattened. simpl. rewrite fold_left_app.
    rewrite IH, merge_data_rows. reflexivity.
Qed.

Lemma merge_combined_first_seen (query_results : list query_result) :
  merge_combined query_results = first_seen [] (flattened query_results).
Proof.
  unfold merge_combined. rewrite merge_fold.
  destruct (visit_any_fold (flattened query_results) (∅, []) []) as [H _].
  - intros h. simpl. rewrite lookup_empty. split.
    + intros [? ?]. discriminate.
    + intros Hin. now apply elem_of_nil in Hin.
  - exact H.
Qed.

(* --------------------------------------------------------------------- *)
(*  merge_and_sort_query_results: what the result holds                  *)
(* --------------------------------------------------------------------- *)

Lemma result_rows_unzip3 (combined : list entry) :
  result_rows (unzip3 combined) = combined.
Proof.
  unfold result_rows, unzip3. simpl.
  induction combined as [|[[d doc] m] l IH]; simpl; [reflexivity|].
  now rewrite IH.
Qed.

(* The result is the three columns of the truncated sorted [combined]. *)
Lemma merge_unzip3 (query_results : list query_result) (k : Z) (reverse : bool) :
  merge_and_sort_query_results query_results k reverse
  = unzip3 (del_from k (list_sort distance_of reverse
                          (first_seen [] (flattened query_results)))).
Proof.
  unfold merge_and_sort_query_results.
  rewrite merge_combined_first_seen.
  destruct (first_seen [] (flattened query_results)) as [|e l] eqn:E.
  - rewrite list_sort_nil, del_from_nil. reflexivity.
  - destruct (del_from k (list_sort distance_of reverse (e :: l)));
      reflexivity.
Qed.

Lemma merge_rows (query_results : list query_result) (k : Z) (reverse : bool) :
  result_rows (merge_and_sort_query_results query_results k reverse)
  = del_from k (list_sort distance_of reverse
                  (first_seen [] (flattened query_results))).
Proof. rewrite merge_unzip3. apply result_rows_unzip3. Qed.

Lemma merge_documents (query_results : list query_result) (k : Z)
    (reverse : bool) :
  documents (merge_and_sort_query_results query_results k reverse)
  = List.map document_of
      (result_rows (merge_and_sort_query_results query_results k reverse)).
Proof. rewrite merge_rows, merge_unzip3. reflexivity. Qed.

Lemma merge_lengths (query_results : list query_result) (k : Z)
    (reverse : bool) :
  length (distances (merge_and_sort_query_results query_results k reverse))
  = length (documents (merge_and_sort_query_results query_results k reverse))
  /\ length (metadatas (merge_and_sort_query_results query_results k reverse))
     = length (documents (merge_and_sort_query_results query_results k reverse)).
Proof.
  rewrite merge_unzip3. unfold unzip3. simpl.
  now rewrite !length_map.
Qed.

Lemma merge_rows_subset (query_results : list query_result) (k : Z)
    (reverse : bool) (e : entry) :
  e ∈ result_rows (merge_and_sort_query_results query_results k reverse) ->
  e ∈ first_seen [] (flattened query_results).
Proof.
  rewrite merge_rows. unfold del_from. intros He.
  apply subseteq_take in He.
  rewrite <- (list_sort_perm distance_of reverse) in He. exact He.
Qed.

Lemma content_hash_document (e e' : entry) :
  document_of e' = document_of e -> content_hash e' = content_hash e.
Proof. unfold content_hash. now intros ->. Qed.

Lemma content_hash_text (e : entry) :
  content_hash e = MD5.hexdigest <$> passage_text e.
Proof. unfold content_hash, passage_text. now destruct (document_of e). Qed.

Lemma first_seen_map_hash (seen : list string) (l : list entry) :
  List.map content_hash (first_seen seen l)
  = Some <$> omap content_hash (first_seen seen l).
Proof.
  revert seen. induction l as [|a l IH]; intros seen; simpl.
  - reflexivity.
  - destruct (content_hash a) as [h|] eqn:Ea; [|apply IH].
    case_bool_decide as Hin; [apply IH|].
    simpl. rewrite Ea. simpl. now rewrite IH.
Qed.

Lemma merge_rows_hashes_NoDup (query_results : list query_result) (k : Z)
    (reverse : bool) :
  NoDup (List.map content_hash
           (result_rows (merge_and_sort_query_results query_results k reverse))).
Proof.
  rewrite merge_rows. unfold del_from.
  rewrite <- firstn_map.
  eapply sublist_NoDup; [|apply sublist_take].
  rewrite <- (Permutation_map content_hash
                (list_sort_perm distance_of reverse _)).
  rewrite first_seen_map_hash. apply NoDup_fmap_2; [apply _|].
  apply first_seen_hashes_NoDup.
Qed.

Lemma unique_hashes_length (query_results : list query_result) :
  length (first_seen [] (flattened query_results))
  = length (unique_hashes query_results).
Proof. apply first_seen_count. Qed.

Lemma omap_content_hash (l : list entry) :
  omap content_hash l = MD5.hexdigest <$> omap passage_text l.
Proof.
  induction l as [|[[d doc] m] l IH]; [reflexivity|].
  destruct doc as [text|].
  - change (MD5.hexdigest text :: omap content_hash l
            = MD5.hexdigest text :: (MD5.hexdigest <$> omap passage_text l)).
    now rewrite IH.
  - exact IH.
Qed.

(* Without a collision there are as many hashes as texts. *)
Lemma collision_free_count (query_results : list query_result) :
  collision_free query_results ->
  length (unique_hashes query_results) = length (unique_texts query_results).
Proof.
  intros Hfree. unfold unique_hashes, unique_texts.
  rewrite omap_content_hash.
  set (texts := omap passage_text (flattened query_results)).
  rewrite <- (length_fmap MD5.hexdigest (remove_dups texts)).
  apply Permutation_length, NoDup_Permutation.
  - apply NoDup_remove_dups.
  - apply NoDup_fmap_2_strong; [|apply NoDup_remove_dups].
    intros s t Hs Ht. apply Hfree; now apply elem_of_remove_dups.
  - intros h. rewrite elem_of_remove_dups, !list_elem_of_fmap.
    split; intros (s & -> & Hs); exists s; split; auto;
      now apply elem_of_remove_dups.
Qed.

(* --------------------------------------------------------------------- *)
(*  The merger: the stated properties                                    *)
(* --------------------------------------------------------------------- *)

(** C1: every passage text in the output of merge_and_sort_query_results is
    unique, by the content hash of the text; every tuple of the output is the
    first-seen occurrence of its text in the flattened inputs, with the
    distance and metadata of that occurrence, so that no later duplicate
    appears; and when nothing is truncated the first-seen occurrence of every
    content hash is in the output. *)
Theorem merge_unique_first_seen (query_results : list query_result) (k : Z)
    (reverse : bool) :
  NoDup (documents (merge_and_sort_query_results query_results k reverse))
  /\ NoDup (List.map content_hash
             (result_rows
                (merge_and_sort_query_results query_results k reverse)))
  /\ (forall e : entry,
        e ∈ result_rows (merge_and_sort_query_results query_results k reverse) ->
        (exists text : string, document_of e = DStr text)
        /\ exists i : nat,
             flattened query_results !! i = Some e
             /\ forall (j : nat) (e' : entry),
                  (j < i)%nat -> flattened query_results !! j = Some e' ->
                  document_of e' <> document_of e)
  /\ (Z.of_nat (length (unique_hashes query_results)) <= k ->
      forall (i : nat) (e : entry),
        flattened query_results !! i = Some e ->
        is_Some (passage_text e) ->
        (forall (j : nat) (e' : entry),
           (j < i)%nat -> flattened query_results !! j = Some e' ->
           content_hash e' <> content_hash e) ->
        e ∈ result_rows (merge_and_sort_query_results query_results k reverse)).
Proof.
  pose proof (merge_rows_hashes_NoDup query_results k reverse) as Hhash.
  split; [|split; [exact Hhash|split]].
  - rewrite merge_documents.
    apply (NoDup_fmap_1
             (fun doc => match doc with
                         | DStr text => Some (MD5.hexdigest text)
                         | DNone => None
                         end)).
    rewrite <- list_fmap_compose. exact Hhash.
  - intros e He. apply merge_rows_subset in He.
    destruct (first_seen_elem _ _ _ He) as (h & Hh & _ & _).
    split.
    + unfold content_hash in Hh. destruct (document_of e) as [text|];
        [eauto|discriminate].
    + destruct (first_seen_first _ _ _ He) as (i & Hi & Hfirst).
      exists i. split; [exact Hi|].
      intros j e' Hj He' Hdoc.
      apply (Hfirst j e' Hj He'). now apply content_hash_document.
  - intros Hk i e Hi [text Htext] Hfirst.
    rewrite merge_rows, del_from_all
      by (rewrite list_sort_length, unique_hashes_length; exact Hk).
    rewrite <- (list_sort_perm distance_of reverse).
    assert (Hh : content_hash e = Some (MD5.hexdigest text))
      by (rewrite content_hash_text, Htext; reflexivity).
    eapply first_seen_keeps; [exact Hi|exact Hh|apply not_elem_of_nil|].
    intros j e' Hj He'. rewrite <- Hh. exact (Hfirst j e' Hj He').
Qed.

(* Against C2 as it is stated: with k = 1 and two candidates the output has
   one tuple, so it is not the stable sort of the two deduplicated
   candidates. *)
Lemma merge_not_whole_sort :
  ~ stable_sort_of distance_of false
      (first_seen [] (flattened [sample_result]))
      (result_rows (merge_and_sort_query_results [sample_result] 1 false)).
Proof.
  intros [Hperm _]. apply Permutation_length in Hperm.
  vm_compute in Hperm. discriminate.
Qed.

(** C2, amended: the output sequence is exactly what [del combined[k:]]
    keeps (the first k entries, for k >= 0) of the stable sort by score of
    the deduplicated first-seen flattened sequence under the polarity flag:
    every adjacent pair of the output satisfies score[i] >= score[i+1] with
    reverse=True and score[i] <= score[i+1] with reverse=False, and
    candidates with equal scores appear in their first-seen order. *)
Theorem merge_sorted_prefix (query_results : list query_result) (k : Z)
    (reverse : bool) :
  exists sorted : list entry,
    stable_sort_of distance_of reverse
      (first_seen [] (flattened query_results)) sorted
    /\ result_rows (merge_and_sort_query_results query_results k reverse)
       = del_from k sorted
    /\ (0 <= k ->
        result_rows (merge_and_sort_query_results query_results k reverse)
        = take (Z.to_nat k) sorted)
    /\ adjacent_in_order distance_of reverse
         (result_rows (merge_and_sort_query_results query_results k reverse))
    /\ forall s : score,
         with_score distance_of s
           (result_rows (merge_and_sort_query_results query_results k reverse))
         `prefix_of`
         with_score distance_of s (first_seen [] (flattened query_results)).
Proof.
  exists (list_sort distance_of reverse
            (first_seen [] (flattened query_results))).
  rewrite merge_rows.
  split; [apply list_sort_stable|].
  split; [reflexivity|].
  split; [intros Hk; now apply del_from_nonneg|].
  split.
  - apply take_adjacent, list_sort_adjacent.
  - intros s.
    rewrite <- (with_score_list_sort distance_of reverse s
                  (first_seen [] (flattened query_results))).
    apply with_score_take_prefix.
Qed.

(* Against C3 as it is stated: for k = -1 the output of two unique passages
   has one entry, not min(-1, 2); and for k = 2 two different passage texts
   with the same MD5 digest give one entry, not min(2, 2). *)
Lemma merge_length_not_min :
  Z.of_nat (length (documents
              (merge_and_sort_query_results [sample_result] (-1) false)))
  <> Z.min (-1) (Z.of_nat (length (unique_texts [sample_result])))
  /\ Z.of_nat (length (documents
                 (merge_and_sort_query_results [colliding_result] 2 false)))
     <> Z.min 2 (Z.of_nat (length (unique_texts [colliding_result]))).
Proof. split; vm_compute; discriminate. Qed.

(** C3, amended: for all k >= 0, the length of the merged output equals
    min(k, number of distinct content hashes of the passage texts across all
    input task result sets), the three output sequences having that same
    length; the number of distinct content hashes is the number of unique
    passage texts whenever no two of them have the same MD5 digest. *)
Theorem merge_length_bounded (query_results : list query_result) (k : Z)
    (reverse : bool) :
  0 <= k ->
  Z.of_nat (length (documents
              (merge_and_sort_query_results query_results k reverse)))
  = Z.min k (Z.of_nat (length (unique_hashes query_results)))
  /\ length (distances (merge_and_sort_query_results query_results k reverse))
     = length (documents (merge_and_sort_query_results query_results k reverse))
  /\ length (metadatas (merge_and_sort_query_results query_results k reverse))
     = length (documents (merge_and_sort_query_results query_results k reverse))
  /\ (collision_free query_results ->
      length (unique_hashes query_results)
      = length (unique_texts query_results)).
Proof.
  intros Hk.
  split; [|split; [apply merge_lengths|split;
                    [apply merge_lengths|apply collision_free_count]]].
  rewrite merge_documents, length_map, merge_rows.
  rewrite del_from_length by exact Hk.
  now rewrite list_sort_length, unique_hashes_length.
Qed.

Lemma merge_length_bounded_witness :
  0 <= 1
  /\ collision_free [sample_result]
  /\ Z.of_nat (length (documents
                 (merge_and_sort_query_results [sample_result] 1 true)))
     = Z.min 1 (Z.of_nat (length (unique_texts [sample_result]))).
Proof.
  assert (Hfree : collision_free [sample_result]).
  { intros s t Hs Ht Heq.
    change (s ∈ ["alpha"; "beta"; "alpha"]%string) in Hs.
    change (t ∈ ["alpha"; "beta"; "alpha"]%string) in Ht.
    repeat (apply elem_of_cons in Hs as [->|Hs]);
      [| | |now apply elem_of_nil in Hs];
      (repeat (apply elem_of_cons in Ht as [->|Ht]);
       [| | |now apply elem_of_nil in Ht]);
      try reflexivity; vm_compute in Heq; discriminate. }
  split; [lia|]. split; [exact Hfree|].
  destruct (merge_length_bounded [sample_result] 1 true) as (Hlen & _ & _ & Hcount);
    [lia|].
  rewrite Hlen, (Hcount Hfree). reflexivity.
Defined.

(** C8: merging is idempotent under duplication of the input: for every
    list R of task result sets, every k and every polarity flag,
    merge_and_sort_query_results on R ++ R gives exactly the output it gives
    on R. *)
Theorem merge_duplicated_input (query_results : list query_result) (k : Z)
    (reverse : bool) :
  merge_and_sort_query_results (query_results ++ query_results) k reverse
  = merge_and_sort_query_results query_results k reverse.
Proof.
  rewrite !merge_unzip3. unfold flattened.
  rewrite flat_map_app.
  fold (flattened query_results).
  now rewrite first_seen_twice.
Qed.

(** C9: on the empty list of task result sets, and on inputs that hold no
    candidate, merge_and_sort_query_results returns the well-formed empty
    result: a value with empty sequences for distances, documents and
    metadatas. *)
Theorem merge_empty_input (k : Z) (reverse : bool) :
  merge_and_sort_query_results [] k reverse
  = {| distances := []; documents := []; metadatas := [] |}
  /\ forall query_results : list query_result,
       flattened query_results = [] ->
       merge_and_sort_query_results query_results k reverse
       = {| distances := []; documents := []; metadatas := [] |}.
Proof.
  split; [reflexivity|].
  intros query_results Hnone.
  rewrite merge_unzip3, Hnone. simpl.
  now rewrite list_sort_nil, del_from_nil.
Qed.

(* --------------------------------------------------------------------- *)
(*  compress_documents: the final loop on the heap                       *)
(* --------------------------------------------------------------------- *)

Lemma setitem_length (h : heap) (r : nat) (key : string) (v : pyval) :
  length (setitem h r key v) = length h.
Proof. apply length_insert. Qed.

Lemma emit_heap_length (st : heap * list Document) (p : Document * score) :
  length (emit st p).1 = S (length st.1).
Proof.
  unfold emit, new_Document. cbn [fst snd].
  rewrite length_app, setitem_length. simpl. lia.
Qed.

(* The Document that [emit] appends sits at the first free address and its
   dict has the score. *)
Lemma emit_new_document (st : heap * list Document) (p : Document * score) :
  (metadata p.1 < length st.1)%nat ->
  exists doc : Document,
    (emit st p).2 = st.2 ++ [doc]
    /\ page_content doc = page_content p.1
    /\ metadata doc = length st.1
    /\ get_score (emit st p).1 doc = Some (VFloat p.2).
Proof.
  intros Hvalid. eexists. split; [reflexivity|].
  unfold emit, new_Document, get_score, heap_get. cbn [fst snd page_content metadata].
  rewrite setitem_length.
  split; [reflexivity|]. split; [reflexivity|].
  rewrite lookup_app_r by (rewrite setitem_length; lia).
  rewrite setitem_length, Nat.sub_diag. cbn [lookup list_lookup default].
  unfold setitem. rewrite list_lookup_insert_eq by exact Hvalid.
  cbn [default]. apply lookup_insert_eq.
Qed.

(* [emit] writes below the addresses handed out before. *)
Lemma emit_keeps (st : heap * list Document) (p : Document * score) (a : nat) :
  (metadata p.1 < a)%nat -> (a < length st.1)%nat ->
  (emit st p).1 !! a = st.1 !! a.
Proof.
  intros Hlow Ha. unfold emit, new_Document. cbn [fst snd].
  rewrite lookup_app_l by (rewrite setitem_length; exact Ha).
  unfold setitem. apply list_lookup_insert_ne. lia.
Qed.

Lemma emit_fold (rs : list (Document * score)) (n0 : nat) :
  Forall (fun p => (metadata p.1 < n0)%nat) rs ->
  forall (h : heap) (acc : list Document),
    (n0 <= length h)%nat ->
    exists outs : list Document,
      (fold_left emit rs (h, acc)).2 = acc ++ outs
      /\ length (fold_left emit rs (h, acc)).1 = (length h + length rs)%nat
      /\ (forall a : nat, (n0 <= a < length h)%nat ->
            (fold_left emit rs (h, acc)).1 !! a = h !! a)
      /\ Forall2
           (fun doc p =>
              page_content doc = page_content p.1
              /\ (length h <= metadata doc)%nat
              /\ get_score (fold_left emit rs (h, acc)).1 doc
                 = Some (VFloat p.2))
           outs rs.
Proof.
  induction 1 as [|p rs Hp Hrs IH]; intros h acc Hn0.
  - exists []. simpl. rewrite app_nil_r.
    repeat split; [lia|constructor].
  - destruct (emit_new_document (h, acc) p) as (doc & Hout & Hpc & Haddr & Hsc).
    { simpl. lia. }
    cbn [fold_left].
    pose proof (emit_heap_length (h, acc) p) as Hlen. cbn [fst] in Hlen.
    destruct (IH (emit (h, acc) p).1 (emit (h, acc) p).2) as
      (outs & Houts & Hlen' & Hkeep & Hall); [lia|].
    rewrite <- surjective_pairing in Houts, Hlen', Hkeep, Hall.
    exists (doc :: outs). split; [|split; [|split]].
    + rewrite Houts, Hout. cbn [snd]. now rewrite <- app_assoc.
    + rewrite Hlen', Hlen. simpl. lia.
    + intros a Ha. rewrite Hkeep by lia.
      apply emit_keeps; simpl; lia.
    + constructor.
      * split; [exact Hpc|]. cbn [fst] in Haddr. split; [lia|].
        unfold get_score, heap_get in *.
        rewrite Hkeep by (cbn [fst] in *; lia). exact Hsc.
      * eapply Forall2_impl; [exact Hall|].
        intros d q (H1 & H2 & H3). repeat split; auto. lia.
Qed.

Lemma emit_fold_contents (rs : list (Document * score)) (h : heap)
    (acc : list Document) :
  List.map page_content (fold_left emit rs (h, acc)).2
  = List.map page_content acc ++ List.map (fun p => page_content p.1) rs.
Proof.
  revert h acc. induction rs as [|p rs IH]; intros h acc; simpl.
  - now rewrite app_nil_r.
  - unfold emit at 2. cbn [fst snd]. unfold new_Document. cbn [fst snd].
    rewrite IH, map_app. simpl. now rewrite <- app_assoc.
Qed.

Section CompressFacts.
Context {E : Type} (cos_sim_row : E -> string -> list string -> list score).

Lemma ranked_subset (self : RerankCompressor E) (documents : list Document)
    (query : string) (p : Document * score) :
  p ∈ ranked cos_sim_row self documents query ->
  p ∈ thresholded cos_sim_row self documents query.
Proof.
  unfold ranked, slice_to. intros Hp. apply subseteq_take in Hp.
  now rewrite <- (list_sort_perm snd true) in Hp.
Qed.

Lemma thresholded_subset (self : RerankCompressor E)
    (documents : list Document) (query : string) (p : Document * score) :
  p ∈ thresholded cos_sim_row self documents query ->
  p ∈ zip documents (rerank_scores cos_sim_row self documents query).
Proof.
  unfold thresholded. destruct (float_truthy (r_score self)); [|auto].
  intros Hp. apply list_elem_of_In, filter_In in Hp as [Hp _].
  now apply list_elem_of_In.
Qed.

Lemma thresholded_above (self : RerankCompressor E)
    (documents : list Document) (query : string) (p : Document * score) :
  ~ (r_score self == 0)%Q ->
  p ∈ thresholded cos_sim_row self documents query ->
  (r_score self <= p.2)%Q.
Proof.
  intros Hr. unfold thresholded, float_truthy.
  destruct (Qeq_bool (r_score self) 0) eqn:E0.
  - apply Qeq_bool_iff in E0. contradiction.
  - simpl. intros Hp. apply list_elem_of_In, filter_In in Hp as [_ Hp].
    now apply Qle_bool_iff.
Qed.

Lemma ranked_sorted (self : RerankCompressor E) (documents : list Document)
    (query : string) :
  adjacent_in_order snd true (ranked cos_sim_row self documents query).
Proof. apply take_adjacent, list_sort_adjacent. Qed.

Lemma ranked_length (self : RerankCompressor E) (documents : list Document)
    (query : string) :
  0 <= top_n self ->
  Z.of_nat (length (ranked cos_sim_row self documents query)) <= top_n self.
Proof.
  intros Htop. unfold ranked.
  change (slice_to (top_n self)) with (@del_from (Document * score) (top_n self)).
  rewrite del_from_length by exact Htop. lia.
Qed.
End CompressFacts.

(* --------------------------------------------------------------------- *)
(*  compress_documents: the stated properties                            *)
(* --------------------------------------------------------------------- *)

Section CompressClaims.
Context {E : Type} (cos_sim_row : E -> string -> list string -> list score).

Lemma ranked_valid (self : RerankCompressor E) (h : heap)
    (documents : list Document) (query : string) :
  Forall (fun doc => (metadata doc < length h)%nat) documents ->
  Forall (fun p => (metadata p.1 < length h)%nat)
    (ranked cos_sim_row self documents query).
Proof.
  intros Hvalid. apply Forall_forall. intros [doc s] Hp.
  apply ranked_subset, thresholded_subset in Hp.
  apply elem_of_zip_l in Hp. simpl.
  rewrite Forall_forall in Hvalid. now apply Hvalid.
Qed.

Lemma compress_scored (self : RerankCompressor E) (h : heap)
    (documents : list Document) (query : string) :
  Forall (fun doc => (metadata doc < length h)%nat) documents ->
  Forall2
    (fun doc p =>
       page_content doc = page_content p.1
       /\ get_score (compress_documents cos_sim_row self h documents query).1
            doc = Some (VFloat p.2))
    (compress_documents cos_sim_row self h documents query).2
    (ranked cos_sim_row self documents query).
Proof.
  intros Hvalid. unfold compress_documents.
  destruct (emit_fold (ranked cos_sim_row self documents query) (length h)
              (ranked_valid self h documents query Hvalid) h [])
    as (outs & Houts & _ & _ & Hall); [lia|].
  rewrite Houts. simpl.
  eapply Forall2_impl; [exact Hall|].
  intros doc p (H1 & _ & H3). split; assumption.
Qed.

(** C6: when the threshold r_score is nonzero, the loop that builds the
    output runs over the candidates that pass [s >= r_score], sorted and
    truncated after the filter: every candidate of the output has a score
    that is not below r_score, and no candidate scored below r_score is in
    it.  With r_score = 0.5 and the scores [0.9, 0.4, 0.6] for three
    documents the output holds the documents scored 0.9 and 0.6, in that
    order (as far as top_n reaches). *)
Theorem compress_threshold_filter (self : RerankCompressor E) (h : heap)
    (documents : list Document) (query : string) :
  ~ (r_score self == 0)%Q ->
  ranked cos_sim_row self documents query
  = slice_to (top_n self)
      (list_sort snd true
         (List.filter (fun ds => Qle_bool (r_score self) ds.2)
            (zip documents
               (rerank_scores cos_sim_row self documents query))))
  /\ List.map page_content
       (compress_documents cos_sim_row self h documents query).2
     = List.map (fun p => page_content p.1)
         (ranked cos_sim_row self documents query)
  /\ (forall p : Document * score,
        p ∈ ranked cos_sim_row self documents query ->
        (r_score self <= p.2)%Q)
  /\ (forall p : Document * score,
        p ∈ zip documents (rerank_scores cos_sim_row self documents query) ->
        (p.2 < r_score self)%Q ->
        p ∉ ranked cos_sim_row self documents query)
  /\ (Forall (fun doc => (metadata doc < length h)%nat) documents ->
      Forall
        (fun doc =>
           exists s : score,
             get_score
               (compress_documents cos_sim_row self h documents query).1 doc
             = Some (VFloat s)
             /\ (r_score self <= s)%Q)
        (compress_documents cos_sim_row self h documents query).2)
  /\ (forall d1 d2 d3 : Document,
        documents = [d1; d2; d3] ->
        r_score self = (1 # 2)%Q ->
        rerank_scores cos_sim_row self documents query
        = [9 # 10; 4 # 10; 6 # 10]%Q ->
        ranked cos_sim_row self documents query
        = slice_to (top_n self) [(d1, 9 # 10); (d3, 6 # 10)]%Q
        /\ (2 <= top_n self ->
            List.map page_content
              (compress_documents cos_sim_row self h documents query).2
            = [page_content d1; page_content d3])).
Proof.
  intros Hr.
  assert (Hranked :
    ranked cos_sim_row self documents query
    = slice_to (top_n self)
        (list_sort snd true
           (List.filter (fun ds => Qle_bool (r_score self) ds.2)
              (zip documents
                 (rerank_scores cos_sim_row self documents query))))).
  { unfold ranked, thresholded, float_truthy.
    destruct (Qeq_bool (r_score self) 0) eqn:E0; [|reflexivity].
    apply Qeq_bool_iff in E0. contradiction. }
  assert (Hcontents :
    List.map page_content
      (compress_documents cos_sim_row self h documents query).2
    = List.map (fun p => page_content p.1)
        (ranked cos_sim_row self documents query)).
  { unfold compress_documents. now rewrite emit_fold_contents. }
  assert (Habove : forall p : Document * score,
            p ∈ ranked cos_sim_row self documents query ->
            (r_score self <= p.2)%Q).
  { intros p Hp. apply (thresholded_above cos_sim_row self documents query);
      [exact Hr|]. now apply ranked_subset. }
  split; [exact Hranked|]. split; [exact Hcontents|].
  split; [exact Habove|]. split; [|split].
  - intros p _ Hlow Hp. apply Habove in Hp.
    exact (Qlt_not_le _ _ Hlow Hp).
  - intros Hvalid.
    pose proof (compress_scored self h documents query Hvalid) as Hall.
    apply Forall_forall. intros doc Hdoc.
    apply list_elem_of_lookup in Hdoc as [i Hi].
    destruct (Forall2_lookup_l _ _ _ _ _ Hall Hi) as (p & Hp & _ & Hsc).
    exists p.2. split; [exact Hsc|].
    apply Habove. apply list_elem_of_lookup. eauto.
  - intros d1 d2 d3 Hdocs Hhalf Hscores.
    assert (Hex : ranked cos_sim_row self documents query
                  = slice_to (top_n self) [(d1, 9 # 10); (d3, 6 # 10)]%Q).
    { rewrite Hranked, Hscores, Hdocs, Hhalf. reflexivity. }
    split; [exact Hex|].
    intros Htop. rewrite Hcontents, Hex.
    unfold slice_to, slice_index.
    destruct (Z.ltb_spec (top_n self) 0) as [?|_]; [lia|].
    replace (Z.to_nat (Z.min (top_n self) (Z.of_nat (length [(d1, (9 # 10)%Q); (d3, (6 # 10)%Q)]))))
      with 2%nat by (simpl length; lia).
    reflexivity.
Qed.

(** C7, amended: for every input document sequence (each Document holding
    the address of a dict of the heap), compress_documents returns a list
    sorted by score in descending order, each entry of which is one of the
    scored input candidates and carries its score in its metadata under
    the key "score"; the list has at most top_n entries when top_n >= 0. *)
Theorem compress_sorted_scored (self : RerankCompressor E) (h : heap)
    (documents : list Document) (query : string) :
  Forall (fun doc => (metadata doc < length h)%nat) documents ->
  Forall2
    (fun doc p =>
       page_content doc = page_content p.1
       /\ get_score (compress_documents cos_sim_row self h documents query).1
            doc = Some (VFloat p.2))
    (compress_documents cos_sim_row self h documents query).2
    (ranked cos_sim_row self documents query)
  /\ (forall p : Document * score,
        p ∈ ranked cos_sim_row self documents query ->
        p ∈ zip documents (rerank_scores cos_sim_row self documents query))
  /\ adjacent_in_order snd true (ranked cos_sim_row self documents query)
  /\ (0 <= top_n self ->
      Z.of_nat
        (length (compress_documents cos_sim_row self h documents query).2)
      <= top_n self).
Proof.
  intros Hvalid.
  pose proof (compress_scored self h documents query Hvalid) as Hall.
  split; [exact Hall|]. split; [|split].
  - intros p Hp. now apply thresholded_subset, ranked_subset.
  - apply ranked_sorted.
  - intros Htop. rewrite (Forall2_length _ _ _ Hall).
    now apply ranked_length.
Qed.
End CompressClaims.

Lemma compress_threshold_filter_witness :
  ~ (r_score (sample_compressor 5 (1 # 2)) == 0)%Q
  /\ List.map page_content
       (compress_documents no_cos_sim (sample_compressor 5 (1 # 2))
          sample_heap sample_documents "query").2
     = ["first"; "third"]%string.
Proof.
  assert (Hr : ~ (r_score (sample_compressor 5 (1 # 2)) == 0)%Q).
  { unfold Qeq. simpl. lia. }
  split; [exact Hr|].
  destruct (compress_threshold_filter no_cos_sim (sample_compressor 5 (1 # 2))
              sample_heap sample_documents "query" Hr)
    as (_ & _ & _ & _ & _ & Hexample).
  destruct (Hexample _ _ _ eq_refl eq_refl eq_refl) as [_ Hout].
  apply Hout. simpl. lia.
Defined.

(* Against C7 as it is stated: with top_n = -1 the slice result[:-1] drops
   the last candidate only, and three documents give two entries, which is
   more than top_n. *)
Lemma compress_negative_top_n :
  ~ (Z.of_nat
       (length (compress_documents no_cos_sim (sample_compressor (-1) 0)
                  sample_heap sample_documents "query").2)
     <= top_n (sample_compressor (-1) 0)).
Proof.
  assert (Hlen : length (compress_documents no_cos_sim
                           (sample_compressor (-1) 0) sample_heap
                           sample_documents "query").2 = 2%nat)
    by (vm_compute; reflexivity).
  rewrite Hlen. simpl. lia.
Qed.

Lemma compress_sorted_scored_witness :
  Forall (fun doc => (metadata doc < length sample_heap)%nat) sample_documents
  /\ (0 <= top_n (sample_compressor 2 0) ->
      Z.of_nat
        (length (compress_documents no_cos_sim (sample_compressor 2 0)
                   sample_heap sample_documents "query").2)
      <= top_n (sample_compressor 2 0)).
Proof.
  assert (Hvalid : Forall (fun doc => (metadata doc < length sample_heap)%nat)
                     sample_documents).
  { repeat constructor; simpl; lia. }
  split; [exact Hvalid|].
  apply (compress_sorted_scored no_cos_sim (sample_compressor 2 0)
           sample_heap sample_documents "query" Hvalid).
Defined.

(* The same Document given three times: the three writes go to one dict,
   which keeps the last score, and every returned Document still has its
   own. *)
Example compress_aliased_documents :
  List.map
    (get_score (compress_documents no_cos_sim (sample_compressor 3 0)
                  sample_heap aliased_documents "query").1)
    (compress_documents no_cos_sim (sample_compressor 3 0)
       sample_heap aliased_documents "query").2
  = [Some (VFloat (9 # 10)); Some (VFloat (6 # 10)); Some (VFloat (4 # 10))]
  /\ heap_get (compress_documents no_cos_sim (sample_compressor 3 0)
                 sample_heap aliased_documents "query").1 0
       !! "score"%string
     = Some (VFloat (4 # 10)).
Proof. split; vm_compute; reflexivity. Qed.

(* --------------------------------------------------------------------- *)
(*  The fan-outs: what the loops compute                                 *)
(* --------------------------------------------------------------------- *)

Section FanOutFacts.
Context {V S F G : Type}.
Variable env : backend V S F G.

Lemma tasks_elem (collection_names queries : list string)
    (collection_name query : string) :
  (collection_name, query) ∈ tasks collection_names queries
  <-> collection_name ∈ collection_names /\ query ∈ queries.
Proof.
  unfold tasks. rewrite list_elem_of_In, in_flat_map. split.
  - intros (cn & Hcn & Hin). apply in_map_iff in Hin as (q & Heq & Hq).
    injection Heq as -> ->. split; now apply list_elem_of_In.
  - intros [Hcn Hq]. exists collection_name.
    split; [now apply list_elem_of_In|].
    apply in_map. now apply list_elem_of_In.
Qed.

Lemma submit_gets_fold (collection_names : list string)
    (futures : gmap string (outcome (option S))) (collection_name : string) :
  fold_left
    (fun futures cn => <[cn := client_get env cn]> futures)
    collection_names futures !! collection_name
  = if bool_decide (collection_name ∈ collection_names)
    then Some (client_get env collection_name)
    else futures !! collection_name.
Proof.
  revert futures.
  induction collection_names as [|cn rest IH]; intros futures; simpl.
  - reflexivity.
  - rewrite IH. destruct (decide (collection_name ∈ rest)) as [Hin|Hnin].
    + rewrite !bool_decide_eq_true_2; auto. now right.
    + rewrite (bool_decide_eq_false_2 _ Hnin).
      destruct (decide (cn = collection_name)) as [->|Hne].
      * rewrite lookup_insert_eq, bool_decide_eq_true_2; auto. now left.
      * rewrite lookup_insert_ne by exact Hne.
        rewrite bool_decide_eq_false_2; [reflexivity|].
        intros Hin. apply elem_of_cons in Hin as [->|?]; contradiction.
Qed.

(* collection_data holds, for every requested collection, its snapshot or
   None. *)
Lemma fetch_collection_data_lookup (collection_names : list string)
    (collection_name : string) :
  collection_name ∈ collection_names ->
  fetch_collection_data env collection_names !! collection_name
  = Some (snapshot_of env collection_name).
Proof.
  intros Hin. unfold fetch_collection_data, submit_gets, snapshot_of.
  rewrite lookup_fmap, submit_gets_fold.
  rewrite bool_decide_eq_true_2 by exact Hin. reflexivity.
Qed.

(* process_query returns the result of a task that succeeds and no error,
   or no result and an error. *)
Lemma process_query_spec (collection_names : list string)
    (embedding_function : F) (k : Z) (reranking_function : G)
    (k_reranker : Z) (r : score) (collection_name query : string) :
  collection_name ∈ collection_names ->
  match task_result env embedding_function k reranking_function k_reranker r
          (collection_name, query) with
  | Some result =>
      process_query env (fetch_collection_data env collection_names)
        embedding_function k reranking_function k_reranker r
        collection_name query = (Some result, None)
  | None =>
      exists e : exn,
        process_query env (fetch_collection_data env collection_names)
          embedding_function k reranking_function k_reranker r
          collection_name query = (None, Some e)
  end.
Proof.
  intros Hin. unfold process_query, task_result.
  rewrite (fetch_collection_data_lookup _ _ Hin). cbn [fst snd].
  destruct (snapshot_of env collection_name) as [data|]; [|eauto].
  unfold query_doc_with_hybrid_search.
  destruct (hybrid_pipeline env collection_name data query
              embedding_function k reranking_function k_reranker r);
    eauto.
Qed.

(* The loop over task_results: the results of the tasks that succeeded, in
   task order, and whether one failed. *)
Lemma collect_fold (embedding_function : F) (k : Z) (reranking_function : G)
    (k_reranker : Z) (r : score) (collection_names : list string)
    (ts : list (string * string)) (results : list query_result)
    (error : bool) :
  (forall t, t ∈ ts -> t.1 ∈ collection_names) ->
  fold_left collect
    (List.map
       (fun t => process_query env
                   (fetch_collection_data env collection_names)
                   embedding_function k reranking_function k_reranker r
                   t.1 t.2) ts)
    (results, error)
  = (results
     ++ omap (task_result env embedding_function k reranking_function
                k_reranker r) ts,
     error
     || existsb
          (task_failed env embedding_function k reranking_function
             k_reranker r) ts).
Proof.
  revert results error.
  induction ts as [|[cn q] ts IH]; intros results error Hin.
  - simpl. now rewrite app_nil_r, orb_false_r.
  - assert (Hcn : cn ∈ collection_names)
      by (apply (Hin (cn, q)); now left).
    pose proof (process_query_spec collection_names embedding_function k
                  reranking_function k_reranker r cn q Hcn) as Hpq.
    cbn [fold_left List.map omap list_omap existsb fst snd].
    unfold task_failed at 1.
    destruct (task_result env embedding_function k reranking_function
                k_reranker r (cn, q)) as [result|] eqn:Et.
    + rewrite Hpq. unfold collect at 2. cbn [fst snd].
      rewrite IH by (intros t Ht; apply Hin; now right).
      cbn [orb]. now rewrite <- app_assoc.
    + destruct Hpq as [e Hpq]. rewrite Hpq. unfold collect at 2.
      cbn [fst snd].
      rewrite IH by (intros t Ht; apply Hin; now right).
      cbn [orb]. now rewrite orb_true_r.
Qed.

Lemma omap_nil_iff {A B : Type} (f : A -> option B) (l : list A) :
  omap f l = [] <-> forall a, a ∈ l -> f a = None.
Proof.
  induction l as [|x l IH]; simpl.
  - split; [intros _ a Ha; now apply elem_of_nil in Ha|reflexivity].
  - destruct (f x) eqn:E.
    + split; [discriminate|]. intros H.
      specialize (H x (list_elem_of_here _ _)). congruence.
    + rewrite IH. split.
      * intros H a Ha. apply elem_of_cons in Ha as [->|Ha]; auto.
      * intros H a Ha. apply H. now right.
Qed.

(* The hybrid fan-out as a function of the tasks that succeed. *)
Lemma hybrid_search_cases (collection_names queries : list string)
    (embedding_function : F) (k : Z) (reranking_function : G)
    (k_reranker : Z) (r : score) :
  query_collection_with_hybrid_search env collection_names queries
    embedding_function k reranking_function k_reranker r
  = match omap (task_result env embedding_function k reranking_function
                  k_reranker r) (tasks collection_names queries) with
    | [] =>
        match tasks collection_names queries with
        | [] => Returned (merge_for_backend env [] k)
        | _ => Raised (Exception hybrid_failed_message)
        end
    | results => Returned (merge_for_backend env results k)
    end.
Proof.
  unfold query_collection_with_hybrid_search.
  rewrite (collect_fold embedding_function k reranking_function k_reranker
             r collection_names)
    by (intros [cn q] Ht; now apply tasks_elem in Ht as [? _]).
  cbn [app orb].
  destruct (omap _ (tasks collection_names queries)) as [|res rest] eqn:Eo.
  - destruct (tasks collection_names queries) as [|t ts] eqn:Et;
      [reflexivity|].
    assert (Hnone : task_result env embedding_function k reranking_function
                      k_reranker r t = None).
    { apply (proj1 (omap_nil_iff _ _) Eo). now left. }
    cbn [existsb]. unfold task_failed at 1. rewrite Hnone. reflexivity.
  - cbn [list_truthy negb]. now rewrite andb_false_r.
Qed.

(* ---- the plain fan-out ---- *)

Lemma query_collection_names_spec (query_embedding : V) (k : Z)
    (results : list query_result) (collection_names : list string) :
  query_collection_names env query_embedding k results collection_names
  = results ++ omap (search_result env query_embedding k) collection_names.
Proof.
  unfold query_collection_names. revert results.
  induction collection_names as [|cn rest IH]; intros results; simpl.
  - now rewrite app_nil_r.
  - rewrite IH. unfold search_result at 2, query_doc.
    destruct (str_truthy cn); [|reflexivity].
    destruct (client_search env cn query_embedding k) as [[result|]|e];
      [now rewrite <- app_assoc|reflexivity|reflexivity].
Qed.

Lemma query_collection_queries_returns (collection_names : list string)
    (embedding_function : string -> outcome V) (k : Z)
    (queries : list string) (results : list query_result) :
  (forall q, q ∈ queries -> exists v, embedding_function q = Returned v) ->
  query_collection_queries env collection_names embedding_function k
    results queries
  = Returned
      (results
       ++ search_results env collection_names queries embedding_function k).
Proof.
  revert results. induction queries as [|q rest IH]; intros results Hemb.
  - simpl. now rewrite app_nil_r.
  - destruct (Hemb q (list_elem_of_here _ _)) as [v Hv].
    cbn [query_collection_queries search_results flat_map].
    rewrite Hv. cbn [bind].
    rewrite IH by (intros q' Hq'; apply Hemb; now right).
    rewrite query_collection_names_spec.
    now rewrite <- app_assoc.
Qed.

Lemma query_collection_queries_raises (collection_names : list string)
    (embedding_function : string -> outcome V) (k : Z)
    (queries : list string) (results : list query_result) (e : exn) :
  query_collection_queries env collection_names embedding_function k
    results queries = Raised e ->
  exists q, q ∈ queries /\ embedding_function q = Raised e.
Proof.
  revert results. induction queries as [|q rest IH]; intros results H.
  - discriminate.
  - cbn [query_collection_queries] in H.
    destruct (embedding_function q) as [v|e'] eqn:Eq; cbn [bind] in H.
    + destruct (IH _ H) as (q' & Hq' & He).
      exists q'. split; [now right|exact He].
    + injection H as ->. exists q. split; [now left|exact Eq].
Qed.

Lemma search_results_nil (collection_names queries : list string)
    (embedding_function : string -> outcome V) (k : Z) :
  (forall (collection_name : string) (v : V),
     collection_name ∈ collection_names ->
     exists e, client_search env collection_name v k = Raised e) ->
  search_results env collection_names queries embedding_function k = [].
Proof.
  intros Hfail. unfold search_results.
  induction queries as [|q rest IH]; [reflexivity|].
  cbn [flat_map]. rewrite IH, app_nil_r.
  destruct (embedding_function q) as [v|e]; [|reflexivity].
  apply omap_nil_iff. intros cn Hcn. unfold search_result.
  destruct (str_truthy cn); [|reflexivity].
  destruct (Hfail cn v Hcn) as [e ->]. reflexivity.
Qed.

Lemma merge_for_backend_nil (k : Z) :
  merge_for_backend env [] k = empty_result.
Proof.
  unfold merge_for_backend.
  destruct (String.eqb (VECTOR_DB env) "chroma"); reflexivity.
Qed.
End FanOutFacts.

(* --------------------------------------------------------------------- *)
(*  The fan-outs: the stated properties                                  *)
(* --------------------------------------------------------------------- *)

Section FanOutClaims.
Context {V S F G : Type}.
Variable env : backend V S F G.

Lemma hybrid_all_failed (collection_names queries : list string)
    (embedding_function : F) (k : Z) (reranking_function : G)
    (k_reranker : Z) (r : score) :
  tasks collection_names queries <> [] ->
  (forall t, t ∈ tasks collection_names queries ->
             task_result env embedding_function k reranking_function
               k_reranker r t = None) ->
  query_collection_with_hybrid_search env collection_names queries
    embedding_function k reranking_function k_reranker r
  = Raised (Exception hybrid_failed_message).
Proof.
  intros Hne Hall. rewrite hybrid_search_cases.
  rewrite (proj2 (omap_nil_iff _ _) Hall).
  destruct (tasks collection_names queries); [contradiction|reflexivity].
Qed.

Lemma hybrid_some_succeeded (collection_names queries : list string)
    (embedding_function : F) (k : Z) (reranking_function : G)
    (k_reranker : Z) (r : score) :
  (exists t, t ∈ tasks collection_names queries
             /\ is_Some (task_result env embedding_function k
                           reranking_function k_reranker r t)) ->
  omap (task_result env embedding_function k reranking_function
          k_reranker r) (tasks collection_names queries) <> []
  /\ query_collection_with_hybrid_search env collection_names queries
       embedding_function k reranking_function k_reranker r
     = Returned
         (merge_for_backend env
            (omap (task_result env embedding_function k reranking_function
                     k_reranker r) (tasks collection_names queries)) k).
Proof.
  intros (t & Ht & [res Hres]).
  assert (Hne : omap (task_result env embedding_function k
                        reranking_function k_reranker r)
                  (tasks collection_names queries) <> []).
  { intros Hnil. rewrite omap_nil_iff in Hnil.
    specialize (Hnil t Ht). congruence. }
  split; [exact Hne|].
  rewrite hybrid_search_cases.
  destruct (omap _ (tasks collection_names queries));
    [contradiction|reflexivity].
Qed.

Lemma omap_tasks_available (collection_names queries : list string)
    (embedding_function : F) (k : Z) (reranking_function : G)
    (k_reranker : Z) (r : score) :
  omap (task_result env embedding_function k reranking_function
          k_reranker r) (tasks collection_names queries)
  = omap (task_result env embedding_function k reranking_function
            k_reranker r)
      (tasks (List.filter (snapshot_available env) collection_names)
         queries).
Proof.
  induction collection_names as [|cn rest IH]; [reflexivity|].
  unfold tasks in *. cbn [flat_map List.filter].
  destruct (snapshot_available env cn) eqn:Eav.
  - cbn [flat_map]. rewrite !omap_app. now rewrite IH.
  - rewrite omap_app, IH.
    rewrite (proj2 (omap_nil_iff _ (List.map (pair cn) queries)));
      [reflexivity|].
    intros t Ht. apply list_elem_of_In, in_map_iff in Ht as (q & <- & _).
    unfold task_result. cbn [fst snd].
    unfold snapshot_available in Eav.
    destruct (snapshot_of env cn); [discriminate|reflexivity].
Qed.

(** C4: for every non-empty set of (collection, query) tasks, if every
    task fails then query_collection_with_hybrid_search raises the
    aggregate error and returns nothing; and whenever it raises, the error
    is the aggregate one and no task of the call succeeded. *)
Theorem hybrid_total_failure (collection_names queries : list string)
    (embedding_function : F) (k : Z) (reranking_function : G)
    (k_reranker : Z) (r : score) :
  (tasks collection_names queries <> [] ->
   (forall t, t ∈ tasks collection_names queries ->
              task_result env embedding_function k reranking_function
                k_reranker r t = None) ->
   query_collection_with_hybrid_search env collection_names queries
     embedding_function k reranking_function k_reranker r
   = Raised (Exception hybrid_failed_message))
  /\ (forall e : exn,
        query_collection_with_hybrid_search env collection_names queries
          embedding_function k reranking_function k_reranker r
        = Raised e ->
        e = Exception hybrid_failed_message
        /\ tasks collection_names queries <> []
        /\ forall t, t ∈ tasks collection_names queries ->
                     task_result env embedding_function k
                       reranking_function k_reranker r t = None).
Proof.
  split; [apply hybrid_all_failed|].
  intros e. rewrite hybrid_search_cases.
  destruct (omap _ (tasks collection_names queries)) as [|res rest] eqn:Eo;
    [|discriminate].
  destruct (tasks collection_names queries) as [|t ts] eqn:Et;
    [discriminate|].
  intros [= <-]. split; [reflexivity|]. split; [discriminate|].
  now apply omap_nil_iff.
Qed.

(** C5: if at least one (collection, query) task succeeds,
    query_collection_with_hybrid_search raises no error and returns the
    merge of the result sets of the successful tasks only.  When the
    snapshot fetch of a collection fails, every task of that collection
    fails with the "unavailable" error, and the call returns what it
    returns on the collections whose snapshot was fetched. *)
Theorem hybrid_partial_failure (collection_names queries : list string)
    (embedding_function : F) (k : Z) (reranking_function : G)
    (k_reranker : Z) (r : score) :
  (exists t, t ∈ tasks collection_names queries
             /\ is_Some (task_result env embedding_function k
                           reranking_function k_reranker r t)) ->
  query_collection_with_hybrid_search env collection_names queries
    embedding_function k reranking_function k_reranker r
  = Returned
      (merge_for_backend env
         (omap (task_result env embedding_function k reranking_function
                  k_reranker r) (tasks collection_names queries)) k)
  /\ (forall collection_name query : string,
        collection_name ∈ collection_names ->
        snapshot_of env collection_name = None ->
        process_query env (fetch_collection_data env collection_names)
          embedding_function k reranking_function k_reranker r
          collection_name query
        = (None, Some (Exception (unavailable_message collection_name))))
  /\ query_collection_with_hybrid_search env collection_names queries
       embedding_function k reranking_function k_reranker r
     = query_collection_with_hybrid_search env
         (List.filter (snapshot_available env) collection_names) queries
         embedding_function k reranking_function k_reranker r.
Proof.
  intros Hsome.
  destruct (hybrid_some_succeeded _ _ _ _ _ _ _ Hsome) as [Hne Hret].
  split; [exact Hret|]. split.
  - intros cn q Hin Hnone. unfold process_query.
    rewrite (fetch_collection_data_lookup env _ _ Hin), Hnone.
    reflexivity.
  - rewrite (hybrid_search_cases env
               (List.filter (snapshot_available env) collection_names)).
    rewrite <- omap_tasks_available, Hret.
    destruct (omap _ (tasks collection_names queries));
      [contradiction|reflexivity].
Qed.

(** C10: query_collection never propagates the failure of a dense search
    task: when it raises, the exception is the one of an embedding call,
    made outside the try; when the embedding calls return it returns the
    merge of the result sets of the searches that succeeded, and the
    well-formed empty result when every search of the call fails; the
    hybrid fan-out instead raises when all of its tasks fail. *)
Theorem query_collection_skips_failures (collection_names queries : list string)
    (embedding_function : string -> outcome V) (k : Z) :
  (forall e : exn,
     query_collection env collection_names queries embedding_function k
     = Raised e ->
     exists q, q ∈ queries /\ embedding_function q = Raised e)
  /\ ((forall q, q ∈ queries ->
                 exists v, embedding_function q = Returned v) ->
      query_collection env collection_names queries embedding_function k
      = Returned
          (merge_for_backend env
             (search_results env collection_names queries
                embedding_function k) k)
      /\ ((forall (collection_name : string) (v : V),
             collection_name ∈ collection_names ->
             exists e, client_search env collection_name v k = Raised e) ->
          query_collection env collection_names queries embedding_function k
          = Returned empty_result))
  /\ (forall (hybrid_embedding : F) (reranking_function : G)
             (k_reranker : Z) (r : score),
        tasks collection_names queries <> [] ->
        (forall t, t ∈ tasks collection_names queries ->
                   task_result env hybrid_embedding k reranking_function
                     k_reranker r t = None) ->
        query_collection_with_hybrid_search env collection_names queries
          hybrid_embedding k reranking_function k_reranker r
        = Raised (Exception hybrid_failed_message)).
Proof.
  split; [|split].
  - intros e. unfold query_collection.
    destruct (query_collection_queries env collection_names
                embedding_function k [] queries) as [results|e'] eqn:Eq;
      cbn [bind]; [discriminate|].
    intros [= <-]. eapply query_collection_queries_raises. exact Eq.
  - intros Hemb.
    assert (Hret :
      query_collection env collection_names queries embedding_function k
      = Returned
          (merge_for_backend env
             (search_results env collection_names queries
                embedding_function k) k)).
    { unfold query_collection.
      rewrite (query_collection_queries_returns env _ _ _ _ _ Hemb).
      reflexivity. }
    split; [exact Hret|].
    intros Hfail. rewrite Hret.
    rewrite (search_results_nil env _ _ _ _ Hfail).
    now rewrite merge_for_backend_nil.
  - intros. now apply hybrid_all_failed.
Qed.
End FanOutClaims.

(* --------------------------------------------------------------------- *)
(*  The theorems on the sample inputs                                    *)
(* --------------------------------------------------------------------- *)

(* Ties keep their first-seen order in both polarities. *)
Example merge_tie_break :
  documents (merge_and_sort_query_results [tied_result] 5 true)
  = [DStr "first"; DStr "second"]
  /\ documents (merge_and_sort_query_results [tied_result] 5 false)
     = [DStr "first"; DStr "second"].
Proof. split; vm_compute; reflexivity. Qed.

Lemma merge_unique_first_seen_witness :
  Z.of_nat (length (unique_hashes [sample_result])) <= 5
  /\ (1 # 10, DStr "beta", {[ "source" := VStr "b.txt" ]})%Q
     ∈ result_rows (merge_and_sort_query_results [sample_result] 5 false).
Proof.
  assert (Hk : Z.of_nat (length (unique_hashes [sample_result])) <= 5)
    by (vm_compute; discriminate).
  split; [exact Hk|].
  destruct (merge_unique_first_seen [sample_result] 5 false)
    as (_ & _ & _ & Hkept).
  apply (Hkept Hk 1%nat).
  - reflexivity.
  - eexists. reflexivity.
  - intros j e' Hj He'.
    assert (j = 0%nat) as -> by lia.
    injection He' as <-. vm_compute. discriminate.
Defined.

Lemma merge_sorted_prefix_witness :
  0 <= 2
  /\ adjacent_in_order distance_of true
       (result_rows (merge_and_sort_query_results [sample_result] 2 true)).
Proof.
  split; [lia|].
  destruct (merge_sorted_prefix [sample_result] 2 true)
    as (sorted & _ & _ & _ & Hadjacent & _).
  exact Hadjacent.
Defined.

Lemma merge_empty_input_witness :
  flattened [ragged_result; empty_result] = []
  /\ merge_and_sort_query_results [ragged_result; empty_result] 3 true
     = {| distances := []; documents := []; metadatas := [] |}.
Proof.
  split; [reflexivity|].
  apply (proj2 (merge_empty_input 3 true)). reflexivity.
Defined.

Lemma hybrid_total_failure_witness :
  tasks ["broken"; "other"] ["q1"; "q2"] <> []
  /\ (forall t, t ∈ tasks ["broken"; "other"] ["q1"; "q2"] ->
                task_result sample_backend tt 4 tt 2 0%Q t = None)
  /\ query_collection_with_hybrid_search sample_backend
       ["broken"; "other"] ["q1"; "q2"] tt 4 tt 2 0%Q
     = Raised (Exception hybrid_failed_message).
Proof.
  assert (Hne : tasks ["broken"; "other"] ["q1"; "q2"] <> [])
    by (simpl; discriminate).
  assert (Hall : forall t, t ∈ tasks ["broken"; "other"] ["q1"; "q2"] ->
                   task_result sample_backend tt 4 tt 2 0%Q t = None).
  { intros t Ht. cbn [tasks flat_map List.map app] in Ht.
    repeat (apply elem_of_cons in Ht as [->|Ht]; [reflexivity|]).
    now apply elem_of_nil in Ht. }
  split; [exact Hne|]. split; [exact Hall|].
  exact (proj1 (hybrid_total_failure sample_backend
                  ["broken"; "other"] ["q1"; "q2"] tt 4 tt 2 0%Q) Hne Hall).
Defined.

Lemma hybrid_partial_failure_witness :
  (exists t, t ∈ tasks ["docs"; "broken"; "other"] ["q"]
             /\ is_Some (task_result sample_backend tt 4 tt 2 0%Q t))
  /\ query_collection_with_hybrid_search sample_backend
       ["docs"; "broken"; "other"] ["q"] tt 4 tt 2 0%Q
     = Returned (merge_and_sort_query_results [sample_result] 4 false).
Proof.
  assert (Hsome : exists t, t ∈ tasks ["docs"; "broken"; "other"] ["q"]
                    /\ is_Some (task_result sample_backend tt 4 tt 2 0%Q t)).
  { exists ("docs", "q")%string. split; [now left|]. eexists. reflexivity. }
  split; [exact Hsome|].
  exact (proj1 (hybrid_partial_failure sample_backend
                  ["docs"; "broken"; "other"] ["q"] tt 4 tt 2 0%Q Hsome)).
Defined.

Lemma query_collection_skips_failures_witness :
  (forall q, q ∈ ["q1"; "q2"]%string ->
             exists v, sample_embedding q = Returned v)
  /\ (forall (collection_name : string) (v : unit),
        collection_name ∈ ["missing"; ""]%string ->
        exists e, client_search sample_backend collection_name v 4 = Raised e)
  /\ query_collection sample_backend ["missing"; ""] ["q1"; "q2"]
       sample_embedding 4
     = Returned empty_result.
Proof.
  assert (Hemb : forall q, q ∈ ["q1"; "q2"]%string ->
                   exists v, sample_embedding q = Returned v)
    by (intros q _; exists tt; reflexivity).
  assert (Hfail : forall (collection_name : string) (v : unit),
            collection_name ∈ ["missing"; ""]%string ->
            exists e,
              client_search sample_backend collection_name v 4 = Raised e).
  { intros cn v Hcn.
    repeat (apply elem_of_cons in Hcn as [->|Hcn];
            [eexists; reflexivity|]).
    now apply elem_of_nil in Hcn. }
  split; [exact Hemb|]. split; [exact Hfail|].
  destruct (query_collection_skips_failures sample_backend
              ["missing"; ""] ["q1"; "q2"] sample_embedding 4)
    as (_ & Hreturns & _).
  destruct (Hreturns Hemb) as [_ Hempty].
  exact (Hempty Hfail).
Defined.

(* --------------------------------------------------------------------- *)
(*  The merger: selection, growth in k, merging again                    *)
(* --------------------------------------------------------------------- *)

Lemma StronglySorted_app_between {A : Type} (R : A -> A -> Prop)
    (l1 l2 : list A) :
  StronglySorted R (l1 ++ l2) ->
  forall a b : A, a ∈ l1 -> b ∈ l2 -> R a b.
Proof.
  induction l1 as [|x l1 IH]; intros Hs a b Ha Hb.
  - now apply elem_of_nil in Ha.
  - simpl in Hs. apply StronglySorted_inv in Hs as [Hs Hx].
    apply elem_of_cons in Ha as [->|Ha].
    + rewrite List.Forall_forall in Hx. apply Hx.
      apply in_or_app. right. now apply list_elem_of_In.
    + now apply IH.
Qed.

Lemma StronglySorted_app_l {A : Type} (R : A -> A -> Prop) (l1 l2 : list A) :
  StronglySorted R (l1 ++ l2) -> StronglySorted R l1.
Proof.
  induction l1 as [|x l1 IH]; intros Hs; [constructor|].
  simpl in Hs. apply StronglySorted_inv in Hs as [Hs Hx].
  constructor; [now apply IH|].
  apply Forall_app in Hx. tauto.
Qed.

Section SortedFacts.
Context {A : Type} (key : A -> score).

Lemma list_sort_strongly_sorted (reverse : bool) (l : list A) :
  StronglySorted (fun a b => in_order reverse (key a) (key b))
    (list_sort key reverse l).
Proof.
  destruct reverse; simpl.
  - apply (StronglySorted_rev (fun a b => (key a <= key b)%Q)).
    apply stable_sort_sorted.
  - apply stable_sort_sorted.
Qed.

(* An element that is not below any element of a list goes to its end. *)
Lemma insert_right_last (x : A) (l : list A) :
  Forall (fun y => (key y <= key x)%Q) l -> insert_right key x l = l ++ [x].
Proof.
  induction 1 as [|y l Hy _ IH]; simpl; [reflexivity|].
  destruct (Qltb (key x) (key y)) eqn:E.
  - apply Qltb_true in E. exfalso. exact (Qlt_not_le _ _ E Hy).
  - now rewrite IH.
Qed.

Lemma fold_insert_right_sorted_id (l acc : list A) :
  StronglySorted (fun a b => (key a <= key b)%Q) (acc ++ l) ->
  fold_left (fun acc x => insert_right key x acc) l acc = acc ++ l.
Proof.
  revert acc. induction l as [|x l IH]; intros acc Hs; simpl.
  - now rewrite app_nil_r.
  - rewrite insert_right_last.
    + rewrite IH; rewrite <- app_assoc; [reflexivity|exact Hs].
    + apply List.Forall_forall. intros y Hy.
      apply (StronglySorted_app_between _ acc (x :: l) Hs);
        [now apply list_elem_of_In|now left].
Qed.

(* Sorting a sorted list changes nothing. *)
Lemma list_sort_sorted_id (reverse : bool) (l : list A) :
  StronglySorted (fun a b => in_order reverse (key a) (key b)) l ->
  list_sort key reverse l = l.
Proof.
  destruct reverse; simpl; intros Hs.
  - unfold stable_sort. rewrite fold_insert_right_sorted_id.
    + simpl. apply rev_involutive.
    + simpl. apply (StronglySorted_rev _ _ Hs).
  - unfold stable_sort. now rewrite fold_insert_right_sorted_id.
Qed.
End SortedFacts.

Lemma first_seen_text_only (seen : list string) (l : list entry) :
  first_seen seen l = first_seen seen (List.filter is_text l).
Proof.
  revert seen. induction l as [|[[d doc] m] l IH]; intros seen;
    [reflexivity|].
  destruct doc as [text|].
  - cbn [List.filter is_text document_of fst snd first_seen content_hash].
    destruct (bool_decide (MD5.hexdigest text ∈ seen)); [apply IH|].
    f_equal. apply IH.
  - cbn [List.filter is_text document_of fst snd first_seen content_hash].
    apply IH.
Qed.

(* A list whose content hashes are all present, distinct and unseen is its
   own deduplication. *)
Lemma first_seen_id (seen : list string) (l : list entry) :
  NoDup (List.map content_hash l) ->
  (forall e, e ∈ l -> exists h, content_hash e = Some h /\ h ∉ seen) ->
  first_seen seen l = l.
Proof.
  revert seen. induction l as [|e l IH]; intros seen Hnd Hall;
    [reflexivity|].
  simpl in Hnd. apply NoDup_cons in Hnd as [Hnotin Hnd].
  destruct (Hall e (list_elem_of_here _ _)) as (h & Hh & Hseen).
  simpl. rewrite Hh. rewrite bool_decide_eq_false_2 by exact Hseen.
  f_equal. apply IH; [exact Hnd|].
  intros e' He'. destruct (Hall e' (list_elem_of_further _ _ _ He'))
    as (h' & Hh' & Hseen').
  exists h'. split; [exact Hh'|].
  intros Hin. apply elem_of_cons in Hin as [->|Hin]; [|contradiction].
  apply Hnotin. rewrite Hh, <- Hh'.
  apply list_elem_of_fmap. exists e'. split; [reflexivity|exact He'].
Qed.

(** X1: the output holds the best candidates: a deduplicated candidate that
    is left out of the output never has a better score than one that is in
    it, in the order that the polarity flag asks for. *)
Theorem merge_keeps_best (query_results : list query_result) (k : Z)
    (reverse : bool) (e e' : entry) :
  e ∈ result_rows (merge_and_sort_query_results query_results k reverse) ->
  e' ∈ first_seen [] (flattened query_results) ->
  e' ∉ result_rows (merge_and_sort_query_results query_results k reverse) ->
  in_order reverse (distance_of e) (distance_of e').
Proof.
  rewrite merge_rows. unfold del_from.
  set (sorted := list_sort distance_of reverse
                   (first_seen [] (flattened query_results))).
  set (n := slice_index k (length sorted)).
  intros He He' Hout.
  assert (Hin : e' ∈ drop n sorted).
  { assert (Hs : e' ∈ sorted)
      by (unfold sorted; now rewrite <- (list_sort_perm distance_of reverse)).
    rewrite <- (take_drop n sorted) in Hs.
    apply elem_of_app in Hs as [Hs|Hs]; [contradiction|exact Hs]. }
  apply (StronglySorted_app_between
           (fun a b => in_order reverse (distance_of a) (distance_of b))
           (take n sorted) (drop n sorted)); [|exact He|exact Hin].
  rewrite take_drop. apply list_sort_strongly_sorted.
Qed.

Lemma merge_keeps_best_witness :
  in_order false (1 # 10)%Q (3 # 10)%Q.
Proof.
  apply (merge_keeps_best [sample_result] 1 false
           (1 # 10, DStr "beta", {[ "source" := VStr "b.txt" ]})%Q
           (3 # 10, DStr "alpha", {[ "source" := VStr "a.txt" ]})%Q).
  - vm_compute. left.
  - vm_compute. left.
  - intros Hin. vm_compute in Hin.
    apply elem_of_cons in Hin as [Heq|Hin];
      [discriminate|now apply elem_of_nil in Hin].
Defined.

(** X2: a larger k only appends: for 0 <= k1 <= k2 the output for k1 is a
    prefix of the output for k2. *)
Theorem merge_grows_with_k (query_results : list query_result) (k1 k2 : Z)
    (reverse : bool) :
  0 <= k1 -> k1 <= k2 ->
  result_rows (merge_and_sort_query_results query_results k1 reverse)
  `prefix_of`
  result_rows (merge_and_sort_query_results query_results k2 reverse).
Proof.
  intros H1 H2. rewrite !merge_rows, !del_from_nonneg by lia.
  set (sorted := list_sort distance_of reverse
                   (first_seen [] (flattened query_results))).
  replace (take (Z.to_nat k1) sorted)
    with (take (Z.to_nat k1) (take (Z.to_nat k2) sorted)).
  - apply prefix_take.
  - rewrite take_take. f_equal. lia.
Qed.

Lemma merge_grows_with_k_witness :
  0 <= 1 /\ 1 <= 2
  /\ result_rows (merge_and_sort_query_results [sample_result] 1 true)
     `prefix_of`
     result_rows (merge_and_sort_query_results [sample_result] 2 true).
Proof.
  split; [lia|]. split; [lia|].
  apply (merge_grows_with_k [sample_result] 1 2 true); lia.
Defined.

(** X3: merging a merged result again, with the same k >= 0 and the same
    flag, returns it unchanged. *)
Theorem merge_again (query_results : list query_result) (k : Z)
    (reverse : bool) :
  0 <= k ->
  merge_and_sort_query_results
    [merge_and_sort_query_results query_results k reverse] k reverse
  = merge_and_sort_query_results query_results k reverse.
Proof.
  intros Hk.
  rewrite (merge_unzip3 [_]). unfold flattened at 1. cbn [flat_map].
  rewrite app_nil_r.
  set (rows := result_rows
                 (merge_and_sort_query_results query_results k reverse)).
  assert (Hrows : merge_and_sort_query_results query_results k reverse
                  = unzip3 rows).
  { unfold rows. now rewrite merge_rows, merge_unzip3. }
  rewrite Hrows. f_equal.
  rewrite first_seen_id.
  - rewrite list_sort_sorted_id.
    + apply del_from_all. unfold rows. rewrite merge_rows.
      rewrite del_from_length by exact Hk. lia.
    + unfold rows. rewrite merge_rows. unfold del_from.
      apply (StronglySorted_app_l _ _
               (drop (slice_index k
                        (length (list_sort distance_of reverse
                                   (first_seen [] (flattened query_results)))))
                  (list_sort distance_of reverse
                     (first_seen [] (flattened query_results))))).
      rewrite take_drop. apply list_sort_strongly_sorted.
  - apply merge_rows_hashes_NoDup.
  - intros e He. apply merge_rows_subset in He.
    destruct (first_seen_elem _ _ _ He) as (h & Hh & Hn & _). eauto.
Qed.

Lemma merge_again_witness :
  0 <= 2
  /\ merge_and_sort_query_results
       [merge_and_sort_query_results [sample_result; tied_result] 2 true]
       2 true
     = merge_and_sort_query_results [sample_result; tied_result] 2 true.
Proof.
  split; [lia|].
  apply (merge_again [sample_result; tied_result] 2 true). lia.
Defined.

(** X4: the result depends only on the tuples whose document is a str, in
    their flattened order: tuples with another document, and the way the
    tuples are grouped into result sets, do not matter. *)
Theorem merge_text_tuples_only (a b : list query_result) (k : Z)
    (reverse : bool) :
  List.filter is_text (flattened a) = List.filter is_text (flattened b) ->
  merge_and_sort_query_results a k reverse
  = merge_and_sort_query_results b k reverse.
Proof.
  intros Hsame. rewrite !merge_unzip3.
  rewrite (first_seen_text_only [] (flattened a)).
  rewrite (first_seen_text_only [] (flattened b)).
  now rewrite Hsame.
Qed.

Lemma merge_text_tuples_only_witness :
  List.filter is_text (flattened split_results)
  = List.filter is_text (flattened [sample_result])
  /\ merge_and_sort_query_results split_results 5 true
     = merge_and_sort_query_results [sample_result] 5 true.
Proof.
  assert (Hsame : List.filter is_text (flattened split_results)
                  = List.filter is_text (flattened [sample_result]))
    by reflexivity.
  split; [exact Hsame|].
  exact (merge_text_tuples_only split_results [sample_result] 5 true Hsame).
Defined.

(* --------------------------------------------------------------------- *)
(*  compress_documents: what happens to the metadata dicts               *)
(* --------------------------------------------------------------------- *)

Lemma emit_get_other (st : heap * list Document) (p : Document * score)
    (a : nat) :
  (a < length st.1)%nat -> a <> metadata p.1 ->
  (emit st p).1 !! a = st.1 !! a.
Proof.
  intros Ha Hne. unfold emit, new_Document. cbn [fst snd].
  rewrite lookup_app_l by (rewrite setitem_length; exact Ha).
  unfold setitem. apply list_lookup_insert_ne. congruence.
Qed.

Lemma emit_get_target (st : heap * list Document) (p : Document * score) :
  (metadata p.1 < length st.1)%nat ->
  heap_get (emit st p).1 (metadata p.1)
  = <["score"%string := VFloat p.2]> (heap_get st.1 (metadata p.1)).
Proof.
  intros Hvalid. unfold emit, new_Document, heap_get. cbn [fst snd].
  rewrite lookup_app_l by (rewrite setitem_length; exact Hvalid).
  unfold setitem. rewrite list_lookup_insert_eq by exact Hvalid.
  reflexivity.
Qed.

Lemma emit_get_new (st : heap * list Document) (p : Document * score) :
  (metadata p.1 < length st.1)%nat ->
  heap_get (emit st p).1 (length st.1)
  = <["score"%string := VFloat p.2]> (heap_get st.1 (metadata p.1)).
Proof.
  intros Hvalid. unfold emit, new_Document, heap_get. cbn [fst snd].
  rewrite lookup_app_r by (rewrite setitem_length; lia).
  rewrite setitem_length, Nat.sub_diag. cbn [lookup list_lookup default].
  unfold setitem. rewrite list_lookup_insert_eq by exact Hvalid.
  reflexivity.
Qed.

(* A step changes, in the dicts that were there, the key "score" only. *)
Lemma emit_erase (st : heap * list Document) (p : Document * score) (a : nat) :
  (metadata p.1 < length st.1)%nat -> (a < length st.1)%nat ->
  delete "score"%string (heap_get (emit st p).1 a)
  = delete "score"%string (heap_get st.1 a).
Proof.
  intros Hvalid Ha. destruct (decide (a = metadata p.1)) as [->|Hne].
  - rewrite emit_get_target by exact Hvalid. apply delete_insert_eq.
  - unfold heap_get at 1. now rewrite emit_get_other.
Qed.

Lemma emit_fold_inputs (rs : list (Document * score)) (n0 : nat) :
  Forall (fun p => (metadata p.1 < n0)%nat) rs ->
  forall (h : heap) (acc : list Document),
    (n0 <= length h)%nat ->
    (forall a : nat, (a < n0)%nat ->
       delete "score"%string (heap_get (fold_left emit rs (h, acc)).1 a)
       = delete "score"%string (heap_get h a))
    /\ (forall a : nat, (a < n0)%nat ->
          (forall p, p ∈ rs -> metadata p.1 <> a) ->
          (fold_left emit rs (h, acc)).1 !! a = h !! a)
    /\ (forall p, p ∈ rs ->
          exists q, q ∈ rs /\ metadata q.1 = metadata p.1
            /\ heap_get (fold_left emit rs (h, acc)).1 (metadata p.1)
                 !! "score"%string = Some (VFloat q.2)).
Proof.
  induction 1 as [|p rs Hp Hrs IH]; intros h acc Hn0.
  - simpl. repeat split; auto.
    intros p Hp. now apply elem_of_nil in Hp.
  - cbn [fold_left].
    pose proof (emit_heap_length (h, acc) p) as Hlen. cbn [fst] in Hlen.
    destruct (IH (emit (h, acc) p).1 (emit (h, acc) p).2) as (E1 & E2 & E3);
      [lia|].
    rewrite <- surjective_pairing in E1, E2, E3.
    split; [|split].
    + intros a Ha. rewrite E1 by exact Ha.
      apply (emit_erase (h, acc) p a); cbn [fst]; lia.
    + intros a Ha Hnone. rewrite E2.
      * apply (emit_get_other (h, acc) p a); cbn [fst]; [lia|].
        intros ->. apply (Hnone p); [now left|reflexivity].
      * exact Ha.
      * intros q Hq. apply Hnone. now right.
    + intros q Hq.
      destruct (decide (Exists (fun q' => metadata q'.1 = metadata q.1) rs))
        as [Hex|Hnex].
      * apply Exists_exists in Hex as (q' & Hq' & Haddr).
        destruct (E3 q' Hq') as (q'' & Hq'' & Haddr'' & Hsc).
        exists q''. split; [now right|]. split; [congruence|].
        rewrite <- Haddr. exact Hsc.
      * assert (Hnone : forall q', q' ∈ rs -> metadata q'.1 <> metadata q.1).
        { intros q' Hq' Heq. apply Hnex, Exists_exists. eauto. }
        apply elem_of_cons in Hq as [->|Hq]; [|now apply Hnone in Hq].
        exists p. split; [now left|]. split; [reflexivity|].
        unfold heap_get at 1. rewrite E2 by (try exact Hnone; lia).
        fold (heap_get (emit (h, acc) p).1 (metadata p.1)).
        rewrite (emit_get_target (h, acc) p) by (cbn [fst]; lia).
        apply lookup_insert_eq.
Qed.

Lemma emit_fold_outputs (rs : list (Document * score)) (n0 : nat) :
  Forall (fun p => (metadata p.1 < n0)%nat) rs ->
  forall (h : heap) (acc : list Document),
    (n0 <= length h)%nat ->
    exists outs : list Document,
      (fold_left emit rs (h, acc)).2 = acc ++ outs
      /\ Forall2
           (fun doc p =>
              (metadata p.1 < n0)%nat
              /\ heap_get (fold_left emit rs (h, acc)).1 (metadata doc)
                 = <["score"%string := VFloat p.2]>
                     (heap_get h (metadata p.1)))
           outs rs.
Proof.
  induction 1 as [|p rs Hp Hrs IH]; intros h acc Hn0.
  - exists []. simpl. rewrite app_nil_r. split; [reflexivity|constructor].
  - cbn [fold_left].
    pose proof (emit_heap_length (h, acc) p) as Hlen. cbn [fst] in Hlen.
    destruct (emit_new_document (h, acc) p) as (doc & Hout & _ & Haddr & _);
      [cbn [fst]; lia|]. cbn [fst snd] in Hout, Haddr.
    destruct (IH (emit (h, acc) p).1 (emit (h, acc) p).2) as (outs & Houts & Hall);
      [lia|].
    destruct (emit_fold rs n0 Hrs (emit (h, acc) p).1 (emit (h, acc) p).2)
      as (_ & _ & _ & Hkeep & _); [lia|].
    rewrite <- surjective_pairing in Houts, Hall, Hkeep.
    exists (doc :: outs). split.
    + rewrite Houts, Hout. now rewrite <- app_assoc.
    + constructor.
      * split; [exact Hp|].
        unfold heap_get at 1. rewrite Haddr, Hkeep by lia.
        fold (heap_get (emit (h, acc) p).1 (length h)).
        apply (emit_get_new (h, acc) p). cbn [fst]. lia.
      * eapply Forall2_impl; [exact Hall|].
        intros d q [Hq Hd]. split; [exact Hq|]. rewrite Hd.
        rewrite <- (insert_delete_eq (heap_get (emit (h, acc) p).1 _)).
        rewrite <- (insert_delete_eq (heap_get h _)).
        f_equal. apply (emit_erase (h, acc) p); cbn [fst]; lia.
Qed.

Section CompressMore.
Context {E : Type} (cos_sim_row : E -> string -> list string -> list score).

(** X5: every returned Document has the metadata of the input Document it
    was built from, with the key "score" set to its score and every other
    key as it was before the call. *)
Theorem compress_keeps_metadata (self : RerankCompressor E) (h : heap)
    (documents : list Document) (query : string) :
  Forall (fun doc => (metadata doc < length h)%nat) documents ->
  Forall2
    (fun doc p =>
       page_content doc = page_content p.1
       /\ heap_get (compress_documents cos_sim_row self h documents query).1
            (metadata doc)
          = <["score"%string := VFloat p.2]> (heap_get h (metadata p.1)))
    (compress_documents cos_sim_row self h documents query).2
    (ranked cos_sim_row self documents query).
Proof.
  intros Hvalid.
  pose proof (compress_scored cos_sim_row self h documents query Hvalid)
    as Hscored.
  unfold compress_documents in *.
  destruct (emit_fold_outputs (ranked cos_sim_row self documents query)
              (length h) (ranked_valid cos_sim_row self h documents query Hvalid)
              h []) as (outs & Houts & Hall); [lia|].
  rewrite Houts in *. cbn [app] in *.
  apply Forall2_same_length_lookup. split.
  - exact (Forall2_length _ _ _ Hall).
  - intros i doc p Hdoc Hp.
    destruct (Forall2_lookup_lr _ _ _ _ _ _ Hscored Hdoc Hp) as [Hpc _].
    destruct (Forall2_lookup_lr _ _ _ _ _ _ Hall Hdoc Hp) as [_ Hd].
    split; assumption.
Qed.

(** X6: the call allocates one dict per returned Document and writes to the
    dicts of the input Documents in place: in a dict that existed before,
    only the key "score" can change; a dict that no ranked candidate refers
    to does not change at all; and the dict of every ranked candidate ends
    with the score of a candidate that shares it. *)
Theorem compress_writes_score_only (self : RerankCompressor E) (h : heap)
    (documents : list Document) (query : string) :
  Forall (fun doc => (metadata doc < length h)%nat) documents ->
  length (compress_documents cos_sim_row self h documents query).1
  = (length h
     + length (compress_documents cos_sim_row self h documents query).2)%nat
  /\ (forall a : nat, (a < length h)%nat ->
        delete "score"%string
          (heap_get (compress_documents cos_sim_row self h documents query).1 a)
        = delete "score"%string (heap_get h a))
  /\ (forall a : nat, (a < length h)%nat ->
        (forall p, p ∈ ranked cos_sim_row self documents query ->
                   metadata p.1 <> a) ->
        (compress_documents cos_sim_row self h documents query).1 !! a
        = h !! a)
  /\ (forall p, p ∈ ranked cos_sim_row self documents query ->
        exists q, q ∈ ranked cos_sim_row self documents query
          /\ metadata q.1 = metadata p.1
          /\ get_score
               (compress_documents cos_sim_row self h documents query).1 p.1
             = Some (VFloat q.2)).
Proof.
  intros Hvalid.
  pose proof (ranked_valid cos_sim_row self h documents query Hvalid) as Hr.
  unfold compress_documents.
  destruct (emit_fold _ _ Hr h []) as (outs & Houts & Hlen & _ & Hall);
    [lia|].
  destruct (emit_fold_inputs _ _ Hr h []) as (E1 & E2 & E3); [lia|].
  split; [|split; [exact E1|split; [exact E2|exact E3]]].
  rewrite Hlen, Houts. cbn [app].
  now rewrite (Forall2_length _ _ _ Hall).
Qed.

(** X7: for top_n >= 0 the output has exactly min(top_n, number of
    candidates that pass the threshold) entries; with r_score = 0 nothing is
    filtered, whatever the scores, and that number is the number of scored
    documents. *)
Theorem compress_count (self : RerankCompressor E) (h : heap)
    (documents : list Document) (query : string) :
  0 <= top_n self ->
  Z.of_nat (length (compress_documents cos_sim_row self h documents query).2)
  = Z.min (top_n self)
      (Z.of_nat (length (thresholded cos_sim_row self documents query)))
  /\ ((r_score self == 0)%Q ->
      thresholded cos_sim_row self documents query
      = zip documents (rerank_scores cos_sim_row self documents query)).
Proof.
  intros Htop. split.
  - rewrite <- (length_map page_content).
    unfold compress_documents. rewrite emit_fold_contents. cbn [List.map app].
    rewrite length_map. unfold ranked.
    change (slice_to (top_n self))
      with (@del_from (Document * score) (top_n self)).
    rewrite del_from_length by exact Htop.
    now rewrite list_sort_length.
  - intros Hzero. unfold thresholded, float_truthy.
    apply Qeq_bool_iff in Hzero. now rewrite Hzero.
Qed.
End CompressMore.

Lemma compress_keeps_metadata_witness :
  Forall (fun doc => (metadata doc < length sample_heap)%nat) sample_documents
  /\ Forall2
       (fun doc p =>
          page_content doc = page_content p.1
          /\ heap_get (compress_documents no_cos_sim (sample_compressor 1 0)
                         sample_heap sample_documents "query").1
               (metadata doc)
             = <["score"%string := VFloat p.2]>
                 (heap_get sample_heap (metadata p.1)))
       (compress_documents no_cos_sim (sample_compressor 1 0)
          sample_heap sample_documents "query").2
       [(mkDocument "first" 0, (9 # 10)%Q)].
Proof.
  assert (Hvalid : Forall (fun doc => (metadata doc < length sample_heap)%nat)
                     sample_documents).
  { repeat constructor; simpl; lia. }
  split; [exact Hvalid|].
  exact (compress_keeps_metadata no_cos_sim (sample_compressor 1 0)
           sample_heap sample_documents "query" Hvalid).
Defined.

Lemma compress_writes_score_only_witness :
  Forall (fun doc => (metadata doc < length sample_heap)%nat) sample_documents
  /\ delete "score"%string
       (heap_get (compress_documents no_cos_sim (sample_compressor 2 0)
                    sample_heap sample_documents "query").1 1)
     = delete "score"%string (heap_get sample_heap 1).
Proof.
  assert (Hvalid : Forall (fun doc => (metadata doc < length sample_heap)%nat)
                     sample_documents).
  { repeat constructor; simpl; lia. }
  split; [exact Hvalid|].
  destruct (compress_writes_score_only no_cos_sim (sample_compressor 2 0)
              sample_heap sample_documents "query" Hvalid)
    as (_ & Herase & _).
  apply Herase. simpl. lia.
Defined.

Lemma compress_count_witness :
  0 <= top_n (sample_compressor 2 (1 # 2))
  /\ Z.of_nat
       (length (compress_documents no_cos_sim (sample_compressor 2 (1 # 2))
                  sample_heap sample_documents "query").2)
     = 2.
Proof.
  split; [simpl; lia|].
  destruct (compress_count no_cos_sim (sample_compressor 2 (1 # 2))
              sample_heap sample_documents "query") as [Hlen _];
    [simpl; lia|].
  rewrite Hlen. reflexivity.
Defined.

(* --------------------------------------------------------------------- *)
(*  The fan-outs: no task, polarity, repeated collections, embedding     *)
(* --------------------------------------------------------------------- *)

Lemma merge_documents_NoDup (query_results : list query_result) (k : Z)
    (reverse : bool) :
  NoDup (documents (merge_and_sort_query_results query_results k reverse)).
Proof.
  rewrite merge_documents.
  apply (NoDup_fmap_1
           (fun doc => match doc with
                       | DStr text => Some (MD5.hexdigest text)
                       | DNone => None
                       end)).
  rewrite <- list_fmap_compose. apply merge_rows_hashes_NoDup.
Qed.

Lemma merge_twice (query_results : list query_result) (k : Z)
    (reverse : bool) :
  merge_and_sort_query_results (query_results ++ query_results) k reverse
  = merge_and_sort_query_results query_results k reverse.
Proof.
  rewrite !merge_unzip3. unfold flattened. rewrite flat_map_app.
  fold (flattened query_results). now rewrite first_seen_twice.
Qed.

Section FanOutMore.
Context {V S F G : Type}.
Variable env : backend V S F G.

Lemma merge_for_backend_reverse (results : list query_result) (k : Z) :
  merge_for_backend env results k
  = merge_and_sort_query_results results k (backend_reverse env).
Proof.
  unfold merge_for_backend, backend_reverse.
  now destruct (String.eqb (VECTOR_DB env) "chroma").
Qed.

Lemma tasks_no_queries (collection_names : list string) :
  tasks collection_names [] = [].
Proof. induction collection_names; [reflexivity|assumption]. Qed.

Lemma tasks_app (a b queries : list string) :
  tasks (a ++ b) queries = tasks a queries ++ tasks b queries.
Proof. unfold tasks. apply flat_map_app. Qed.

Lemma query_collection_returned (collection_names queries : list string)
    (embedding_function : string -> outcome V) (k : Z) (res : query_result) :
  query_collection env collection_names queries embedding_function k
  = Returned res ->
  exists results, res = merge_for_backend env results k.
Proof.
  unfold query_collection.
  destruct (query_collection_queries env collection_names embedding_function
              k [] queries) as [results|e]; cbn [bind]; [|discriminate].
  intros [= <-]. eauto.
Qed.

Lemma hybrid_returned (collection_names queries : list string)
    (embedding_function : F) (k : Z) (reranking_function : G)
    (k_reranker : Z) (r : score) (res : query_result) :
  query_collection_with_hybrid_search env collection_names queries
    embedding_function k reranking_function k_reranker r = Returned res ->
  exists results, res = merge_for_backend env results k.
Proof.
  rewrite hybrid_search_cases.
  destruct (omap _ (tasks collection_names queries)) as [|x rest].
  - destruct (tasks collection_names queries); [|discriminate].
    intros [= <-]. eauto.
  - intros [= <-]. eauto.
Qed.

Lemma query_collection_queries_app (collection_names : list string)
    (embedding_function : string -> outcome V) (k : Z)
    (before : list string) (q : string) (after : list string)
    (results : list query_result) (e : exn) :
  (forall q', q' ∈ before -> exists v, embedding_function q' = Returned v) ->
  embedding_function q = Raised e ->
  query_collection_queries env collection_names embedding_function k
    results (before ++ q :: after) = Raised e.
Proof.
  revert results. induction before as [|q0 before IH]; intros results Hok Hq.
  - cbn [app query_collection_queries]. now rewrite Hq.
  - destruct (Hok q0 (list_elem_of_here _ _)) as [v Hv].
    cbn [app query_collection_queries]. rewrite Hv. cbn [bind].
    apply IH; [|exact Hq]. intros q' Hq'. apply Hok. now right.
Qed.
End FanOutMore.

Section FanOutMoreClaims.
Context {V S F G : Type}.
Variable env : backend V S F G.

(** X8: with no collection or no query there is no task, and
    query_collection_with_hybrid_search returns the empty result instead of
    raising the aggregate error. *)
Theorem hybrid_no_task (collection_names queries : list string)
    (embedding_function : F) (k : Z) (reranking_function : G)
    (k_reranker : Z) (r : score) :
  collection_names = [] \/ queries = [] ->
  query_collection_with_hybrid_search env collection_names queries
    embedding_function k reranking_function k_reranker r
  = Returned empty_result.
Proof.
  intros Hempty.
  assert (Hnone : tasks collection_names queries = []).
  { destruct Hempty as [-> | ->]; [reflexivity|apply tasks_no_queries]. }
  rewrite hybrid_search_cases, Hnone. cbn [omap list_omap].
  now rewrite merge_for_backend_nil.
Qed.

(** X9: whatever either fan-out returns is ordered by the backend polarity:
    ascending in the distance field when VECTOR_DB is "chroma" and descending
    otherwise, for the hybrid path too, where the field holds re-ranking
    scores; its documents are distinct and, for k >= 0, at most k. *)
Theorem fan_out_result_order (collection_names queries : list string)
    (embedding_function : string -> outcome V) (hybrid_embedding : F)
    (k : Z) (reranking_function : G) (k_reranker : Z) (r : score)
    (res : query_result) :
  query_collection env collection_names queries embedding_function k
  = Returned res
  \/ query_collection_with_hybrid_search env collection_names queries
       hybrid_embedding k reranking_function k_reranker r = Returned res ->
  adjacent_in_order distance_of
    (negb (String.eqb (VECTOR_DB env) "chroma")) (result_rows res)
  /\ NoDup (documents res)
  /\ (0 <= k -> Z.of_nat (length (documents res)) <= k).
Proof.
  intros Hret.
  assert (Hres : exists results, res = merge_for_backend env results k).
  { destruct Hret as [Hret|Hret].
    - eapply query_collection_returned; eassumption.
    - eapply hybrid_returned; eassumption. }
  destruct Hres as [results ->].
  rewrite merge_for_backend_reverse. unfold backend_reverse.
  split; [|split].
  - rewrite merge_rows. apply take_adjacent, list_sort_adjacent.
  - apply merge_documents_NoDup.
  - intros Hk. rewrite merge_documents, length_map, merge_rows.
    rewrite del_from_length by exact Hk. lia.
Qed.

(** X10: naming every collection twice does not change what
    query_collection_with_hybrid_search does: the tasks run twice, and the
    merger drops the second copy of every passage. *)
Theorem hybrid_repeated_collections (collection_names queries : list string)
    (embedding_function : F) (k : Z) (reranking_function : G)
    (k_reranker : Z) (r : score) :
  query_collection_with_hybrid_search env
    (collection_names ++ collection_names) queries
    embedding_function k reranking_function k_reranker r
  = query_collection_with_hybrid_search env collection_names queries
      embedding_function k reranking_function k_reranker r.
Proof.
  rewrite !hybrid_search_cases, tasks_app, omap_app.
  destruct (omap _ (tasks collection_names queries)) as [|x rest] eqn:Eo.
  - cbn [app]. now destruct (tasks collection_names queries).
  - cbn [app]. change (x :: rest ++ x :: rest)
      with ((x :: rest) ++ (x :: rest)).
    rewrite !merge_for_backend_reverse. now rewrite merge_twice.
Qed.

(** X11: the embedding call of query_collection is not protected: if the
    embedding of a query raises after the embeddings of the queries before it
    returned, query_collection raises that exception and the results already
    collected for the earlier queries are lost. *)
Theorem query_collection_embedding_failure
    (collection_names before after : list string) (q : string)
    (embedding_function : string -> outcome V) (k : Z) (e : exn) :
  (forall q', q' ∈ before -> exists v, embedding_function q' = Returned v) ->
  embedding_function q = Raised e ->
  query_collection env collection_names (before ++ q :: after)
    embedding_function k
  = Raised e.
Proof.
  intros Hok Hq. unfold query_collection.
  now rewrite (query_collection_queries_app env _ _ _ _ _ _ _ _ Hok Hq).
Qed.
End FanOutMoreClaims.

Lemma hybrid_no_task_witness :
  (["docs"; "other"]%string = [] \/ @nil string = [])
  /\ query_collection_with_hybrid_search sample_backend ["docs"; "other"] []
       tt 4 tt 2 0%Q
     = Returned empty_result.
Proof.
  split; [now right|].
  apply (hybrid_no_task sample_backend ["docs"; "other"] [] tt 4 tt 2 0%Q).
  now right.
Defined.

Lemma fan_out_result_order_witness :
  query_collection sample_backend ["docs"] ["q"] sample_embedding 2
  = Returned (merge_and_sort_query_results [sample_result] 2 false)
  /\ adjacent_in_order distance_of false
       (result_rows (merge_and_sort_query_results [sample_result] 2 false)).
Proof.
  assert (Hret : query_collection sample_backend ["docs"] ["q"]
                   sample_embedding 2
                 = Returned
                     (merge_and_sort_query_results [sample_result] 2 false))
    by reflexivity.
  split; [exact Hret|].
  exact (proj1 (fan_out_result_order sample_backend ["docs"] ["q"]
                  sample_embedding tt 2 tt 2 0%Q _ (or_introl Hret))).
Defined.

Lemma query_collection_embedding_failure_witness :
  (forall q', q' ∈ ["good"]%string ->
              exists v, failing_embedding q' = Returned v)
  /\ failing_embedding "bad" = Raised (Exception "embedding failed")
  /\ query_collection sample_backend ["docs"] (["good"] ++ "bad" :: ["late"])
       failing_embedding 4
     = Raised (Exception "embedding failed").
Proof.
  assert (Hok : forall q', q' ∈ ["good"]%string ->
                  exists v, failing_embedding q' = Returned v).
  { intros q' Hq'. apply elem_of_cons in Hq' as [->|Hq'];
      [exists tt; reflexivity|now apply elem_of_nil in Hq']. }
  split; [exact Hok|]. split; [reflexivity|].
  exact (query_collection_embedding_failure sample_backend ["docs"]
           ["good"] ["late"] "bad" failing_embedding 4 _ Hok eq_refl).
Defined.

(* --------------------------------------------------------------------- *)
(*  merge_get_results and get_all_items_from_collections                 *)
(* --------------------------------------------------------------------- *)

Lemma extend_get_fold (l : list Get.result)
    (st : list document * list dict * list string) :
  fold_left extend_get l st
  = (st.1.1 ++ flat_map Get.documents l,
     st.1.2 ++ flat_map Get.metadatas l,
     st.2 ++ flat_map Get.ids l).
Proof.
  revert st. induction l as [|data l IH]; intros [[docs ms] ids]; simpl.
  - now rewrite !app_nil_r.
  - rewrite IH. unfold extend_get. cbn [fst snd].
    now rewrite <- !app_assoc.
Qed.

Lemma merge_get_results_rows (l : list Get.result) :
  merge_get_results l
  = {| Get.ids := flat_map Get.ids l;
       Get.documents := flat_map Get.documents l;
       Get.metadatas := flat_map Get.metadatas l |}.
Proof.
  unfold merge_get_results. rewrite extend_get_fold. reflexivity.
Qed.

(** X12: merge_get_results concatenates, row by row and in order: the rows
    of the merge of a ++ b are the rows of the merge of a followed by those
    of the merge of b, so nothing is dropped, deduplicated or reordered, and
    merging one result gives it back. *)
Theorem merge_get_results_concat (a b : list Get.result) :
  Get.documents (merge_get_results (a ++ b))
  = Get.documents (merge_get_results a) ++ Get.documents (merge_get_results b)
  /\ Get.metadatas (merge_get_results (a ++ b))
     = Get.metadatas (merge_get_results a)
       ++ Get.metadatas (merge_get_results b)
  /\ Get.ids (merge_get_results (a ++ b))
     = Get.ids (merge_get_results a) ++ Get.ids (merge_get_results b)
  /\ forall data : Get.result, merge_get_results [data] = data.
Proof.
  rewrite !merge_get_results_rows. cbn [Get.documents Get.metadatas Get.ids].
  rewrite !flat_map_app.
  repeat split.
  intros [ids docs ms]. rewrite merge_get_results_rows. simpl.
  now rewrite !app_nil_r.
Qed.

Section GetAllFacts.
Context {V F G : Type}.
Variable env : backend V Get.result F G.

Lemma get_all_loop (collection_names : list string)
    (results : list Get.result) :
  fold_left
    (fun results collection_name =>
       if str_truthy collection_name then
         match get_doc env collection_name with
         | Returned (Some result) => results ++ [result]
         | Returned None => results
         | Raised _ => results
         end
       else results)
    collection_names results
  = results ++ omap (kept_snapshot env) collection_names.
Proof.
  revert results.
  induction collection_names as [|cn rest IH]; intros results; simpl.
  - now rewrite app_nil_r.
  - rewrite IH. unfold kept_snapshot at 2, snapshot_of, get_doc.
    destruct (str_truthy cn); [|reflexivity].
    destruct (client_get env cn) as [[result|]|e];
      [now rewrite <- app_assoc|reflexivity|reflexivity].
Qed.

Lemma omap_filter_kept (collection_names : list string) :
  omap (kept_snapshot env)
    (List.filter (fun cn => bool_decide (is_Some (kept_snapshot env cn)))
       collection_names)
  = omap (kept_snapshot env) collection_names.
Proof.
  induction collection_names as [|cn rest IH]; [reflexivity|].
  cbn [List.filter].
  destruct (kept_snapshot env cn) as [data|] eqn:Ek.
  - rewrite bool_decide_eq_true_2 by eauto.
    cbn [omap list_omap]. rewrite Ek. f_equal. exact IH.
  - rewrite bool_decide_eq_false_2 by (intros [? ?]; discriminate).
    cbn [omap list_omap]. rewrite Ek. exact IH.
Qed.

(** X13: get_all_items_from_collections never fails on a collection: it
    returns the concatenation of the snapshots of the collections with a
    non-empty name whose fetch returned one, in the order asked for; a
    collection with an empty name, whose fetch raises or which has no
    snapshot is skipped, so the call equals the call on the remaining
    collections, and it returns empty rows when none remains. *)
Theorem get_all_items_skips_failures (collection_names : list string) :
  get_all_items_from_collections env collection_names
  = merge_get_results (omap (kept_snapshot env) collection_names)
  /\ get_all_items_from_collections env collection_names
     = get_all_items_from_collections env
         (List.filter (fun cn => bool_decide (is_Some (kept_snapshot env cn)))
            collection_names)
  /\ ((forall cn, cn ∈ collection_names -> kept_snapshot env cn = None) ->
      get_all_items_from_collections env collection_names
      = {| Get.ids := []; Get.documents := []; Get.metadatas := [] |}).
Proof.
  assert (Hspec : forall names,
            get_all_items_from_collections env names
            = merge_get_results (omap (kept_snapshot env) names)).
  { intros names. unfold get_all_items_from_collections.
    now rewrite get_all_loop. }
  split; [apply Hspec|]. split.
  - rewrite !Hspec. now rewrite omap_filter_kept.
  - intros Hnone. rewrite Hspec.
    now rewrite (proj2 (omap_nil_iff _ _) Hnone).
Qed.
End GetAllFacts.

Lemma get_all_items_skips_failures_witness :
  get_all_items_from_collections listing_backend
    ["docs"; ""; "void"; "gone"; "notes"]
  = get_all_items_from_collections listing_backend ["docs"; "notes"]
  /\ Get.documents
       (get_all_items_from_collections listing_backend
          ["docs"; ""; "void"; "gone"; "notes"])
     = [DStr "alpha"; DStr "beta"; DStr "alpha"].
Proof.
  split; [|reflexivity].
  exact (proj1 (proj2 (get_all_items_skips_failures listing_backend
                         ["docs"; ""; "void"; "gone"; "notes"]))).
Defined.

(* --------------------------------------------------------------------- *)
(*  The embedding functions: batches                                     *)
(* --------------------------------------------------------------------- *)

Lemma slice_batch {A : Type} (l : list A) (i b : Z) :
  0 <= i -> 0 <= b ->
  slice l i (i + b) = take (Z.to_nat b) (drop (Z.to_nat i) l).
Proof.
  intros Hi Hb. unfold slice, slice_index.
  destruct (Z.ltb_spec i 0) as [?|_]; [lia|].
  destruct (Z.ltb_spec (i + b) 0) as [?|_]; [lia|].
  destruct (Z.le_gt_cases (Z.of_nat (length l)) i) as [Hfar|Hnear].
  - rewrite Z.min_r by lia. rewrite Nat2Z.id.
    rewrite !drop_ge by lia. now rewrite !take_nil.
  - rewrite (Z.min_l i) by lia.
    destruct (Z.le_gt_cases (i + b) (Z.of_nat (length l))) as [Hin|Hout].
    + rewrite Z.min_l by lia. f_equal. lia.
    + rewrite Z.min_r by lia. rewrite Nat2Z.id.
      rewrite !take_ge; [reflexivity| |]; rewrite length_drop; lia.
Qed.

Lemma chunks_concat {A : Type} (b m : nat) (l : list A) :
  concat (List.map (fun j => take b (drop (j * b) l)) (seq 0 m))
  = take (m * b) l.
Proof.
  induction m as [|m IH].
  - simpl. now rewrite take_0.
  - rewrite seq_S, map_app, concat_app, IH. simpl.
    rewrite app_nil_r, take_take_drop. f_equal. lia.
Qed.

Lemma batches_chunks {A : Type} (b : Z) (l : list A) :
  0 < b ->
  batches b l
  = List.map (fun j => take (Z.to_nat b) (drop (j * Z.to_nat b) l))
      (seq 0 (Z.to_nat ((Z.of_nat (length l) + b - 1) / b))).
Proof.
  intros Hb. unfold batches, range_from_zero.
  destruct (Z.eqb_spec b 0) as [?|_]; [lia|].
  destruct (Z.ltb_spec b 0) as [?|_]; [lia|].
  rewrite map_map. apply map_ext. intros j.
  rewrite slice_batch by lia. f_equal. f_equal. lia.
Qed.

Lemma batch_count_bounds (n b : Z) :
  0 <= n -> 0 < b ->
  n <= (n + b - 1) / b * b /\ ((n + b - 1) / b - 1) * b < n.
Proof.
  intros Hn Hb.
  pose proof (Z.div_mod (n + b - 1) b) as Hdm.
  pose proof (Z.mod_pos_bound (n + b - 1) b Hb) as Hmod.
  split; nia.
Qed.

Lemma batches_concat {A : Type} (b : Z) (l : list A) :
  0 < b -> concat (batches b l) = l.
Proof.
  intros Hb. rewrite batches_chunks by exact Hb.
  rewrite chunks_concat. apply take_ge.
  destruct (batch_count_bounds (Z.of_nat (length l)) b) as [Hle _]; [lia..|].
  assert (0 <= (Z.of_nat (length l) + b - 1) / b)
    by (apply Z.div_pos; lia).
  nia.
Qed.

Lemma batches_sizes {A : Type} (b : Z) (l : list A) :
  0 < b ->
  Forall (fun chunk => 0 < Z.of_nat (length chunk) <= b) (batches b l).
Proof.
  intros Hb. rewrite batches_chunks by exact Hb.
  apply List.Forall_forall. intros chunk Hin.
  apply in_map_iff in Hin as (j & <- & Hj). apply in_seq in Hj.
  destruct (batch_count_bounds (Z.of_nat (length l)) b) as [_ Hlt]; [lia..|].
  assert (0 <= (Z.of_nat (length l) + b - 1) / b)
    by (apply Z.div_pos; lia).
  rewrite length_take, length_drop. nia.
Qed.

Section EmbeddingFacts.
Context {E : Type}.
Variable forward : bool.
Variable post : request -> outcome (option (list E)).

Lemma extend_batch_fold (engine model url key : string)
    (user : option UserModel) (b : Z) (query : list string)
    (indices : list Z) (st : attempt (list E)) :
  fold_left (extend_batch forward post engine model url key user b query)
    indices st
  = fold_left (send_batch forward post engine model url key user)
      (List.map (fun i => slice query i (i + b)) indices) st.
Proof.
  revert st. induction indices as [|i rest IH]; intros st; [reflexivity|].
  simpl. now rewrite IH.
Qed.

Lemma send_batch_all (engine model url key : string)
    (user : option UserModel) (g : list string -> list E)
    (chunks : list (list string)) (embeddings : list E) :
  (forall chunk, chunk ∈ chunks ->
     generate_embeddings_list forward post engine model chunk url key user
     = Some (g chunk)) ->
  fold_left (send_batch forward post engine model url key user) chunks (Done embeddings)
  = Done (embeddings ++ concat (List.map g chunks)).
Proof.
  revert embeddings.
  induction chunks as [|chunk rest IH]; intros embeddings Hall; simpl.
  - now rewrite app_nil_r.
  - rewrite (Hall chunk) by now left.
    rewrite IH by (intros c Hc; apply Hall; now right).
    now rewrite <- app_assoc.
Qed.

Lemma send_batch_failed (engine model url key : string)
    (user : option UserModel) (chunks : list (list string)) :
  fold_left (send_batch forward post engine model url key user) chunks (Failed TypeError)
  = Failed TypeError.
Proof. induction chunks; [reflexivity|assumption]. Qed.

Lemma send_batch_some_failed (engine model url key : string)
    (user : option UserModel) (chunks : list (list string))
    (embeddings : list E) (chunk : list string) :
  chunk ∈ chunks ->
  generate_embeddings_list forward post engine model chunk url key user
  = None ->
  fold_left (send_batch forward post engine model url key user) chunks (Done embeddings)
  = Failed TypeError.
Proof.
  revert embeddings.
  induction chunks as [|c rest IH]; intros embeddings Hin Hnone.
  - now apply elem_of_nil in Hin.
  - simpl.
    destruct (generate_embeddings_list forward post engine model c url key
                user) as [batch|] eqn:Ec.
    + apply elem_of_cons in Hin as [->|Hin]; [congruence|].
      now apply IH.
    + apply send_batch_failed.
Qed.

Lemma generate_multiple_list (engine model url key : string) (b : Z)
    (query : list string) (user : option UserModel) :
  0 < b ->
  generate_multiple forward post engine model url key b (QList query) user
  = match fold_left (send_batch forward post engine model url key user)
            (batches b query) (Done []) with
    | Done embeddings => Done (RMany embeddings)
    | Failed err => Failed err
    end.
Proof.
  intros Hb. unfold generate_multiple, batches.
  unfold range_from_zero.
  destruct (Z.eqb_spec b 0) as [?|_]; [lia|].
  destruct (Z.ltb_spec b 0) as [?|_]; [lia|].
  now rewrite extend_batch_fold.
Qed.

(** X14: for a batch size b > 0, generate_multiple cuts a list query into
    consecutive batches of 1 to b texts that together are the query, sends
    them in order, and returns the concatenation of the answers when every
    batch is answered. *)
Theorem generate_multiple_batches (engine model url key : string) (b : Z)
    (query : list string) (user : option UserModel)
    (g : list string -> list E) :
  0 < b ->
  (forall chunk, chunk ∈ batches b query ->
     generate_embeddings_list forward post engine model chunk url key user
     = Some (g chunk)) ->
  generate_multiple forward post engine model url key b (QList query) user
  = Done (RMany (concat (List.map g (batches b query))))
  /\ concat (batches b query) = query
  /\ Forall (fun chunk => 0 < Z.of_nat (length chunk) <= b) (batches b query).
Proof.
  intros Hb Hall. split; [|split].
  - rewrite generate_multiple_list by exact Hb.
    now rewrite (send_batch_all engine model url key user g _ [] Hall).
  - now apply batches_concat.
  - now apply batches_sizes.
Qed.

(** X15: a batch that is not answered fails the whole call: if the batch
    function returns None for one of the batches, generate_multiple raises
    TypeError and the embeddings of the other batches are not returned. *)
Theorem generate_multiple_failed_batch (engine model url key : string)
    (b : Z) (query chunk : list string) (user : option UserModel) :
  0 < b ->
  chunk ∈ batches b query ->
  generate_embeddings_list forward post engine model chunk url key user
  = None ->
  generate_multiple forward post engine model url key b (QList query) user
  = Failed TypeError.
Proof.
  intros Hb Hin Hnone. rewrite generate_multiple_list by exact Hb.
  now rewrite (send_batch_some_failed engine model url key user _ [] chunk
                 Hin Hnone).
Qed.

(** X16: the batch size is not checked: with batch size 0 every list query
    raises ValueError (the step of range), and with a negative batch size
    every list query returns the empty list without a request. *)
Theorem generate_multiple_degenerate_batch (engine model url key : string)
    (query : list string) (user : option UserModel) :
  generate_multiple forward post engine model url key 0 (QList query) user
  = Failed (ValueError "range() arg 3 must not be zero")
  /\ forall b : Z,
       b < 0 ->
       generate_multiple forward post engine model url key b (QList query)
         user
       = Done (RMany []).
Proof.
  split; [reflexivity|].
  intros b Hb. unfold generate_multiple, range_from_zero.
  destruct (Z.eqb_spec b 0) as [?|_]; [lia|].
  destruct (Z.ltb_spec b 0) as [_|?]; [reflexivity|lia].
Qed.
End EmbeddingFacts.

Section EmbeddingClaims.
Context {E : Type}.
Variable post : request -> outcome (option (list E)).


(** X17: batching is invisible to the caller: for a service that answers
    every request with one embedding per text, the function that
    get_embedding_function builds for the engine "openai" with a batch size
    b > 0 returns, for a list query, exactly the list of the embeddings of
    its texts in order, and for a str query the embedding of the str. *)
Theorem embedding_function_batching_invisible (forward : bool)
    (f : string -> E) (model url key : string)
    (encode : query_arg -> attempt (embedding_result E)) (b : Z)
    (query : list string) (s : string) (user : option UserModel)
    (fn : query_arg -> option UserModel -> attempt (embedding_result E)) :
  0 < b ->
  (forall req, post req = Returned (Some (List.map f (req_input req)))) ->
  get_embedding_function forward post "openai" model encode url key b
  = Done fn ->
  fn (QList query) user = Done (RMany (List.map f query))
  /\ fn (QStr s) user = Done (ROne (f s)).
Proof.
  intros Hb Hpost Hfn.
  change (get_embedding_function forward post "openai" model encode url key b)
    with (Done (generate_multiple forward post "openai" model url key b))
    in Hfn.
  injection Hfn as <-.
  assert (Hlist : forall chunk,
            generate_embeddings_list forward post "openai" model chunk url key
              user = Some (List.map f chunk)).
  { intros chunk.
    change (generate_embeddings_list forward post "openai" model chunk url
              key user)
      with (generate_openai_batch_embeddings forward post model chunk url key
              user).
    unfold generate_openai_batch_embeddings. now rewrite Hpost. }
  split.
  - rewrite generate_multiple_list by exact Hb.
    rewrite (send_batch_all forward post "openai" model url key user
               (List.map f) _ [] (fun chunk _ => Hlist chunk)).
    cbn [app]. now rewrite <- concat_map, batches_concat.
  - cbn [generate_multiple generate_embeddings].
    change (generate_embeddings_str forward post "openai" model s url key user)
      with (match first_embedding
                    (generate_openai_batch_embeddings forward post model [s]
                       url key user) with
            | Done e => Done (Some e)
            | Failed err => Failed err
            end).
    unfold generate_openai_batch_embeddings. rewrite Hpost. reflexivity.
Qed.


(** X19: when the service gives no embeddings (the request raises or the
    answer has no embeddings field), generate_embeddings with the engine
    "ollama" or "openai" returns None for a list of texts but raises
    TypeError for a str, because it indexes the None that the batch function
    returned. *)
Theorem generate_embeddings_no_answer (forward : bool)
    (engine model url key : string) (s : string) (l : list string)
    (user : option UserModel) :
  engine = "ollama"%string \/ engine = "openai"%string ->
  (forall req embeddings, post req <> Returned (Some embeddings)) ->
  generate_embeddings forward post engine model (QStr s) url key user
  = Failed TypeError
  /\ generate_embeddings forward post engine model (QList l) url key user
     = Done RNone.
Proof.
  intros Hengine Hpost.
  assert (Hopenai : forall texts,
            generate_openai_batch_embeddings forward post model texts url key
              user = None).
  { intros texts. unfold generate_openai_batch_embeddings.
    destruct (post _) as [[embeddings|]|e] eqn:Ep; try reflexivity.
    now apply Hpost in Ep. }
  assert (Hollama : forall texts,
            generate_ollama_batch_embeddings forward post model texts url key
              user = None).
  { intros texts. unfold generate_ollama_batch_embeddings.
    destruct forward, user; try reflexivity;
      (destruct (post _) as [[embeddings|]|e] eqn:Ep; try reflexivity;
       now apply Hpost in Ep). }
  destruct Hengine as [-> | ->];
    cbn [generate_embeddings];
    unfold generate_embeddings_str, generate_embeddings_list;
    cbn [String.eqb Ascii.eqb Bool.eqb];
    rewrite ?Hopenai, ?Hollama; split; reflexivity.
Qed.
End EmbeddingClaims.

Lemma generate_multiple_batches_witness :
  0 < 2
  /\ batches 2 ["a"; "bb"; "ccc"]%string = [["a"; "bb"]; ["ccc"]]%string
  /\ generate_multiple false length_service "ollama" "m" "http://h" "k" 2
       (QList ["a"; "bb"; "ccc"]%string) None
     = Done (RMany [1; 2; 3]%nat).
Proof.
  split; [lia|]. split; [reflexivity|].
  refine (proj1 (generate_multiple_batches false length_service "ollama" "m"
                   "http://h" "k" 2 ["a"; "bb"; "ccc"]%string None
                   (List.map String.length) _ _)); [lia|].
  intros chunk _. reflexivity.
Defined.

Lemma generate_multiple_failed_batch_witness :
  0 < 2
  /\ ["ccc"]%string ∈ batches 2 ["a"; "bb"; "ccc"]%string
  /\ generate_multiple false dead_service "openai" "m" "http://h" "k" 2
       (QList ["a"; "bb"; "ccc"]%string) None
     = Failed TypeError.
Proof.
  assert (Hin : ["ccc"]%string ∈ batches 2 ["a"; "bb"; "ccc"]%string)
    by (right; left).
  split; [lia|]. split; [exact Hin|].
  apply (generate_multiple_failed_batch false dead_service "openai" "m"
           "http://h" "k" 2 ["a"; "bb"; "ccc"]%string ["ccc"]%string None);
    [lia|exact Hin|reflexivity].
Defined.

Lemma generate_multiple_degenerate_batch_witness :
  (-3) < 0
  /\ generate_multiple false length_service "openai" "m" "http://h" "k" (-3)
       (QList ["a"; "bb"]%string) None
     = Done (RMany []).
Proof.
  split; [lia|].
  apply (proj2 (generate_multiple_degenerate_batch false length_service
                  "openai" "m" "http://h" "k" ["a"; "bb"]%string None)).
  lia.
Defined.

Lemma embedding_function_batching_invisible_witness :
  0 < 2
  /\ (forall req,
        length_service req
        = Returned (Some (List.map String.length (req_input req))))
  /\ generate_multiple true length_service "openai" "m" "http://h" "k" 2
       (QList ["a"; "bb"; "ccc"]%string) None
     = Done (RMany [1; 2; 3]%nat).
Proof.
  split; [lia|]. split; [reflexivity|].
  refine (proj1 (embedding_function_batching_invisible length_service true
                   String.length "m" "http://h" "k" no_local_model 2
                   ["a"; "bb"; "ccc"]%string "x" None _ _ _ eq_refl));
    [lia|reflexivity].
Defined.


Lemma generate_embeddings_no_answer_witness :
  ("openai"%string = "ollama"%string \/ "openai"%string = "openai"%string)
  /\ (forall req embeddings, dead_service req <> Returned (Some embeddings))
  /\ generate_embeddings false dead_service "openai" "m" (QStr "text")
       "http://h" "k" None
     = Failed TypeError.
Proof.
  assert (Hdead : forall req embeddings,
            dead_service req <> Returned (Some embeddings))
    by (intros req embeddings; discriminate).
  split; [now right|]. split; [exact Hdead|].
  exact (proj1 (generate_embeddings_no_answer dead_service false "openai" "m"
                  "http://h" "k" "text" [] None (or_intror eq_refl) Hdead)).
Defined.

(* --------------------------------------------------------------------- *)
(*  get_model_path                                                       *)
(* --------------------------------------------------------------------- *)

Section ModelPathClaims.
Variable home : option string.
Variable path_exists : string -> bool.
Variable snapshot_download : option string -> bool -> string -> outcome string.

(** X20: in offline mode update_model has no effect: get_model_path gives
    the same answer with and without it, asks the hub for local files only,
    and returns a name with a backslash or with two or more slashes
    unchanged, whether the path exists or not. *)
Theorem get_model_path_offline (model : string) (update_model : bool) :
  get_model_path true home path_exists snapshot_download model update_model
  = get_model_path true home path_exists snapshot_download model false
  /\ get_model_path true home path_exists snapshot_download model update_model
     = get_model_path true home path_exists
         (fun cache_dir _ repo_id => snapshot_download cache_dir true repo_id)
         model update_model
  /\ (has_char backslash model = true \/ (2 <= count_char slash model)%nat ->
      get_model_path true home path_exists snapshot_download model
        update_model = model).
Proof.
  unfold get_model_path. split; [reflexivity|]. split; [reflexivity|].
  intros Hlike. rewrite andb_true_r.
  assert (Hcond : has_char backslash model
                  || Nat.ltb 1 (count_char slash model) = true).
  { destruct Hlike as [->|Hcount]; [reflexivity|].
    apply orb_true_iff. right. apply Nat.ltb_lt. lia. }
  rewrite Hcond. now rewrite orb_true_r.
Qed.

(** X21: a short model name (no slash, no backslash, not an existing path)
    is looked up in the hub as "sentence-transformers/" followed by the
    name; when the lookup fails, get_model_path returns that prefixed name,
    not the name it was given. *)
Theorem get_model_path_short_name (offline : bool) (model : string)
    (update_model : bool) :
  path_exists model = false ->
  has_char slash model = false ->
  has_char backslash model = false ->
  get_model_path offline home path_exists snapshot_download model update_model
  = match snapshot_download home (offline || negb update_model)
            ("sentence-transformers/" +:+ model) with
    | Returned model_repo_path => model_repo_path
    | Raised _ => ("sentence-transformers/" +:+ model)%string
    end.
Proof.
  intros Hexists Hslash Hback. unfold get_model_path.
  rewrite Hexists, Hslash, Hback.
  assert (Hcount : Nat.ltb 1 (count_char slash model) = false).
  { unfold has_char in Hslash. apply negb_false_iff, Nat.eqb_eq in Hslash.
    now rewrite Hslash. }
  rewrite Hcount. cbn [orb andb negb].
  now destruct offline.
Qed.
End ModelPathClaims.

Lemma get_model_path_offline_witness :
  (has_char backslash "models/local/bge" = true
   \/ (2 <= count_char slash "models/local/bge")%nat)
  /\ get_model_path true None no_path sample_hub "models/local/bge" true
     = "models/local/bge"%string.
Proof.
  assert (Hlike : has_char backslash "models/local/bge" = true
                  \/ (2 <= count_char slash "models/local/bge")%nat)
    by (right; simpl; lia).
  split; [exact Hlike|].
  exact (proj2 (proj2 (get_model_path_offline None no_path sample_hub
                         "models/local/bge" true)) Hlike).
Defined.

Lemma get_model_path_short_name_witness :
  no_path "unknown-model" = false
  /\ has_char slash "unknown-model" = false
  /\ has_char backslash "unknown-model" = false
  /\ get_model_path false None no_path sample_hub "unknown-model" true
     = "sentence-transformers/unknown-model"%string.
Proof.
  split; [reflexivity|]. split; [reflexivity|]. split; [reflexivity|].
  exact (get_model_path_short_name None no_path sample_hub false
           "unknown-model" true eq_refl eq_refl eq_refl).
Defined.

(* --------------------------------------------------------------------- *)
(*  VectorSearchRetriever._get_relevant_documents                        *)
(* --------------------------------------------------------------------- *)

Section RetrieverFacts.
Context {V : Type}.
Variable search : string -> V -> Z -> outcome (option Search.result).

Lemma append_document_failed (result : Search.result) (l : list nat)
    (err : error) :
  fold_left (append_document result) l (Failed err) = Failed err.
Proof. induction l; [reflexivity|assumption]. Qed.

Lemma append_documents_done (result : Search.result) (h : heap) (n : nat)
    (texts : list string) :
  (n <= length (Search.metadatas result))%nat ->
  (n <= length (Search.documents result))%nat ->
  take n (Search.documents result) = List.map DStr texts ->
  fold_left (append_document result) (seq 0 n) (Done (h, []))
  = Done (h ++ take n (Search.metadatas result),
          zip_with mkDocument texts (seq (length h) n)).
Proof.
  revert texts. induction n as [|n IH]; intros texts Hms Hdocs Htexts.
  - rewrite take_0 in Htexts. destruct texts; [|discriminate].
    simpl. now rewrite take_0, app_nil_r.
  - destruct (lookup_lt_is_Some_2 (Search.documents result) n) as [d Hd];
      [lia|].
    destruct (lookup_lt_is_Some_2 (Search.metadatas result) n) as [m Hm];
      [lia|].
    rewrite (take_S_r _ _ _ Hd) in Htexts.
    symmetry in Htexts.
    apply fmap_app_inv in Htexts as (texts' & last & Htake & Hlast & ->).
    destruct last as [|t [|? ?]]; try discriminate.
    injection Hlast as ->.
    rewrite seq_S, fold_left_app.
    rewrite (IH texts') by (try lia; now symmetry).
    cbn [fold_left append_document Nat.add]. rewrite Hm, Hd.
    unfold alloc_Document. cbn [fst snd].
    rewrite (take_S_r _ _ _ Hm), app_assoc.
    rewrite seq_S.
    assert (Hlen : length texts' = n).
    { rewrite <- (length_map DStr). change (map DStr texts') with (DStr <$> texts').
      rewrite <- Htake, length_take. lia. }
    rewrite zip_with_app by (now rewrite length_seq).
    rewrite length_app, length_take. cbn [zip_with].
    repeat f_equal. lia.
Qed.

Lemma append_documents_inv (result : Search.result) (h : heap) (n : nat)
    (h' : heap) (outs : list Document) :
  fold_left (append_document result) (seq 0 n) (Done (h, [])) = Done (h', outs) ->
  (n <= length (Search.metadatas result))%nat
  /\ (n <= length (Search.documents result))%nat
  /\ take n (Search.documents result)
     = List.map DStr (List.map page_content outs).
Proof.
  revert h' outs. induction n as [|n IH]; intros h' outs Hfold.
  - injection Hfold as <- <-. simpl. repeat split; lia.
  - rewrite seq_S, fold_left_app in Hfold. cbn [fold_left Nat.add] in Hfold.
    destruct (fold_left (append_document result) (seq 0 n) (Done (h, [])))
      as [[hn outsn]|err] eqn:En; [|discriminate].
    destruct (IH hn outsn eq_refl) as (Hms & Hdocs & Htake).
    cbn [append_document] in Hfold.
    destruct (Search.metadatas result !! n) as [m|] eqn:Hm; [|discriminate].
    destruct (Search.documents result !! n) as [[t|]|] eqn:Hd;
      try discriminate.
    injection Hfold as <- <-.
    apply lookup_lt_Some in Hm. apply lookup_lt_Some in Hd as Hd'.
    split; [lia|]. split; [lia|].
    rewrite (take_S_r _ _ _ Hd), Htake.
    unfold alloc_Document. cbn [snd]. now rewrite !map_app.
Qed.

(** X22: when the search returns a result whose metadatas and documents
    rows cover its n ids and whose first n documents are strs,
    _get_relevant_documents returns n Documents, one per id and in order,
    with the text and a copy of the metadata of the same index; the dicts
    of the heap that existed before are untouched. *)
Theorem get_relevant_documents_rows (self : VectorSearchRetriever V)
    (h : heap) (query : string) (v : V) (result : Search.result)
    (texts : list string) :
  retriever_embedding self query = Returned v ->
  search (collection_name self) v (top_k self) = Returned (Some result) ->
  (length (Search.ids result) <= length (Search.metadatas result))%nat ->
  (length (Search.ids result) <= length (Search.documents result))%nat ->
  take (length (Search.ids result)) (Search.documents result)
  = List.map DStr texts ->
  get_relevant_documents search self h query
  = Done (h ++ take (length (Search.ids result)) (Search.metadatas result),
          zip_with mkDocument texts
            (seq (length h) (length (Search.ids result)))).
Proof.
  intros Hemb Hsearch Hms Hdocs Htexts. unfold get_relevant_documents.
  rewrite Hemb, Hsearch. now apply append_documents_done.
Qed.

(** X23: _get_relevant_documents returns nothing partial: whenever it
    returns, the metadatas and documents rows cover all ids, the documents
    of the ids are strs, and the Documents returned are these texts, one per
    id; a shorter row or a document that is not a str makes it raise. *)
Theorem get_relevant_documents_complete (self : VectorSearchRetriever V)
    (h h' : heap) (query : string) (outs : list Document) :
  get_relevant_documents search self h query = Done (h', outs) ->
  exists (v : V) (result : Search.result),
    retriever_embedding self query = Returned v
    /\ search (collection_name self) v (top_k self) = Returned (Some result)
    /\ (length (Search.ids result) <= length (Search.metadatas result))%nat
    /\ (length (Search.ids result) <= length (Search.documents result))%nat
    /\ take (length (Search.ids result)) (Search.documents result)
       = List.map DStr (List.map page_content outs)
    /\ length outs = length (Search.ids result).
Proof.
  unfold get_relevant_documents. intros Hret.
  destruct (retriever_embedding self query) as [v|e] eqn:Hemb;
    [|discriminate].
  destruct (search (collection_name self) v (top_k self))
    as [[result|]|e] eqn:Hsearch; try discriminate.
  exists v, result.
  destruct (append_documents_inv result h _ h' outs Hret)
    as (Hms & Hdocs & Htake).
  repeat split; try assumption.
  apply (f_equal (@length document)) in Htake.
  rewrite length_take, !length_map in Htake. lia.
Qed.
End RetrieverFacts.

Lemma get_relevant_documents_rows_witness :
  get_relevant_documents sample_search sample_retriever sample_heap "query"
  = Done (sample_heap ++ [ {[ "source" := VStr "a.txt" ]}; ∅ ],
          [mkDocument "alpha" 3; mkDocument "beta" 4]).
Proof.
  exact (get_relevant_documents_rows sample_search sample_retriever
           sample_heap "query" tt _ ["alpha"; "beta"]%string
           eq_refl eq_refl (Nat.le_refl 2) (Nat.le_refl 2) eq_refl).
Defined.

Lemma get_relevant_documents_complete_witness :
  get_relevant_documents sample_search sample_retriever sample_heap "query"
  = Done (sample_heap ++ [ {[ "source" := VStr "a.txt" ]}; ∅ ],
          [mkDocument "alpha" 3; mkDocument "beta" 4])
  /\ exists (v : unit) (result : Search.result),
       sample_search "docs" v 2 = Returned (Some result)
       /\ length [mkDocument "alpha" 3; mkDocument "beta" 4]
          = length (Search.ids result).
Proof.
  assert (Hret : get_relevant_documents sample_search sample_retriever
                   sample_heap "query"
                 = Done (sample_heap ++ [ {[ "source" := VStr "a.txt" ]}; ∅ ],
                         [mkDocument "alpha" 3; mkDocument "beta" 4]))
    by reflexivity.
  split; [exact Hret|].
  destruct (get_relevant_documents_complete sample_search sample_retriever
              sample_heap _ "query" _ Hret)
    as (v & result & _ & Hsearch & _ & _ & _ & Hlen).
  exists v, result. split; assumption.
Defined.

(* --------------------------------------------------------------------- *)
(*  The dict of query_doc_with_hybrid_search on the compressor's output  *)
(* --------------------------------------------------------------------- *)

Lemma Forall2_map_eq {A B C : Type} (f : A -> C) (g : B -> C)
    (l1 : list A) (l2 : list B) :
  Forall2 (fun a b => f a = g b) l1 l2 -> List.map f l1 = List.map g l2.
Proof. induction 1 as [|a b l1 l2 Hab _ IH]; simpl; congruence. Qed.

Lemma zip3_map {A B C D : Type} (f : D -> A) (g : D -> B) (k : D -> C)
    (l : list D) :
  zip3 (List.map f l) (List.map g l) (List.map k l)
  = List.map (fun x => (f x, g x, k x)) l.
Proof. induction l as [|x l IH]; simpl; [reflexivity|now rewrite IH]. Qed.

Lemma map_adjacent {A B : Type} (key : B -> score) (f : A -> B) (r : bool)
    (l : list A) :
  adjacent_in_order (fun a => key (f a)) r l ->
  adjacent_in_order key r (List.map f l).
Proof.
  intros Hl i a b Ha Hb.
  change (List.map f l) with (f <$> l) in Ha, Hb.
  rewrite list_lookup_fmap in Ha, Hb.
  destruct (l !! i) as [a0|] eqn:Ea; [|discriminate].
  destruct (l !! S i) as [b0|] eqn:Eb; [|discriminate].
  injection Ha as <-. injection Hb as <-.
  exact (Hl i a0 b0 Ea Eb).
Qed.

Lemma omap_texts {A : Type} (f : A -> string) (l : list A) :
  omap (fun doc => match doc with
                   | DStr text => Some text
                   | DNone => None
                   end) (List.map (fun p => DStr (f p)) l)
  = List.map f l.
Proof. induction l as [|x l IH]; [reflexivity|]. cbn. now rewrite IH. Qed.

Section HybridDict.
Context {E : Type} (cos_sim_row : E -> string -> list string -> list score).

(** X24: the dict that query_doc_with_hybrid_search builds from what the
    compressor returned is a well-formed result set: its three rows are
    aligned with the ranked candidates, the distance of an entry is the
    float score of the candidate, its document the text and its metadata
    the candidate's metadata with that score under "score"; the distances
    are in descending order. *)
Theorem hybrid_result_of_compressor (self : RerankCompressor E) (h : heap)
    (documents : list Document) (query : string) :
  Forall (fun doc => (metadata doc < length h)%nat) documents ->
  hybrid_result
    (compress_documents cos_sim_row self h documents query).1
    (compress_documents cos_sim_row self h documents query).2
  = hybrid_of_query_result
      (ranked_result cos_sim_row self h documents query)
  /\ result_rows (ranked_result cos_sim_row self h documents query)
     = List.map
         (fun p => (p.2, DStr (page_content p.1),
                    <["score"%string := VFloat p.2]>
                      (heap_get h (metadata p.1))))
         (ranked cos_sim_row self documents query)
  /\ adjacent_in_order distance_of true
       (result_rows (ranked_result cos_sim_row self h documents query))
  /\ Forall
       (fun e => metadata_of e !! "score"%string
                 = Some (VFloat (distance_of e)))
       (result_rows (ranked_result cos_sim_row self h documents query)).
Proof.
  intros Hvalid.
  assert (Hrows :
    result_rows (ranked_result cos_sim_row self h documents query)
    = List.map
        (fun p => (p.2, DStr (page_content p.1),
                   <["score"%string := VFloat p.2]>
                     (heap_get h (metadata p.1))))
        (ranked cos_sim_row self documents query)).
  { exact (zip3_map snd (fun p => DStr (page_content p.1))
             (fun p => <["score"%string := VFloat p.2]>
                         (heap_get h (metadata p.1)))
             (ranked cos_sim_row self documents query)). }
  split; [|split; [exact Hrows|split]].
  - unfold hybrid_result, hybrid_of_query_result, ranked_result.
    simpl.
    pose proof (compress_scored cos_sim_row self h documents query Hvalid)
      as Hscored.
    unfold compress_documents in *.
    destruct (emit_fold_outputs (ranked cos_sim_row self documents query)
                (length h)
                (ranked_valid cos_sim_row self h documents query Hvalid)
                h []) as (outs & Houts & Hall); [lia|].
    rewrite Houts in *. cbn [app] in *.
    f_equal.
    + rewrite map_map. apply Forall2_map_eq.
      eapply Forall2_impl; [exact Hscored|].
      intros d p Hd. exact (proj2 Hd).
    + rewrite <- Houts, emit_fold_contents. cbn [List.map app].
      symmetry. apply (omap_texts (fun p => page_content p.1)).
    + apply Forall2_map_eq.
      eapply Forall2_impl; [exact Hall|].
      intros d p Hd. exact (proj2 Hd).
  - rewrite Hrows. apply map_adjacent. cbn [distance_of fst snd].
    apply ranked_sorted.
  - rewrite Hrows. apply List.Forall_forall. intros e He.
    apply in_map_iff in He as (p & <- & _).
    cbn [metadata_of distance_of fst snd]. apply lookup_insert_eq.
Qed.
End HybridDict.

Lemma hybrid_result_of_compressor_witness :
  Forall (fun doc => (metadata doc < length sample_heap)%nat) sample_documents
  /\ hybrid_distances
       (hybrid_result
          (compress_documents no_cos_sim (sample_compressor 2 (1 # 2))
             sample_heap sample_documents "query").1
          (compress_documents no_cos_sim (sample_compressor 2 (1 # 2))
             sample_heap sample_documents "query").2)
     = [Some (VFloat (9 # 10)); Some (VFloat (6 # 10))].
Proof.
  assert (Hvalid : Forall (fun doc => (metadata doc < length sample_heap)%nat)
                     sample_documents).
  { repeat constructor; simpl; lia. }
  split; [exact Hvalid|].
  destruct (hybrid_result_of_compressor no_cos_sim
              (sample_compressor 2 (1 # 2)) sample_heap sample_documents
              "query" Hvalid) as (Hdict & _).
  rewrite Hdict. reflexivity.
Defined.

(* --------------------------------------------------------------------- *)
(*  get_sources_from_files: hybrid search and its fallback               *)
(* --------------------------------------------------------------------- *)

Section RetrieveContextClaims.
Context {V G : Type}.
Variable env : backend V Get.result (string -> outcome V) G.

(** X25: the fallback of get_sources_from_files: with hybrid search on, for
    a file that is not a text file, when every hybrid task fails the context
    is what query_collection gives: its merged result when the embedding
    calls return, even the empty result when every dense search fails too,
    and None (no source for the file) only when query_collection raises. *)
Theorem retrieve_context_fallback (file_type file_content : option string)
    (collection_names queries : list string)
    (embedding_function : string -> outcome V) (k : Z)
    (reranking_function : G) (k_reranker : Z) (r : score) :
  match file_type with
  | Some t => String.eqb t "text"
  | None => false
  end = false ->
  tasks collection_names queries <> [] ->
  (forall t, t ∈ tasks collection_names queries ->
     task_result env embedding_function k reranking_function k_reranker r t
     = None) ->
  retrieve_context env file_type file_content collection_names queries
    embedding_function k reranking_function k_reranker r true false
  = match query_collection env collection_names queries embedding_function
            k with
    | Returned result => Some (CtxResult result)
    | Raised _ => None
    end
  /\ ((forall q, q ∈ queries ->
                 exists v, embedding_function q = Returned v) ->
      retrieve_context env file_type file_content collection_names queries
        embedding_function k reranking_function k_reranker r true false
      = Some (CtxResult
                (merge_for_backend env
                   (search_results env collection_names queries
                      embedding_function k) k))
      /\ ((forall (collection_name : string) (v : V),
             collection_name ∈ collection_names ->
             exists e, client_search env collection_name v k = Raised e) ->
          retrieve_context env file_type file_content collection_names
            queries embedding_function k reranking_function k_reranker r
            true false
          = Some (CtxResult empty_result))).
Proof.
  intros Htype Hne Hall.
  assert (Hfall :
    retrieve_context env file_type file_content collection_names queries
      embedding_function k reranking_function k_reranker r true false
    = match query_collection env collection_names queries embedding_function
              k with
      | Returned result => Some (CtxResult result)
      | Raised _ => None
      end).
  { unfold retrieve_context. rewrite Htype.
    rewrite (hybrid_all_failed env _ _ _ _ _ _ _ Hne Hall). reflexivity. }
  split; [exact Hfall|].
  intros Hemb.
  assert (Hret :
    query_collection env collection_names queries embedding_function k
    = Returned
        (merge_for_backend env
           (search_results env collection_names queries embedding_function k)
           k)).
  { unfold query_collection.
    rewrite (query_collection_queries_returns env _ _ _ _ _ Hemb).
    reflexivity. }
  split.
  - now rewrite Hfall, Hret.
  - intros Hfail. rewrite Hfall, Hret.
    rewrite (search_results_nil env _ _ _ _ Hfail).
    now rewrite merge_for_backend_nil.
Qed.

(** X26: no fallback when hybrid search gave anything: with hybrid search
    on, for a file that is not a text file, when one hybrid task succeeds
    the context is the merge of the successful hybrid tasks, and
    query_collection is not used; with hybrid search off the context is what
    query_collection gives. *)
Theorem retrieve_context_hybrid (file_type file_content : option string)
    (collection_names queries : list string)
    (embedding_function : string -> outcome V) (k : Z)
    (reranking_function : G) (k_reranker : Z) (r : score) :
  match file_type with
  | Some t => String.eqb t "text"
  | None => false
  end = false ->
  ((exists t, t ∈ tasks collection_names queries
              /\ is_Some (task_result env embedding_function k
                            reranking_function k_reranker r t)) ->
   retrieve_context env file_type file_content collection_names queries
     embedding_function k reranking_function k_reranker r true false
   = Some (CtxResult
             (merge_for_backend env
                (omap (task_result env embedding_function k
                         reranking_function k_reranker r)
                   (tasks collection_names queries)) k)))
  /\ retrieve_context env file_type file_content collection_names queries
       embedding_function k reranking_function k_reranker r false false
     = match query_collection env collection_names queries embedding_function
               k with
       | Returned result => Some (CtxResult result)
       | Raised _ => None
       end.
Proof.
  intros Htype. split.
  - intros Hsome. unfold retrieve_context. rewrite Htype.
    destruct (hybrid_some_succeeded env _ _ _ _ _ _ _ Hsome) as [_ Hret].
    now rewrite Hret.
  - unfold retrieve_context. now rewrite Htype.
Qed.
End RetrieveContextClaims.

Lemma retrieve_context_fallback_witness :
  tasks ["docs"] ["q"] <> []
  /\ (forall t, t ∈ tasks ["docs"] ["q"] ->
        task_result fallback_backend sample_embedding 2 tt 2 0%Q t = None)
  /\ retrieve_context fallback_backend (Some "file"%string) None
       ["docs"] ["q"] sample_embedding 2 tt 2 0%Q true false
     = Some (CtxResult
               (merge_and_sort_query_results [sample_result] 2 false)).
Proof.
  assert (Hne : tasks ["docs"] ["q"] <> []) by (simpl; discriminate).
  assert (Hall : forall t, t ∈ tasks ["docs"] ["q"] ->
            task_result fallback_backend sample_embedding 2 tt 2 0%Q t = None).
  { intros t Ht. cbn [tasks flat_map List.map app] in Ht.
    apply elem_of_cons in Ht as [->|Ht];
      [reflexivity|now apply elem_of_nil in Ht]. }
  split; [exact Hne|]. split; [exact Hall|].
  exact (proj1 (retrieve_context_fallback fallback_backend
                  (Some "file"%string) None ["docs"] ["q"] sample_embedding
                  2 tt 2 0%Q eq_refl Hne Hall)).
Defined.

Lemma retrieve_context_hybrid_witness :
  match Some "file"%string with
  | Some t => String.eqb t "text"
  | None => false
  end = false
  /\ retrieve_context fallback_backend (Some "file"%string) None
       ["docs"] ["q"] sample_embedding 2 tt 2 0%Q false false
     = Some (CtxResult
               (merge_and_sort_query_results [sample_result] 2 false)).
Proof.
  split; [reflexivity|].
  exact (proj2 (retrieve_context_hybrid fallback_backend
                  (Some "file"%string) None ["docs"] ["q"] sample_embedding
                  2 tt 2 0%Q eq_refl)).
Defined.
